(** * SmartShopSaver: intent routing and structured extraction

    A shallow embedding of the routing core of SmartShopSaver
    (agents/ai_intent_analyzer.py, agents/base_agent.py,
    agents/price_tracker_agent_improved.py, agents/multi_platform_search.py)
    and the proofs of its specified properties.

    Part I holds the model, one module per source file; Part II the proofs. *)

From Stdlib Require Import ZArith NArith QArith List String Ascii Lia Bool.
From Stdlib Require Import Sorting.Sorted Sorting.Permutation.
From stdpp Require Import base option list gmap.

Set Default Proof Using "Type".
Set Warnings "-register-all".
Set Warnings "-automation".


(* ===================================================================== *)
(** * Part I: the model                                                   *)
(* ===================================================================== *)

(** ** Python strings

    A Python [str] is a sequence of Unicode code points; it is modelled as
    the list of its code points.  String constants of the source are written
    as UTF-8 literals and decoded once, by [py]. *)

Module PyStr.

Definition char := N.
Definition str := list char.

(** UTF-8 decoding of the literals of this file (well-formed by
    construction; a stray byte is kept as it is). *)
Fixpoint utf8_decode (fuel : nat) (bs : list N) : str :=
  match fuel with
  | O => []
  | S fuel' =>
    match bs with
    | [] => []
    | b0 :: r0 =>
      if (b0 <? 0x80)%N then b0 :: utf8_decode fuel' r0
      else if (b0 <? 0xE0)%N then
        match r0 with
        | b1 :: r1 =>
            ((b0 - 0xC0) * 64 + (b1 - 0x80))%N :: utf8_decode fuel' r1
        | _ => [b0]
        end
      else if (b0 <? 0xF0)%N then
        match r0 with
        | b1 :: b2 :: r2 =>
            ((b0 - 0xE0) * 4096 + (b1 - 0x80) * 64 + (b2 - 0x80))%N
              :: utf8_decode fuel' r2
        | _ => b0 :: r0
        end
      else
        match r0 with
        | b1 :: b2 :: b3 :: r3 =>
            ((b0 - 0xF0) * 262144 + (b1 - 0x80) * 4096
             + (b2 - 0x80) * 64 + (b3 - 0x80))%N :: utf8_decode fuel' r3
        | _ => b0 :: r0
        end
    end
  end.

Definition py (s : string) : str :=
  let bs := List.map N_of_ascii (list_ascii_of_string s) in
  utf8_decode (List.length bs) bs.

(** [str.isspace] for one character, which is also the class [\s] of [re] on
    [str] patterns and the set removed by [str.strip()]. *)
Definition is_space (c : char) : bool :=
  ((0x09 <=? c) && (c <=? 0x0D) || (0x1C <=? c) && (c <=? 0x20)
   || (c =? 0x85) || (c =? 0xA0) || (c =? 0x1680)
   || (0x2000 <=? c) && (c <=? 0x200A)
   || (c =? 0x2028) || (c =? 0x2029) || (c =? 0x202F) || (c =? 0x205F)
   || (c =? 0x3000))%N.

(** The first code point of every run of ten decimal digits of Unicode
    (general category Nd): the class [\d] of [re] on [str] patterns, and the
    digits [float] and [int] accept. *)
Definition decimal_zeros : list N :=
  [ 0x30; 0x660; 0x6f0; 0x7c0; 0x966; 0x9e6; 0xa66; 0xae6; 0xb66; 0xbe6;
    0xc66; 0xce6; 0xd66; 0xde6; 0xe50; 0xed0; 0xf20; 0x1040; 0x1090; 0x17e0;
    0x1810; 0x1946; 0x19d0; 0x1a80; 0x1a90; 0x1b50; 0x1bb0; 0x1c40; 0x1c50;
    0xa620; 0xa8d0; 0xa900; 0xa9d0; 0xa9f0; 0xaa50; 0xabf0; 0xff10; 0x104a0;
    0x10d30; 0x11066; 0x110f0; 0x11136; 0x111d0; 0x112f0; 0x11450; 0x114d0;
    0x11650; 0x116c0; 0x11730; 0x118e0; 0x11950; 0x11c50; 0x11d50; 0x11da0;
    0x16a60; 0x16ac0; 0x16b50; 0x1d7ce; 0x1d7d8; 0x1d7e2; 0x1d7ec; 0x1d7f6;
    0x1e140; 0x1e2f0; 0x1e950; 0x1fbf0 ]%N.

Fixpoint digit_in (zeros : list N) (c : char) : option N :=
  match zeros with
  | [] => None
  | z :: zs =>
      if ((z <=? c) && (c <=? z + 9))%N then Some (c - z)%N
      else digit_in zs c
  end.

(** The decimal value of a digit character, [None] for any other one. *)
Definition digit_value (c : char) : option N := digit_in decimal_zeros c.

Definition is_digit (c : char) : bool :=
  match digit_value c with Some _ => true | None => false end.

(** ASCII letters and digits. *)
Definition is_ascii_digit (c : char) : bool := ((0x30 <=? c) && (c <=? 0x39))%N.

Definition is_ascii_alnum (c : char) : bool :=
  ((0x30 <=? c) && (c <=? 0x39) || (0x41 <=? c) && (c <=? 0x5A)
   || (0x61 <=? c) && (c <=? 0x7A))%N.

(** The empty string. *)
Definition empty_str : str := [].

Definition char_eqb (a b : char) : bool := (a =? b)%N.

Fixpoint str_eqb (a b : str) : bool :=
  match a, b with
  | [], [] => true
  | x :: a', y :: b' => char_eqb x y && str_eqb a' b'
  | _, _ => false
  end.

(** [s.startswith(p)]. *)
Fixpoint startswith (p s : str) : bool :=
  match p, s with
  | [], _ => true
  | x :: p', y :: s' => char_eqb x y && startswith p' s'
  | _ :: _, [] => false
  end.

(** [sub in s] on strings: [sub] occurs in [s] as a contiguous run. *)
Fixpoint str_in (sub s : str) : bool :=
  startswith sub s ||
  match s with
  | [] => false
  | _ :: s' => str_in sub s'
  end.

(** [any(word in s for word in words)]. *)
Definition any_in (words : list str) (s : str) : bool :=
  existsb (fun w => str_in w s) words.

Fixpoint lstrip (s : str) : str :=
  match s with
  | c :: s' => if is_space c then lstrip s' else s
  | [] => []
  end.

Definition rstrip (s : str) : str := rev (lstrip (rev s)).

(** [s.strip()]. *)
Definition strip (s : str) : str := rstrip (lstrip s).

(** [str.lower] follows the case-mapping tables of the Python runtime, which
    are no part of the repository: the model takes it as a parameter. *)
Class StrLower := str_lower : str -> str.

(** A lower-casing of the ASCII letters, for running the model on examples. *)
Definition ascii_lower : StrLower :=
  List.map (fun c => if ((0x41 <=? c) && (c <=? 0x5A))%N then (c + 32)%N else c).

(** [int] of a run of decimal digits, most significant first; [float] of such
    a run is modelled by the same exact value. *)
Fixpoint digits_value (acc : N) (ds : str) : option N :=
  match ds with
  | [] => Some acc
  | d :: ds' =>
      match digit_value d with
      | Some v => digits_value (10 * acc + v)%N ds'
      | None => None
      end
  end.

Definition parse_number (ds : str) : option N :=
  match ds with
  | [] => None
  | _ => digits_value 0 ds
  end.

(** [str(n)] for a natural number: its decimal digits, no leading zero. *)
Fixpoint decimal_aux (fuel : nat) (n : N) (acc : str) : str :=
  let acc' := (0x30 + n mod 10)%N :: acc in
  match fuel with
  | O => acc'
  | S fuel' => if (n <? 10)%N then acc' else decimal_aux fuel' (n / 10)%N acc'
  end.

Definition decimal (n : N) : str := decimal_aux (N.to_nat (N.log2 n)) n [].

End PyStr.
Export PyStr.

(** ** Floats

    [float(ds)] for a run of decimal digits is the binary64 number nearest
    to the value of the digits, a tie going to the even significand, and it
    is infinity when that number would be 2^1024 or more.  Such a float is a
    natural number or infinity; these are all the floats the code below
    meets. *)

Module PyFloat.

Inductive float :=
| Num (v : N)
| Inf.

(** The binary64 number nearest to [n].  Up to 53 bits [n] is kept; beyond,
    [e] low bits are rounded away. *)
Definition float_of_N (n : N) : float :=
  if (n <? 2 ^ 53)%N then Num n
  else
    let e := (N.log2 n - 52)%N in
    let q := (n / 2 ^ e)%N in
    let r := (n mod 2 ^ e)%N in
    let half := (2 ^ (e - 1))%N in
    let q' := if (half <? r)%N || ((r =? half)%N && N.odd q)
              then (q + 1)%N else q in
    let v := (q' * 2 ^ e)%N in
    if (v <? 2 ^ 1024)%N then Num v else Inf.

(** [x >= a] for a natural number [a], and [not x]. *)
Definition float_geb (x : float) (a : N) : bool :=
  match x with
  | Num v => (a <=? v)%N
  | Inf => true
  end.

Definition float_falsy (x : float) : bool :=
  match x with
  | Num v => (v =? 0)%N
  | Inf => false
  end.

(** The order of a float and a natural number, for the statements. *)
Definition float_ge (x : float) (a : N) : Prop :=
  match x with
  | Num v => (a <= v)%N
  | Inf => True
  end.

Definition float_lt (x : float) (a : N) : Prop :=
  match x with
  | Num v => (v < a)%N
  | Inf => False
  end.

End PyFloat.
Export PyFloat.

(** ** Exceptions

    The handlers below guard their bodies with [except Exception].  An
    [outcome] is what a call of the library or of the module's own code
    does: it returns a value, or it raises an instance of Python's
    [Exception] that prints as its message ([exn_message]).

    The wrapper of [BaseAgent] guards the code of any subclass, and what is
    said of it is said of everything that code may raise.  [thrown] is every
    object a [raise] can raise, and a [completion] is what a call does when
    all of them count. *)

Module PyExn.

Record Exception := { exn_class : str; exn_message : str }.

Inductive outcome (A : Type) : Type :=
| Returned (a : A)
| Raised (e : Exception).
Arguments Returned {A} a.
Arguments Raised {A} e.

(** [try: body except Exception as e: handler(e)]. *)
Definition try_except {A} (body : outcome A) (handler : Exception -> outcome A)
  : outcome A :=
  match body with
  | Returned a => Returned a
  | Raised e => handler e
  end.

Definition bind {A B} (m : outcome A) (k : A -> outcome B) : outcome B :=
  match m with
  | Returned a => k a
  | Raised e => Raised e
  end.

(** An instance of [Exception] that prints as its message; an instance of
    [Exception] whose [__str__] raises [inner] when it is printed; an
    instance of [BaseException] that is no [Exception] ([KeyboardInterrupt],
    [SystemExit], [GeneratorExit]). *)
Inductive thrown :=
| Ordinary (e : Exception)
| Unprintable (e : Exception) (inner : thrown)
| BaseOnly (e : Exception).

Inductive completion (A : Type) : Type :=
| Normal (a : A)
| Throws (t : thrown).
Arguments Normal {A} a.
Arguments Throws {A} t.

(** [isinstance(e, Exception)]. *)
Definition is_Exception (t : thrown) : bool :=
  match t with
  | Ordinary _ | Unprintable _ _ => true
  | BaseOnly _ => false
  end.

(** [str(e)], as an f-string evaluates it. *)
Definition str_of (t : thrown) : completion str :=
  match t with
  | Ordinary e | BaseOnly e => Normal (exn_message e)
  | Unprintable _ inner => Throws inner
  end.

(** A call of the module's own code, which raises ordinary exceptions
    only, among all calls. *)
Definition of_outcome {A} (m : outcome A) : completion A :=
  match m with
  | Returned a => Normal a
  | Raised e => Throws (Ordinary e)
  end.

End PyExn.
Export PyExn.

(** ** Dictionaries

    A [dict] keeps its keys in insertion order: an association list with
    unique keys. *)

Module PyDict.

Fixpoint dict_get {V} (k : str) (d : list (str * V)) : option V :=
  match d with
  | [] => None
  | (k', v) :: d' => if str_eqb k k' then Some v else dict_get k d'
  end.

(** [d[k] = v]: an existing key keeps its place, a new one goes last. *)
Fixpoint dict_set {V} (k : str) (v : V) (d : list (str * V)) : list (str * V) :=
  match d with
  | [] => [(k, v)]
  | (k', v') :: d' =>
      if str_eqb k k' then (k, v) :: d' else (k', v') :: dict_set k v d'
  end.

(** [d.get(k, default)]. *)
Definition get_default {V} (k : str) (dflt : V) (d : list (str * V)) : V :=
  match dict_get k d with Some v => v | None => dflt end.

(** [d.values()] and the keys [d] iterates over. *)
Definition values {V} (d : list (str * V)) : list V := List.map snd d.
Definition keys {V} (d : list (str * V)) : list str := List.map fst d.

End PyDict.
Export PyDict.

(** ** agents/base_agent.py *)

Module BaseAgent.

(** An agent: its name and the subclass hook [_process_message_internal],
    which may return a reply or raise anything. *)
Record agent := {
  agent_name : str;
  _process_message_internal : str -> str -> completion str
}.

Definition unavailable_prefix : str := Eval vm_compute in py "❌ ".
Definition unavailable_suffix : str :=
  Eval vm_compute in py " 暫時無法使用，請稍後再試".

(** [BaseAgent.process_message]: the body runs under [try].  The [except
    Exception] arm takes instances of [Exception] only; it first builds
    [error_msg], which prints the exception, logs it, and then returns the
    fixed reply built from the agent's name.  What printing raises leaves
    the method, and so does an exception the arm does not take. *)
Definition process_message (self : agent) (user_id message : str)
  : completion str :=
  match _process_message_internal self user_id message with
  | Normal result => Normal result
  | Throws e =>
      if is_Exception e then
        match str_of e with
        | Normal text =>
            let error_msg := agent_name self ++ py " 處理失敗: " ++ text in
            Normal (unavailable_prefix ++ agent_name self ++ unavailable_suffix)
        | Throws inner => Throws inner
        end
      else Throws e
  end.

(** [not s] on a string. *)
Definition falsy (s : str) : bool :=
  match s with [] => true | _ => false end.

(** [BaseAgent.validate_input]. *)
Definition validate_input (message : str) : bool :=
  if falsy message || falsy (strip message) then false
  else if (1000 <? List.length message)%nat then false
  else true.

End BaseAgent.

(** ** agents/ai_intent_analyzer.py *)

Module AIIntentAnalyzer.

(** Values decoded from JSON, as [json.loads] returns them. *)
Inductive json :=
| JNull
| JBool (b : bool)
| JNum (q : Q)
| JStr (s : str)
| JArr (l : list json)
| JObj (fields : list (str * json)).

(** Truth value of a decoded JSON value ([if result:]). *)
Definition truthy (v : json) : bool :=
  match v with
  | JNull => false
  | JBool b => b
  | JNum q => negb (Qeq_bool q 0)
  | JStr s => negb (BaseAgent.falsy s)
  | JArr l => match l with [] => false | _ => true end
  | JObj fs => match fs with [] => false | _ => true end
  end.

(** One entry of the conversation history. *)
Record turn := {
  timestamp : str;
  message : str;
  agent : json
}.

(** [self.conversation_history]: user id to list of turns. *)
Abbreviation history := (gmap str (list turn)).

(** [if user_id] for an optional string: neither [None] nor empty. *)
Definition truthy_id (user_id : option str) : option str :=
  match user_id with
  | Some (c :: u) => Some (c :: u)
  | _ => None
  end.

(** [_get_user_context]. *)
Definition _get_user_context (conversation_history : history)
    (user_id : option str) : list turn :=
  match truthy_id user_id with
  | Some u =>
      match conversation_history !! u with
      | Some h => h
      | None => []
      end
  | None => []
  end.

(** [l[-n:]] for a positive [n]. *)
Definition last_n {A} (n : nat) (l : list A) : list A :=
  drop (List.length l - n) l.

(** [_update_conversation_history]; [now] is [datetime.now().isoformat()]. *)
Definition _update_conversation_history (conversation_history : history)
    (now : str) (user_id : option str) (message : str) (agent : json)
  : history :=
  match truthy_id user_id with
  | None => conversation_history
  | Some u =>
      let h0 := match conversation_history !! u with
                | Some h => h
                | None => []
                end in
      let h1 := h0 ++ [{| timestamp := now; message := message; agent := agent |}] in
      if (10 <? List.length h1)%nat
      then <[u := last_n 10 h1]> conversation_history
      else <[u := h1]> conversation_history
  end.

(** A run of [_update_conversation_history] calls, oldest first: each call
    gives the user id and the turn to record (its clock reading, message and
    agent). *)
Definition record (conversation_history : history)
    (calls : list (option str * turn)) : history :=
  fold_left
    (fun h '(user_id, t) =>
       _update_conversation_history h (timestamp t) user_id (message t) (agent t))
    calls conversation_history.

(** The turns that a run of calls carries for the user [u], oldest first. *)
Definition turns_of (u : str) (calls : list (option str * turn)) : list turn :=
  List.map snd
    (List.filter (fun c => match fst c with
                           | Some v => str_eqb v u
                           | None => false
                           end) calls).

Definition Qlt_bool (a b : Q) : bool := negb (Qle_bool b a).

(** [max(xs, key=key)] for a non-empty [xs]: the first item whose key is
    maximal; [best] is the candidate so far. *)
Fixpoint max_from {A} (key : A -> Q) (best : A) (xs : list A) : A :=
  match xs with
  | [] => best
  | x :: xs' => max_from key (if Qlt_bool (key best) (key x) then x else best) xs'
  end.

(** [max] raises [ValueError] on an empty sequence: [None]. *)
Definition py_max {A} (key : A -> Q) (xs : list A) : option A :=
  match xs with
  | [] => None
  | x :: xs' => Some (max_from key x xs')
  end.

Definition py_min (a b : Q) : Q := if Qlt_bool b a then b else a.

(** [score += w] when [cond].  The scores of the source are floats; they
    are sums of at most three of the literals 0.2, 0.3, 0.5, 0.7 and 0.8, and
    in binary64 each such sum is the float of the exact decimal sum
    (0.5 + 0.3 + 0.2 and 0.7 + 0.3 are 1.0), so the exact rationals used here
    compare as the floats do. *)
Definition add_if (cond : bool) (w score : Q) : Q :=
  if cond then (score + w)%Q else score.

Section Fallback.
Context {L : StrLower}.

Definition kw (l : list string) : list str := List.map py l.

Definition recommendation_words : list str :=
  Eval vm_compute in kw ["買"; "推薦"; "建議"; "想要"; "需要"; "選"; "哪個"; "什麼"; "好"]%string.
Definition recommendation_products : list str :=
  Eval vm_compute in kw ["滑鼠"; "鍵盤"; "耳機"; "手機"; "筆電"; "平板"]%string.
Definition question_marks : list str :=
  Eval vm_compute in kw ["?"; "？"; "嗎"]%string.
Definition price_words : list str :=
  Eval vm_compute in kw ["價格"; "多少錢"; "追蹤"; "降價"; "便宜"; "特價"]%string.
Definition price_notify_words : list str :=
  Eval vm_compute in kw ["通知"; "提醒"; "目標價"]%string.
Definition review_words : list str :=
  Eval vm_compute in kw ["評價"; "評論"; "好不好"; "好用"; "值得"; "怎麼樣"]%string.
Definition review_detail_words : list str :=
  Eval vm_compute in kw ["優點"; "缺點"; "心得"; "體驗"]%string.
Definition finance_words : list str :=
  Eval vm_compute in kw ["記帳"; "記錄"; "花費"; "花了"; "消費"; "支出"]%string.
Definition finance_period_words : list str :=
  Eval vm_compute in kw ["預算"; "統計"; "這個月"; "本月"; "今天"]%string.
Definition gmail_words : list str :=
  Eval vm_compute in kw ["gmail"; "mail"; "郵件"; "信件"; "email"]%string.
Definition gmail_link_words : list str :=
  Eval vm_compute in kw ["連接"; "連結"; "授權"; "同步"]%string.

Definition SmartRecommendation : str := Eval vm_compute in py "SmartRecommendation".
Definition PriceTracker : str := Eval vm_compute in py "PriceTracker".
Definition ProductReview : str := Eval vm_compute in py "ProductReview".
Definition Finance : str := Eval vm_compute in py "Finance".
Definition Gmail : str := Eval vm_compute in py "Gmail".

Definition recommendation_score (message : str) : Q :=
  let message_lower := str_lower message in
  add_if (any_in question_marks message) 0.2
    (add_if (any_in recommendation_products message_lower) 0.3
       (add_if (any_in recommendation_words message_lower) 0.5 0)).

Definition price_score (message : str) : Q :=
  let message_lower := str_lower message in
  add_if (any_in price_notify_words message_lower) 0.3
    (add_if (any_in price_words message_lower) 0.7 0).

Definition review_score (message : str) : Q :=
  let message_lower := str_lower message in
  add_if (any_in review_detail_words message_lower) 0.3
    (add_if (any_in review_words message_lower) 0.7 0).

Definition finance_score (message : str) : Q :=
  let message_lower := str_lower message in
  add_if (any_in finance_period_words message_lower) 0.3
    (add_if (any_in finance_words message_lower) 0.7 0).

Definition gmail_score (message : str) : Q :=
  let message_lower := str_lower message in
  add_if (any_in gmail_link_words message_lower) 0.2
    (add_if (any_in gmail_words message_lower) 0.8 0).

(** The [scores] dictionary of [_advanced_fallback_analysis], filled in the
    order of the source. *)
Definition scores (message : str) : list (str * Q) :=
  dict_set Gmail (gmail_score message)
    (dict_set Finance (finance_score message)
       (dict_set ProductReview (review_score message)
          (dict_set PriceTracker (price_score message)
             (dict_set SmartRecommendation (recommendation_score message) [])))).

(** [scores.get], applied to keys of [scores] only. *)
Definition score_of (scores : list (str * Q)) (k : str) : Q :=
  get_default k 0%Q scores.

(** The greatest score and the first handler that has it. *)
Definition top_score (message : str) : Q :=
  max_from (fun v => v) (recommendation_score message)
    [price_score message; review_score message; finance_score message;
     gmail_score message].

Definition first_best (message : str) : str :=
  max_from (score_of (scores message)) SmartRecommendation
    [PriceTracker; ProductReview; Finance; Gmail].

(** [_guess_intent]. *)
Definition _guess_intent (message : str) : str :=
  let message_lower := str_lower message in
  if str_in (py "買") message_lower || str_in (py "推薦") message_lower
  then py "尋求產品推薦"
  else if str_in (py "價格") message_lower || str_in (py "多少錢") message_lower
  then py "查詢價格資訊"
  else if str_in (py "評價") message_lower || str_in (py "好不好") message_lower
  then py "了解產品評價"
  else if str_in (py "記帳") message_lower || str_in (py "花") message_lower
  then py "記錄財務資訊"
  else if str_in (py "gmail") message_lower || str_in (py "郵件") message_lower
  then py "Gmail相關操作"
  else py "一般諮詢".

(** [_extract_keywords]. *)
Definition _extract_keywords (message : str) : list str :=
  let message_lower := str_lower message in
  let products :=
    kw ["滑鼠"; "鍵盤"; "耳機"; "手機"; "筆電"; "平板"; "iphone"; "airpods"]%string in
  let actions := kw ["買"; "推薦"; "價格"; "評價"; "記帳"; "追蹤"]%string in
  let keywords :=
    List.filter (fun product => str_in product message_lower) products
    ++ List.filter (fun action => str_in action message_lower) actions in
  take 5 keywords.

Definition ValueError : Exception :=
  {| exn_class := py "ValueError"; exn_message := py "max() arg is an empty sequence" |}.

(** [_advanced_fallback_analysis]: (agent, confidence, analysis).  The
    [context] argument is received and not used. *)
Definition _advanced_fallback_analysis (message : str) (context : list turn)
  : outcome (str * Q * json) :=
  let scores := scores message in
  bind (match py_max (fun v => v) (values scores) with
        | Some m => Returned m
        | None => Raised ValueError
        end)
    (fun top =>
  bind (if Qeq_bool top 0
        then Returned (SmartRecommendation, 0.3%Q)
        else match py_max (score_of scores) (keys scores) with
             | Some best_agent =>
                 Returned (best_agent, py_min (score_of scores best_agent) 0.9)
             | None => Raised ValueError
             end)
    (fun '(best_agent, confidence) =>
  let analysis :=
    JObj [ (py "intent", JStr (_guess_intent message));
           (py "keywords", JArr (List.map JStr (_extract_keywords message)));
           (py "context", JStr (py "基於規則分析"));
           (py "reasoning", JStr (py "匹配度最高的功能是" ++ best_agent)) ] in
  Returned (best_agent, confidence, analysis))).

(** What [analyze_intent] returns: agent, confidence, analysis. *)
Definition decision : Type := json * json * json.

Definition of_fallback (r : outcome (str * Q * json)) : outcome decision :=
  bind r (fun '(a, c, an) => Returned (JStr a, JNum c, an)).

(** [analyze_intent].  [api_key] is [self.api_key]; [reply] is what
    [_call_openai] returns for the prompt ([None] for a transport failure, a
    status other than 200 or an undecodable body, all caught inside it);
    [now] is the clock reading.  The result pairs the returned value with
    [self.conversation_history] after the call. *)
Definition analyze_intent (api_key : str) (reply : option json) (now : str)
    (conversation_history : history) (message : str) (user_id : option str)
  : outcome decision * history :=
  let context :=
    match truthy_id user_id with
    | Some _ => _get_user_context conversation_history user_id
    | None => []
    end in
  let fallback :=
    (of_fallback (_advanced_fallback_analysis message context),
     conversation_history) in
  if BaseAgent.falsy api_key then fallback
  else
    match reply with
    | Some result =>
        if truthy result then
          match result with
          | JObj fields =>
              let agent := get_default (py "agent") (JStr SmartRecommendation) fields in
              let confidence := get_default (py "confidence") (JNum 0.5) fields in
              let analysis := get_default (py "analysis") (JObj []) fields in
              let conversation_history' :=
                match truthy_id user_id with
                | Some _ =>
                    _update_conversation_history conversation_history now
                      user_id message agent
                | None => conversation_history
                end in
              (Returned (agent, confidence, analysis), conversation_history')
          | _ =>
              (* [result.get] raises AttributeError, caught by the [except]
                 arm, which falls through to the fallback *)
              fallback
          end
        else fallback
    | None => fallback
    end.

End Fallback.

End AIIntentAnalyzer.

(** ** The fragment of Python's [re] the price tracker uses

    Backtracking matching in the order [re] tries the alternatives: a
    pattern is run against the text with a continuation for what follows it,
    and the first success (leftmost choice, greedy repetition first) is the
    result.  The only capture tracked is group 1, the one the source reads. *)

Module Re.

Inductive regex :=
| Lit (l : str)                 (* a literal run of characters *)
| Cls (p : char -> bool)        (* one character of a class *)
| Seq (r1 r2 : regex)           (* r1 r2 *)
| Alt (r1 r2 : regex)           (* r1 | r2 *)
| Opt (r : regex)               (* r? *)
| Star (p : char -> bool)       (* c* for a one-character class c *)
| Group (r : regex).            (* ( r ) *)

(** [c+] and [c{4,}] for a one-character class. *)
Definition Plus (p : char -> bool) : regex := Seq (Cls p) (Star p).
Definition AtLeast4 (p : char -> bool) : regex :=
  Seq (Cls p) (Seq (Cls p) (Seq (Cls p) (Seq (Cls p) (Star p)))).

(** Greedy repetition: take a character when it is in the class and go on;
    when what follows fails, give the character back. *)
Fixpoint star {R} (p : char -> bool) (s : str) (k : str -> option R) : option R :=
  match s with
  | c :: s' =>
      if p c then
        match star p s' k with
        | Some x => Some x
        | None => k s
        end
      else k s
  | [] => k []
  end.

(** [run r s g k]: match [r] at the head of [s]; [g] is group 1 so far and
    [k] receives the rest of the text and the group. *)
Fixpoint run {R} (r : regex) (s : str) (g : option str)
    (k : str -> option str -> option R) : option R :=
  match r with
  | Lit l => if startswith l s then k (drop (List.length l) s) g else None
  | Cls p =>
      match s with
      | c :: s' => if p c then k s' g else None
      | [] => None
      end
  | Seq r1 r2 => run r1 s g (fun s' g' => run r2 s' g' k)
  | Alt r1 r2 =>
      match run r1 s g k with
      | Some x => Some x
      | None => run r2 s g k
      end
  | Opt r1 =>
      match run r1 s g k with
      | Some x => Some x
      | None => k s g
      end
  | Star p => star p s (fun s' => k s' g)
  | Group r1 =>
      run r1 s g (fun s' _ => k s' (Some (take (List.length s - List.length s') s)))
  end.

(** A match anchored at the head of [s]: the text after it and group 1. *)
Definition match_at (r : regex) (s : str) : option (str * option str) :=
  run r s None (fun s' g => Some (s', g)).

(** [re.search]: the match at the leftmost position that has one. *)
Fixpoint search (r : regex) (s : str) : option (str * option str) :=
  match match_at r s with
  | Some m => Some m
  | None =>
      match s with
      | [] => None
      | _ :: s' => search r s'
      end
  end.

(** [re.sub(r, repl, s)] for a pattern that matches no empty text (all the
    patterns of this file consume a character): scan from the left, replace a
    match by [repl] and go on after it.  [skip] counts the characters of the
    current match still to pass over. *)
Fixpoint sub_from (r : regex) (repl : str) (skip : nat) (s : str) : str :=
  match s with
  | [] => []
  | c :: s' =>
      match skip with
      | S n => sub_from r repl n s'
      | O =>
          match match_at r s with
          | Some (rest, _) =>
              match (List.length s - List.length rest)%nat with
              | S n => repl ++ sub_from r repl n s'
              | O => c :: sub_from r repl O s'
              end
          | None => c :: sub_from r repl O s'
          end
      end
  end.

Definition sub (r : regex) (repl : str) (s : str) : str := sub_from r repl O s.

(** [s.replace(old, new)] for a non-empty [old]. *)
Definition replace (old new : str) (s : str) : str := sub (Lit old) new s.

(** [matches r w g g']: the word [w] is one that [r] accepts, and accepting
    it turns group 1 from [g] into [g']. *)
Inductive matches : regex -> str -> option str -> option str -> Prop :=
| M_Lit l g : matches (Lit l) l g g
| M_Cls (p : char -> bool) c g : p c = true -> matches (Cls p) [c] g g
| M_Seq r1 r2 w1 w2 g g1 g2 :
    matches r1 w1 g g1 -> matches r2 w2 g1 g2 ->
    matches (Seq r1 r2) (w1 ++ w2) g g2
| M_AltL r1 r2 w g g' : matches r1 w g g' -> matches (Alt r1 r2) w g g'
| M_AltR r1 r2 w g g' : matches r2 w g g' -> matches (Alt r1 r2) w g g'
| M_OptSome r w g g' : matches r w g g' -> matches (Opt r) w g g'
| M_OptNone r g : matches (Opt r) [] g g
| M_Star (p : char -> bool) w g : forallb p w = true -> matches (Star p) w g g
| M_Group r w g g' : matches r w g g' -> matches (Group r) w g (Some w).

(** [no_group r]: the pattern has no capturing group. *)
Fixpoint no_group (r : regex) : bool :=
  match r with
  | Lit _ | Cls _ | Star _ => true
  | Seq r1 r2 | Alt r1 r2 => no_group r1 && no_group r2
  | Opt r1 => no_group r1
  | Group _ => false
  end.

(** [rejects r c]: no word of [r] starts a text whose first character is
    [c]. *)
Definition rejects (r : regex) (c : char) : Prop :=
  forall t, match_at r (c :: t) = None.

End Re.

(** ** The PChome search reply

    One listing of the [prods] array of the reply, with the keys the code
    reads; a key that is missing is [None]. *)

Module PChome.

Record prod := {
  Id : option str;
  name : option str;
  price : option Z;
  picS : option str
}.

End PChome.

(** ** agents/price_tracker_agent_improved.py *)

Module PriceTrackerAgent.
Import Re.
Import PChome.

Definition space : str := Eval vm_compute in py " ".

(** The literals of the patterns. *)
Definition s_target_price : str := Eval vm_compute in py "目標價格".
Definition s_target : str := Eval vm_compute in py "目標".
Definition s_price : str := Eval vm_compute in py "價格".
Definition s_yuan : str := Eval vm_compute in py "元".
Definition s_dollar : str := Eval vm_compute in py "$".
Definition s_NT : str := Eval vm_compute in py "NT".

(** [(目標價格|價格|元|\$|NT\$?)\s*\d+] *)
Definition price_pattern : regex :=
  Seq (Group (Alt (Lit s_target_price) (Alt (Lit s_price) (Alt (Lit s_yuan)
                (Alt (Lit s_dollar) (Seq (Lit s_NT) (Opt (Lit s_dollar))))))))
      (Seq (Star is_space) (Plus is_digit)).

Definition remove_keywords : list str :=
  Eval vm_compute in
  List.map py ["追蹤"; "監控"; "通知"; "降價"; "請幫我"; "幫我";
               "查詢"; "查價"; "移除"; "刪除"; "取消"]%string.

(** The class [[，,。.！!？?]]. *)
Definition punctuation : str := Eval vm_compute in py "，,。.！!？?".
Definition is_punctuation (c : char) : bool := existsb (char_eqb c) punctuation.

(** [_extract_product_name]. *)
Definition _extract_product_name (message : str) : option str :=
  let clean := sub price_pattern empty_str message in
  let clean := fold_left (fun clean kw => replace kw space clean)
                         remove_keywords clean in
  let clean := sub (Cls is_punctuation) space clean in
  let clean := strip (sub (Plus is_space) space clean) in
  if (2 <? List.length clean)%nat then Some clean else None.

(** The class [[::：]]. *)
Definition is_colon (c : char) : bool :=
  (char_eqb c 0x3A || char_eqb c 0x3A || char_eqb c 0xFF1A)%N.

Definition sep_number : regex :=
  Seq (Star is_space) (Seq (Opt (Cls is_colon))
    (Seq (Star is_space) (Group (Plus is_digit)))).

(** The six patterns of [_extract_target_price], in order. *)
Definition patterns : list regex :=
  [ Seq (Lit s_target_price) sep_number;
    Seq (Lit s_target) sep_number;
    Seq (Lit s_price) sep_number;
    Seq (Group (AtLeast4 is_digit)) (Seq (Star is_space) (Lit s_yuan));
    Seq (Lit s_NT) (Seq (Opt (Lit s_dollar))
      (Seq (Star is_space) (Group (Plus is_digit))));
    Seq (Lit s_dollar) (Seq (Star is_space) (Group (Plus is_digit))) ].

Definition float_error : Exception :=
  {| exn_class := py "ValueError";
     exn_message := py "could not convert string to float" |}.

(** [float(match.group(1))]: the float nearest to the value of the captured
    digits; a text that is no numeral makes [float] raise. *)
Definition float_of_group (g : option str) : outcome float :=
  match g with
  | Some ds =>
      match parse_number ds with
      | Some v => Returned (float_of_N v)
      | None => Raised float_error
      end
  | None => Raised float_error
  end.

(** The loop of [_extract_target_price] over the patterns left to try. *)
Fixpoint first_price (ps : list regex) (message : str)
  : outcome (option float) :=
  match ps with
  | [] => Returned None
  | pattern :: ps' =>
      match search pattern message with
      | Some (_, g) =>
          bind (float_of_group g) (fun price =>
            if float_geb price 100 then Returned (Some price)
            else first_price ps' message)
      | None => first_price ps' message
      end
  end.

(** [_extract_target_price]. *)
Definition _extract_target_price (message : str) : outcome (option float) :=
  first_price patterns message.

(** A run of decimal digits, and a numeric span of a message: a run of
    digits that occurs in it. *)
Definition digit_run (ds : str) : Prop :=
  ds <> [] /\ forallb is_digit ds = true.

Definition numeric_span (ds message : str) : Prop :=
  digit_run ds /\ exists a b, message = a ++ ds ++ b.

(** Group 1 of every word of [r] is a run of digits inside the word. *)
Definition captures_digits (r : regex) : Prop :=
  forall w g, matches r w None g ->
    exists ds a b, g = Some ds /\ digit_run ds /\ w = a ++ ds ++ b.

(** [has_nt_digit p]: somewhere in [p] the letters NT are directly followed
    by a digit, which is a text the price pattern takes for a price. *)
Fixpoint has_nt_digit (p : str) : bool :=
  match p with
  | [] => false
  | c :: p' =>
      (char_eqb c 0x4E%N
       && match p' with
          | t :: d :: _ => char_eqb t 0x54%N && is_digit d
          | _ => false
          end)
      || has_nt_digit p'
  end.

Definition exclude_keywords : list str :=
  Eval vm_compute in
  List.map py ["保護套"; "保護殼"; "手機殼"; "皮套"; "充電器"; "充電線";
               "傳輸線"; "電池"; "行動電源"; "耳機套"; "支架"; "貼膜";
               "保護貼"; "配件"; "周邊"; "專用"; "適用於"]%string.

Section Filter.
Context {L : StrLower}.

(** The test of the loop body: the lower-cased name holds an exclusion
    keyword. *)
Definition is_accessory (p : prod) : bool :=
  let name := str_lower (default empty_str (name p)) in
  any_in exclude_keywords name.

(** [_filter_products]; [query] is received and not used. *)
Definition _filter_products (products : list prod) (query : str) : list prod :=
  let filtered := List.filter (fun p => negb (is_accessory p)) products in
  match filtered with
  | [] => take 10 products
  | _ => take 10 filtered
  end.

End Filter.

End PriceTrackerAgent.

(** ** agents/multi_platform_search.py *)

Module MultiPlatformSearch.

(** A search result as [search_pchome] builds it: every key is present. *)
Record candidate := {
  platform : str;
  name : str;
  price : Z;
  url : str;
  image : str
}.

(** What [requests.get] hands back: the status and the decoded body, whose
    decoding ([response.json()]) may raise; [prods] is [None] when the body
    has no such key. *)
Record response := {
  status_code : Z;
  prods : outcome (option (list PChome.prod))
}.

(** A record of the log: the level and the text. *)
Inductive level := INFO | ERROR.
Definition log := list (level * str).

Definition of_prod (p : PChome.prod) : candidate :=
  {| platform := py "PChome 24h";
     name := default empty_str (PChome.name p);
     price := default 0%Z (PChome.price p);
     url := py "https://24h.pchome.com.tw/prod/" ++ default empty_str (PChome.Id p);
     image := default empty_str (PChome.picS p) |}.

(** [search_pchome]; [reply] is the outcome of [requests.get] for the
    keyword (a timeout is one of the exceptions it raises).  The whole body
    is under [try]: any exception is logged and the result is empty. *)
Definition search_pchome (reply : outcome response) (keyword : str) (limit : nat)
  : list candidate * log :=
  let body : outcome (option (list candidate)) :=
    bind reply (fun response =>
      if (status_code response =? 200)%Z then
        bind (prods response) (fun data =>
          let products := take limit (default [] data) in
          Returned (Some (List.map of_prod products)))
      else Returned None) in
  match body with
  | Returned (Some results) => (results, [])
  | Returned None => ([], [])
  | Raised e => ([], [(ERROR, py "PChome 搜尋失敗: " ++ exn_message e)])
  end.

(** [search_momo] and [search_shopee]: placeholders that find nothing. *)
Definition search_momo (keyword : str) (limit : nat) : list candidate * log :=
  ([], [(INFO, py "MOMO 搜尋: " ++ keyword)]).

Definition search_shopee (keyword : str) (limit : nat) : list candidate * log :=
  ([], [(INFO, py "蝦皮搜尋: " ++ keyword)]).

(** The three futures [search_all_platforms] submits. *)
Inductive future := F_pchome | F_momo | F_shopee.

Definition futures (f : future) : str :=
  match f with
  | F_pchome => py "pchome"
  | F_momo => py "momo"
  | F_shopee => py "shopee"
  end.

(** What [future.result()] gives for each future: the list the worker
    returned, or the exception it raised. *)
Definition workers : Type := future -> outcome (list candidate).

Definition initial_results : list (str * list candidate) :=
  [ (py "pchome", []); (py "momo", []); (py "shopee", []) ].

(** One turn of the loop over [as_completed(futures)]. *)
Definition collect (w : workers) (st : list (str * list candidate) * log)
    (f : future) : list (str * list candidate) * log :=
  let '(results, lg) := st in
  let platform := futures f in
  match w f with
  | Returned r => (dict_set platform r results, lg)
  | Raised e => (results, lg ++ [(ERROR, platform ++ py " 搜尋失敗: " ++ exn_message e)])
  end.

(** [search_all_platforms]: [completed] is the order in which
    [as_completed] yields the three futures.  The result pairs the returned
    dictionary with the records the loop logged. *)
Definition search_all_platforms (w : workers) (completed : list future)
  : list (str * list candidate) * log :=
  fold_left (collect w) completed (initial_results, []).

(** The workers of the module as it stands. *)
Definition module_workers (reply : outcome response) (keyword : str) (limit : nat)
  : workers :=
  fun f =>
    match f with
    | F_pchome => Returned (fst (search_pchome reply keyword limit))
    | F_momo => Returned (fst (search_momo keyword limit))
    | F_shopee => Returned (fst (search_shopee keyword limit))
    end.

(** [list.sort(key=price)]: a stable sort, here by insertion. *)
Fixpoint insert_by_price (x : candidate) (l : list candidate) : list candidate :=
  match l with
  | [] => [x]
  | y :: l' =>
      if (price x <=? price y)%Z then x :: y :: l'
      else y :: insert_by_price x l'
  end.

Definition sort_by_price (l : list candidate) : list candidate :=
  fold_right insert_by_price [] l.

(** [all_products] of [format_multi_platform_response] before and after the
    sort. *)
Definition all_products (results : list (str * list candidate)) : list candidate :=
  concat (values results).

Definition sorted_products (results : list (str * list candidate)) : list candidate :=
  sort_by_price (all_products results).


(** Digits in groups of three from the right, for the format [{:,}]. *)
Fixpoint group3 (rev_digits : str) : str :=
  match rev_digits with
  | a :: b :: c :: (_ :: _) as more => a :: b :: c :: 0x2C%N :: group3 more
  | _ => rev_digits
  end.

Definition format_commas (z : Z) : str :=
  (if (z <? 0)%Z then py "-" else [])
  ++ rev (group3 (rev (decimal (Z.abs_N z)))).





(** The futures that [as_completed] yields, each once. *)
Definition all_futures : list future := [F_pchome; F_momo; F_shopee].



End MultiPlatformSearch.

(** ** Sample inputs *)

Module Samples.
Import AIIntentAnalyzer.

(** Fifteen turns of user U1, with turns of U2 in between. *)
Definition sample_turn (i : N) : turn :=
  {| timestamp := decimal i; message := py "m" ++ decimal i;
     agent := JStr SmartRecommendation |}.

Definition sample_calls : list (option str * turn) :=
  List.flat_map
    (fun i => [ (Some (py "U1"), sample_turn i);
                (Some (py "U2"), sample_turn (100 + i)) ])
    [1; 2; 3; 4; 5; 6; 7; 8; 9; 10; 11; 12; 13; 14; 15]%N.

Import PChome.

(** A phone and a case for it. *)
Definition phone : prod :=
  {| Id := Some (py "A1"); name := Some (py "iPhone 15 128G");
     price := Some 27900%Z; picS := None |}.
Definition phone_case : prod :=
  {| Id := Some (py "A2"); name := Some (py "iPhone 15 保護殼");
     price := Some 390%Z; picS := None |}.

Import MultiPlatformSearch.

Definition offer (shop : string) (title : string) (p : Z) : candidate :=
  {| platform := py shop; name := py title; price := p;
     url := py "https://example.invalid/"; image := [] |}.

Definition timeout : Exception :=
  {| exn_class := py "Timeout"; exn_message := py "read timed out" |}.

(** An agent whose processing raises [t] on every message; an exception
    whose [__str__] raises a [TypeError]; a request to exit. *)
Definition failing_agent (t : thrown) : BaseAgent.agent :=
  {| BaseAgent.agent_name := py "Finance";
     BaseAgent._process_message_internal := fun _ _ => Throws t |}.

Definition str_failure : Exception :=
  {| exn_class := py "TypeError";
     exn_message := py "__str__ returned non-string (type NoneType)" |}.

Definition unprintable : thrown :=
  Unprintable {| exn_class := py "DatabaseError"; exn_message := [] |}
              (Ordinary str_failure).

Definition exit_request : Exception :=
  {| exn_class := py "SystemExit"; exn_message := py "0" |}.

(** MOMO times out; PChome and Shopee answer. *)
Definition sample_workers : workers :=
  fun f =>
    match f with
    | F_pchome => Returned [offer "PChome 24h" "PS5" 15800; offer "PChome 24h" "PS5 Slim" 14200]
    | F_momo => Raised timeout
    | F_shopee => Returned [offer "Shopee" "PS5" 14900]
    end.

End Samples.

(** ** agents/ai_intent_analyzer.py: a run of calls *)

Module AIIntentAnalyzerRuns.
Import AIIntentAnalyzer.

Section Calls.
Context {L : StrLower}.

(** One call of [analyze_intent] as the analyzer sees it: the reply the
    external classifier gives, the clock, the message and the user. *)
Record call := {
  call_reply : option json;
  call_now : str;
  call_message : str;
  call_user : option str
}.

(** The conversation history after a run of calls on one analyzer, whose
    [api_key] is fixed when it is created. *)
Definition serve (api_key : str) (conversation_history : history)
    (calls : list call) : history :=
  fold_left
    (fun h c =>
       snd (analyze_intent api_key (call_reply c) (call_now c) h
              (call_message c) (call_user c)))
    calls conversation_history.

(** The turn that a call answered by the external classifier records. *)
Definition recorded_turn (c : call) (fields : list (str * json)) : turn :=
  {| timestamp := call_now c; message := call_message c;
     agent := get_default (py "agent") (JStr SmartRecommendation) fields |}.

End Calls.

End AIIntentAnalyzerRuns.

(** ** Text in lines *)

Module PyText.

Definition newline : str := [10%N].

(** ["\n".join(lines)]. *)
Fixpoint join (sep : str) (lines : list str) : str :=
  match lines with
  | [] => []
  | [l] => l
  | l :: more => l ++ sep ++ join sep more
  end.

(** A text constant of the source written line by line. *)
Definition text (lines : list string) : str := join newline (List.map py lines).

End PyText.
Export PyText.

(** ** agents/base_agent.py: formatting and the registry *)

Module BaseAgentRest.
Import BaseAgent.

Definition apology : str := Eval vm_compute in py "抱歉，無法處理您的請求".
Definition truncation_notice : str :=
  Eval vm_compute in py "⚠️ 回應內容過長已截斷".

(** [BaseAgent.format_response]. *)
Definition format_response (response : str) : str :=
  if falsy response then apology
  else
    let response :=
      if (5000 <? List.length response)%nat
      then take 4900 response ++ newline ++ newline ++ truncation_notice
      else response in
    strip response.

(** [AgentRegistry]: [_agents] is a dictionary from names to agents. *)
Definition registry := list (str * agent).

(** [AgentRegistry.__init__]. *)
Definition empty_registry : registry := [].

(** [AgentRegistry.register]. *)
Definition register (agent_name : str) (a : agent) (self : registry) : registry :=
  dict_set agent_name a self.

(** [AgentRegistry.get_agent]. *)
Definition get_agent (agent_name : str) (self : registry) : option agent :=
  dict_get agent_name self.

(** [AgentRegistry.list_agents]. *)
Definition list_agents (self : registry) : list str := keys self.

(** A run of [register] calls, oldest first. *)
Definition register_all (regs : list (str * agent)) (self : registry) : registry :=
  fold_left (fun r '(n, a) => register n a r) regs self.

End BaseAgentRest.

(** ** agents/price_tracker_agent_improved.py: the requests *)

Module PriceTrackerRequests.
Import PChome PriceTrackerAgent.

(** [_get_help_message]. *)
Definition _get_help_message : str :=
  Eval vm_compute in
  text [ "📊 **價格追蹤功能說明**"; "";
         "🔍 **查詢價格**"; "• 查詢 iPhone 15 價格"; "• iPhone 15 多少錢"; "";
         "📌 **追蹤商品**"; "• 追蹤 iPhone 15 Pro 目標價格 35000";
         "• 監控 PS5 目標價格 15000"; "";
         "📋 **查看清單**"; "• 我的追蹤清單"; "• 查看追蹤列表"; "";
         "🗑️ **移除追蹤**"; "• 移除追蹤 iPhone 15"; "• 取消全部追蹤"; "";
         "💡 系統會自動監控價格變化並通知您！" ]%string.

Definition price_keywords : list str :=
  Eval vm_compute in
  List.map py
    [ "價格"; "多少錢"; "比價"; "追蹤"; "監控"; "通知"; "降價";
      "便宜"; "特價"; "折扣"; "優惠"; "目標價"; "低於"; "售價";
      "加入考慮"; "考慮清單"; "考慮"; "想買"; "猶豫";
      "清單"; "列表"; "移除"; "刪除"; "取消"; "查詢"; "查看"; "查價";
      "最低價" ]%string.

Definition remove_words : list str := Eval vm_compute in List.map py ["移除"; "刪除"; "取消"]%string.
Definition list_words : list str := Eval vm_compute in List.map py ["清單"; "列表"]%string.
Definition track_words : list str := Eval vm_compute in List.map py ["追蹤"; "監控"]%string.
Definition query_words : list str :=
  Eval vm_compute in List.map py ["查詢"; "查價"; "價格"; "多少錢"; "最低價"]%string.
Definition s_view : str := Eval vm_compute in py "查看".
Definition s_track : str := Eval vm_compute in py "追蹤".

(** A text whose white space is single blanks: every white-space character
    is U+0020 and is followed by a character that is no white space, or by
    the end of the text. *)
Fixpoint single_spaced (s : str) : bool :=
  match s with
  | [] => true
  | c :: s' =>
      (if is_space c
       then char_eqb c 0x20%N
            && match s' with d :: _ => negb (is_space d) | [] => true end
       else true)
      && single_spaced s'
  end.

(** The methods of the agent that [process_user_request] hands the request
    to; each returns its reply or raises. *)
Record handlers := {
  _handle_remove_tracking : str -> str -> outcome str;
  _handle_list_request : str -> outcome str;
  _handle_track : str -> str -> outcome str;
  _handle_price_query : str -> str -> outcome str
}.

Section Requests.
Context {L : StrLower}.

(** [can_handle]. *)
Definition can_handle (message : str) : bool :=
  let message_lower := str_lower message in
  any_in price_keywords message_lower.

(** [process_user_request]: the branches in the order of the source, under
    [try]; the [except Exception] arm answers with the fixed error text. *)
Definition process_user_request (self : handlers) (user_id message : str)
  : outcome str :=
  try_except
    (let message_lower := str_lower (strip message) in
     if any_in remove_words message_lower
     then _handle_remove_tracking self user_id message
     else if any_in list_words message_lower
             || (str_in s_view message_lower && str_in s_track message_lower)
     then _handle_list_request self user_id
     else if any_in track_words message_lower
     then _handle_track self user_id message
     else if any_in query_words message_lower
     then _handle_price_query self user_id message
     else Returned _get_help_message)
    (fun e => Returned (py "❌ 系統錯誤，請稍後再試")).

(** The agent as [BaseAgent] has it: the name given to [super().__init__],
    and [_process_message_internal], which hands the message to
    [process_user_request]. *)
Definition as_agent (self : handlers) : BaseAgent.agent :=
  {| BaseAgent.agent_name := py "PriceTracker";
     BaseAgent._process_message_internal :=
       fun user_id message => of_outcome (process_user_request self user_id message) |}.

End Requests.

(** [not target_price] for the optional number. *)
Definition no_price (target_price : option float) : bool :=
  match target_price with
  | None => true
  | Some p => float_falsy p
  end.

(** [_handle_track_request]; [_track_product_by_name] is the method that
    searches the shop and writes the tracking entry.  The body is under
    [try]: any exception gives the fixed failure text. *)
Definition _handle_track_request
    (_track_product_by_name : str -> str -> float -> outcome str)
    (user_id message : str) : outcome str :=
  try_except
    (let product_name := _extract_product_name message in
     bind (_extract_target_price message) (fun target_price =>
       match product_name with
       | None | Some [] =>
           Returned (py "❌ 請提供商品名稱" ++ newline ++ newline
                     ++ py "範例：追蹤 iPhone 15 Pro 目標價格 35000")
       | Some product_name =>
           if no_price target_price
           then Returned (py "❌ 請提供目標價格" ++ newline ++ newline
                          ++ py "範例：追蹤 " ++ product_name
                          ++ py " 目標價格 [金額]")
           else _track_product_by_name user_id product_name
                  (default (Num 0) target_price)
       end))
    (fun e => Returned (py "❌ 追蹤失敗")).

(** The price a listing is ranked by: [x.get('price', float('inf'))],
    [None] standing for infinity. *)
Definition price_lt (a b : option Z) : bool :=
  match a, b with
  | Some x, Some y => (x <? y)%Z
  | Some _, None => true
  | None, _ => false
  end.

(** [min(xs, key=key)] for a non-empty [xs]: the first item whose key is
    least; [best] is the candidate so far. *)
Fixpoint min_from {A K} (lt : K -> K -> bool) (key : A -> K) (best : A)
    (xs : list A) : A :=
  match xs with
  | [] => best
  | x :: xs' => min_from lt key (if lt (key x) (key best) then x else best) xs'
  end.

(** [p.get('price')] is true: the key is there and the price is not 0. *)
Definition has_price (p : prod) : bool :=
  match price p with
  | Some z => negb (z =? 0)%Z
  | None => false
  end.

(** What [_search_pchome] returns when it finds a price. *)
Record hit := {
  hit_platform : str;
  min_price : Z;
  hit_url : str;
  product_name : str;
  product_id : str
}.

Section Search.
Context {L : StrLower}.

(** [_search_pchome]; [reply] is the outcome of [requests.get].  The body is
    under [try]: any exception gives [None]. *)
Definition _search_pchome (reply : outcome MultiPlatformSearch.response)
    (query : str) : option hit :=
  let body : outcome (option hit) :=
    bind reply (fun response =>
      if (MultiPlatformSearch.status_code response =? 200)%Z then
        bind (MultiPlatformSearch.prods response) (fun data =>
          let products := default [] data in
          match products with
          | [] => Returned None
          | _ =>
              let filtered := _filter_products products query in
              match filtered with
              | [] => Returned None
              | first :: rest =>
                  let prices :=
                    List.map (fun p => default 0%Z (price p))
                             (List.filter has_price filtered) in
                  match prices with
                  | [] => Returned None
                  | z :: zs =>
                      let min_price := min_from Z.ltb (fun v => v) z zs in
                      let cheapest := min_from price_lt price first rest in
                      Returned (Some
                        {| hit_platform := py "PChome 24h";
                           min_price := min_price;
                           hit_url := py "https://24h.pchome.com.tw/prod/"
                                      ++ default empty_str (Id cheapest);
                           product_name := default empty_str (name cheapest);
                           product_id := default empty_str (Id cheapest) |})
                  end
              end
          end)
      else Returned None) in
  match body with
  | Returned r => r
  | Raised _ => None
  end.

End Search.

End PriceTrackerRequests.

(** ** app.py: suggestions and outgoing texts *)

Module App.

(** The table of [_add_intelligent_suggestions]. *)
Definition suggestions : list (str * list str) :=
  Eval vm_compute in
  [ (py "Finance",
     List.map py ["💡 財務功能："; "• 查看本月支出統計"; "• 設定預算上限";
                  "• 分析消費類別"]%string);
    (py "ProductReview",
     List.map py ["💡 產品評論功能："; "• 顯示正負面評論比例"; "• 整理主要優缺點";
                  "• 比較多平台評價"]%string);
    (py "PriceTracker",
     List.map py ["💡 價格追蹤功能："; "• 設定降價通知"; "• 追蹤歷史價格曲線";
                  "• 顯示跨平台最低價"]%string);
    (py "Gmail",
     List.map py ["💡 Gmail 功能："; "• 同步購物郵件"; "• 自動整理收據";
                  "• 追蹤訂單狀態"]%string) ].

Definition light_bulb : str := Eval vm_compute in py "💡".

(** [_add_intelligent_suggestions]. *)
Definition _add_intelligent_suggestions (agent_name response : str) : str :=
  if str_in light_bulb response then response
  else
    match dict_get agent_name suggestions with
    | Some lines => response ++ newline ++ newline ++ join newline lines
    | None => response
    end.

Definition MAX_LENGTH : nat := 4900.

(** [range(0, n, step)] for a positive [step], as the number of its items. *)
Definition range_count (n step : nat) : nat := (n + step - 1) / step.

(** [[response[i:i+MAX_LENGTH] for i in range(0, len(response), MAX_LENGTH)]] *)
Definition parts (response : str) : list str :=
  List.map (fun k => take MAX_LENGTH (drop (k * MAX_LENGTH) response))
           (seq 0 (range_count (List.length response) MAX_LENGTH)).

(** The end of [handle_message]: the night reminder is appended between
    22:00 and 05:00, and the texts are handed to LINE, the first by
    [reply_message] and the others by [push_message], in this order (each
    call is reached when the calls before it return). *)
Definition outgoing (response : str) (hour : nat) : list str :=
  let response :=
    if ((22 <=? hour) || (hour <? 5))%nat
    then response ++ newline ++ newline ++ py "🌙 夜深了，記得早點休息喔！"
    else response in
  if (MAX_LENGTH <? List.length response)%nat then parts response
  else [response].

End App.

(** ** Reading a shown price *)

Module PriceText.

(** The characters that stay when the thousands separators are taken out of
    a price text, as in [text.replace(',', '')]. *)
Definition not_comma (c : char) : bool := negb (char_eqb c 0x2C%N).

End PriceText.

(** ** Sample requests and replies *)

Module MoreSamples.
Import PChome PriceTrackerRequests Samples.

(** A listing without a price of its own. *)
Definition gift : prod :=
  {| Id := Some (py "G0"); name := Some (py "iPhone 15 贈品券");
     price := Some 0%Z; picS := None |}.

(** The shop answers with status 200 and the listings. *)
Definition shop_reply (products : list prod)
  : outcome MultiPlatformSearch.response :=
  Returned {| MultiPlatformSearch.status_code := 200;
              MultiPlatformSearch.prods := Returned (Some products) |}.

Definition phone_hit : hit :=
  {| hit_platform := py "PChome 24h"; min_price := 27900;
     hit_url := py "https://24h.pchome.com.tw/prod/A1";
     product_name := py "iPhone 15 128G"; product_id := py "A1" |}.

Definition gift_hit : hit :=
  {| hit_platform := py "PChome 24h"; min_price := 27900;
     hit_url := py "https://24h.pchome.com.tw/prod/G0";
     product_name := py "iPhone 15 贈品券"; product_id := py "G0" |}.

Definition track_message : str := py "追蹤 iPhone 15 Pro 目標價格 35000".

End MoreSamples.

(* ===================================================================== *)
(** * Part II: the proofs                                                 *)
(* ===================================================================== *)

(** ** Facts on strings *)

Module PyStrFacts.

Lemma lstrip_nil_iff (s : str) : lstrip s = [] <-> forallb is_space s = true.
Proof.
  induction s as [|c s IH]; simpl; [tauto|].
  destruct (is_space c); simpl; [exact IH|].
  split; discriminate.
Qed.

Lemma lstrip_head (s : str) (c : char) (t : str) :
  lstrip s = c :: t -> is_space c = false.
Proof.
  induction s as [|d s IH]; simpl; [discriminate|].
  destruct (is_space d) eqn:Hd; [exact IH|].
  intros H; injection H as -> _. exact Hd.
Qed.

Lemma forallb_rev {A} (f : A -> bool) (l : list A) :
  forallb f (rev l) = forallb f l.
Proof.
  induction l as [|x l IH]; simpl; [reflexivity|].
  rewrite forallb_app, IH. simpl. rewrite andb_true_r. apply andb_comm.
Qed.

(** [strip] leaves nothing exactly when every character is white space. *)
Lemma strip_nil_iff (s : str) : strip s = [] <-> forallb is_space s = true.
Proof.
  unfold strip, rstrip. split.
  - intros H.
    assert (Hr : lstrip (rev (lstrip s)) = []).
    { destruct (lstrip (rev (lstrip s))) as [|x l] eqn:E; [reflexivity|].
      simpl in H. destruct (rev l); discriminate. }
    apply lstrip_nil_iff in Hr. rewrite forallb_rev in Hr.
    destruct (lstrip s) as [|c t] eqn:E.
    + apply lstrip_nil_iff. exact E.
    + apply lstrip_head in E. simpl in Hr. rewrite E in Hr. discriminate.
  - intros H. apply lstrip_nil_iff in H. rewrite H. reflexivity.
Qed.

End PyStrFacts.

(** ** Facts on floats *)

Module FloatFacts.

Lemma float_geb_ge (x : float) (a : N) : float_geb x a = true <-> float_ge x a.
Proof. destruct x; cbn; [apply N.leb_le | tauto]. Qed.

Lemma float_geb_lt (x : float) (a : N) : float_geb x a = false <-> float_lt x a.
Proof.
  destruct x; cbn; [apply N.leb_gt | split; [discriminate | tauto]].
Qed.

(** A number of at most 53 bits is a float. *)
Lemma float_of_small (n : N) : (n < 2 ^ 53)%N -> float_of_N n = Num n.
Proof.
  intros H. unfold float_of_N.
  destruct (N.ltb_spec n (2 ^ 53)) as [_|Hb]; [reflexivity|].
  exfalso. apply N.lt_nge in H. exact (H Hb).
Qed.

Lemma float_of_exact (n : N) : (n <= 2 ^ 53)%N -> float_of_N n = Num n.
Proof.
  intros H. apply N.lt_eq_cases in H as [H | ->].
  - apply float_of_small, H.
  - vm_compute. reflexivity.
Qed.

(** Rounding does not take a number of more than 53 bits below 2^52. *)
Lemma float_of_large (n : N) :
  (2 ^ 53 <= n)%N -> float_ge (float_of_N n) (2 ^ 52).
Proof.
  intros Hb. unfold float_of_N.
  destruct (N.ltb_spec n (2 ^ 53)) as [Hs|_];
    [exfalso; apply N.lt_nge in Hs; exact (Hs Hb)|].
  cbv zeta.
  set (e := (N.log2 n - 52)%N).
  set (q := (n / 2 ^ e)%N).
  match goal with
  | |- context [if ?c then (q + 1)%N else q] =>
      set (q' := if c then (q + 1)%N else q)
  end.
  destruct (q' * 2 ^ e <? 2 ^ 1024)%N; [|exact I].
  cbn [float_ge].
  assert (HL : (53 <= N.log2 n)%N).
  { rewrite <- (N.log2_pow2 53) by discriminate.
    apply N.log2_le_mono. exact Hb. }
  assert (Hpos : (0 < n)%N).
  { eapply N.lt_le_trans; [|exact Hb]. reflexivity. }
  assert (Hq : (2 ^ 52 <= q)%N).
  { unfold q.
    replace (2 ^ 52)%N with ((2 ^ 52 * 2 ^ e) / 2 ^ e)%N
      by (apply N.div_mul, N.pow_nonzero; discriminate).
    apply N.Div0.div_le_mono.
    rewrite <- N.pow_add_r.
    replace (52 + e)%N with (N.log2 n) by (unfold e; lia).
    apply N.log2_spec, Hpos. }
  assert (Hq' : (q <= q')%N).
  { unfold q'.
    match goal with |- context [if ?c then _ else _] => destruct c end;
      [lia | apply N.le_refl]. }
  assert (He : (1 <= 2 ^ e)%N).
  { pose proof (N.pow_nonzero 2 e ltac:(discriminate)) as Hnz.
    set (p := (2 ^ e)%N) in *. clearbody p. lia. }
  etransitivity; [exact Hq|]. etransitivity; [exact Hq'|].
  rewrite <- (N.mul_1_r q') at 1. apply N.mul_le_mono_l, He.
Qed.

(** The test [price >= 100] on the float is the test on the number. *)
Lemma float_of_N_ge (n : N) : float_ge (float_of_N n) 100 <-> (100 <= n)%N.
Proof.
  destruct (N.lt_ge_cases n (2 ^ 53)) as [Hs|Hb].
  - rewrite (float_of_small n Hs). reflexivity.
  - split; intros _.
    + etransitivity; [|exact Hb]. discriminate.
    + pose proof (float_of_large n Hb) as H.
      destruct (float_of_N n) as [v|]; [|exact I]. cbn [float_ge] in *.
      etransitivity; [|exact H]. discriminate.
Qed.

Lemma float_of_N_lt (n : N) : float_lt (float_of_N n) 100 <-> (n < 100)%N.
Proof.
  rewrite <- float_geb_lt, N.lt_nge, <- float_of_N_ge, <- float_geb_ge.
  destruct (float_geb (float_of_N n) 100); split; congruence.
Qed.

End FloatFacts.

(** ** agents/base_agent.py *)

Module BaseAgentProofs.
Import BaseAgent PyStrFacts Samples.

(** C10.  [validate_input] accepts a message exactly when it is not empty,
    not made of white space only, and at most 1000 characters long; it
    rejects every other message. *)
Theorem validate_input_spec (message : str) :
  validate_input message = true <->
  (message <> [] /\ forallb is_space message = false
   /\ (List.length message <= 1000)%nat).
Proof.
  unfold validate_input.
  destruct message as [|c m]; simpl falsy.
  - simpl. split; [discriminate | intros [H _]; congruence].
  - simpl orb.
    destruct (strip (c :: m)) as [|x t] eqn:Hs; simpl falsy; cbv iota.
    + apply strip_nil_iff in Hs. rewrite Hs.
      split; [discriminate | intros (_ & H & _); discriminate].
    + assert (Hall : forallb is_space (c :: m) = false).
      { destruct (forallb is_space (c :: m)) eqn:E; [|reflexivity].
        apply strip_nil_iff in E. congruence. }
      rewrite Hall.
      destruct (Nat.ltb_spec 1000 (List.length (c :: m))) as [Hlt|Hle].
      * split; [discriminate | intros (_ & _ & H); lia].
      * split; [intros _; repeat split; [discriminate | exact Hle] | reflexivity].
Qed.

(** C7 (amended).  [process_message] hands on what the agent's own
    processing returns.  When that processing raises an instance of
    [Exception] that prints as its message, the reply is the fixed
    "temporarily unavailable" text carrying the agent's name, and the
    exception goes no further.  An exception whose printing raises, and one
    that is no instance of [Exception], leave [process_message]: these are
    the only ways in which it does not return a reply. *)
Theorem process_message_isolates (self : agent) (user_id message : str) :
  let hook := _process_message_internal self user_id message in
  (forall result, hook = Normal result ->
     process_message self user_id message = Normal result)
  /\ (forall e, hook = Throws (Ordinary e) ->
       process_message self user_id message
       = Normal (py "❌ " ++ agent_name self ++ py " 暫時無法使用，請稍後再試"))
  /\ (forall e inner, hook = Throws (Unprintable e inner) ->
       process_message self user_id message = Throws inner)
  /\ (forall e, hook = Throws (BaseOnly e) ->
       process_message self user_id message = Throws (BaseOnly e))
  /\ ((exists reply, process_message self user_id message = Normal reply)
      <-> (exists result, hook = Normal result)
          \/ (exists e, hook = Throws (Ordinary e))).
Proof.
  cbv zeta. unfold process_message.
  destruct (_process_message_internal self user_id message) as [r|[e|e inner|e]];
    cbn [is_Exception str_of].
  - split; [intros ? [= ->]; reflexivity|].
    split; [discriminate|]. split; [discriminate|]. split; [discriminate|].
    split; [intros _; left; exists r; reflexivity | intros _; exists r; reflexivity].
  - split; [discriminate|].
    split; [intros ? _; reflexivity|]. split; [discriminate|].
    split; [discriminate|].
    split; [intros _; right; exists e; reflexivity | intros _; eexists; reflexivity].
  - split; [discriminate|]. split; [discriminate|].
    split; [intros ? ? [= _ ->]; reflexivity|]. split; [discriminate|].
    split; [intros [reply H]; discriminate H|].
    intros [[result H] | [e' H]]; discriminate H.
  - split; [discriminate|]. split; [discriminate|]. split; [discriminate|].
    split; [intros ? [= ->]; reflexivity|].
    split; [intros [reply H]; discriminate H|].
    intros [[result H] | [e' H]]; discriminate H.
Qed.

(** C7 as stated fails: an exception whose [__str__] raises is caught, but
    building the log message prints it and what that raises leaves
    [process_message]; an exit request is no [Exception] and is not
    caught. *)
Lemma process_message_propagates :
  let user_id := py "U1" in
  let message := py "本月支出" in
  _process_message_internal (failing_agent unprintable) user_id message
  = Throws unprintable
  /\ process_message (failing_agent unprintable) user_id message
     = Throws (Ordinary str_failure)
  /\ _process_message_internal (failing_agent (BaseOnly exit_request)) user_id message
     = Throws (BaseOnly exit_request)
  /\ process_message (failing_agent (BaseOnly exit_request)) user_id message
     = Throws (BaseOnly exit_request)
  /\ ~ (exists reply,
         process_message (failing_agent unprintable) user_id message
         = Normal reply).
Proof.
  cbv zeta. repeat split; try reflexivity.
  intros [reply H]. discriminate H.
Qed.

End BaseAgentProofs.

(** ** agents/ai_intent_analyzer.py *)

Module AIIntentAnalyzerProofs.
Import AIIntentAnalyzer.

Lemma str_eqb_eq (a b : str) : str_eqb a b = true <-> a = b.
Proof.
  revert b; induction a as [|x a IH]; intros [|y b]; simpl;
    try (split; [discriminate | congruence]); [tauto|].
  unfold char_eqb. rewrite andb_true_iff, N.eqb_eq, IH.
  split; [intros [-> ->]; reflexivity | intros [= -> ->]; auto].
Qed.

Lemma str_eqb_refl (a : str) : str_eqb a a = true.
Proof. apply str_eqb_eq. reflexivity. Qed.

(** *** The conversation history *)

Lemma length_last_n {A} (n : nat) (l : list A) :
  List.length (last_n n l) = Nat.min n (List.length l).
Proof. unfold last_n. rewrite length_drop. lia. Qed.

Lemma last_n_short {A} (n : nat) (l : list A) :
  (List.length l <= n)%nat -> last_n n l = l.
Proof.
  intros H. unfold last_n.
  replace (List.length l - n)%nat with 0%nat by lia. reflexivity.
Qed.

(** Keeping the last [n] after every append is keeping the last [n] once. *)
Lemma last_n_snoc {A} (n : nat) (l : list A) (x : A) :
  (0 < n)%nat -> last_n n (last_n n l ++ [x]) = last_n n (l ++ [x]).
Proof.
  intros Hn. destruct (Nat.le_gt_cases (List.length l) n) as [Hle|Hgt].
  - rewrite (last_n_short n l Hle). reflexivity.
  - unfold last_n at 1 3.
    rewrite !length_app, length_last_n. simpl.
    replace (Nat.min n (List.length l) + 1 - n)%nat with 1%nat by lia.
    replace (List.length l + 1 - n)%nat with (S (List.length l - n)) by lia.
    unfold last_n.
    rewrite (drop_app_le l [x] (S (List.length l - n))) by lia.
    destruct (drop (List.length l - n) l) as [|y t] eqn:E.
    + apply (f_equal (@List.length A)) in E. rewrite length_drop in E.
      simpl in E. lia.
    + simpl. rewrite drop_0. f_equal.
      change t with (drop 1 (y :: t)). rewrite <- E, drop_drop.
      f_equal. lia.
Qed.

(** What one call does to the history of each user. *)
Lemma update_same (h : history) (now : str) (u message : str) (a : json) :
  u <> [] ->
  _get_user_context (_update_conversation_history h now (Some u) message a) (Some u)
  = last_n 10 (_get_user_context h (Some u)
               ++ [{| timestamp := now; message := message; agent := a |}]).
Proof.
  intros Hu. destruct u as [|c u]; [congruence|].
  unfold _update_conversation_history, _get_user_context. simpl truthy_id.
  cbv beta iota zeta.
  match goal with
  | |- context [@lookup ?K ?V ?M ?I ?k h] => set (o := @lookup K V M I k h)
  end.
  set (h0 := match o with Some x => x | None => [] end).
  set (t := {| timestamp := now; message := message; agent := a |}).
  destruct (Nat.ltb_spec 10 (List.length (h0 ++ [t]))) as [Hlt|Hle].
  - rewrite lookup_insert_eq. reflexivity.
  - rewrite lookup_insert_eq. rewrite last_n_short by exact Hle. reflexivity.
Qed.

Lemma update_other (h : history) (now : str) (user_id : option str)
    (message : str) (a : json) (v : option str) :
  truthy_id v <> truthy_id user_id ->
  _get_user_context (_update_conversation_history h now user_id message a) v
  = _get_user_context h v.
Proof.
  intros Hne. unfold _update_conversation_history, _get_user_context.
  destruct (truthy_id user_id) as [u|] eqn:Eu; [|reflexivity].
  destruct (truthy_id v) as [w|] eqn:Ev; [|reflexivity].
  assert (u <> w) by congruence.
  destruct (10 <? _)%nat; rewrite lookup_insert_ne by assumption; reflexivity.
Qed.

Lemma update_falsy (h : history) (now : str) (user_id : option str)
    (message : str) (a : json) :
  truthy_id user_id = None ->
  _update_conversation_history h now user_id message a = h.
Proof. intros H. unfold _update_conversation_history. rewrite H. reflexivity. Qed.

Lemma record_snoc (h : history) (calls : list (option str * turn))
    (c : option str * turn) :
  record h (calls ++ [c])
  = _update_conversation_history (record h calls) (timestamp (snd c)) (fst c)
      (message (snd c)) (agent (snd c)).
Proof. unfold record. rewrite fold_left_app. destruct c as [v t]. reflexivity. Qed.

Lemma turns_of_snoc (u : str) (calls : list (option str * turn))
    (c : option str * turn) :
  turns_of u (calls ++ [c])
  = turns_of u calls
    ++ (if match fst c with Some v => str_eqb v u | None => false end
        then [snd c] else []).
Proof.
  unfold turns_of. rewrite List.filter_app, List.map_app. simpl.
  destruct (match fst c with Some v => str_eqb v u | None => false end);
    reflexivity.
Qed.

(** The stored history of a user is the last ten of the turns recorded for
    that user, whatever other calls come in between. *)
Lemma record_last_ten (u : str) (calls : list (option str * turn)) :
  u <> [] ->
  _get_user_context (record ∅ calls) (Some u) = last_n 10 (turns_of u calls).
Proof.
  intros Hu. induction calls as [|c calls IH] using rev_ind.
  - unfold _get_user_context. destruct u; [congruence|]. simpl.
    rewrite lookup_empty. reflexivity.
  - rewrite record_snoc, turns_of_snoc.
    destruct c as [[v|] [now m a]]; simpl fst; simpl snd.
    + destruct (str_eqb v u) eqn:E.
      * apply str_eqb_eq in E. subst v.
        rewrite update_same by exact Hu. rewrite IH. apply last_n_snoc. lia.
      * rewrite app_nil_r, update_other; [exact IH|].
        destruct u as [|c0 u]; [congruence|]. simpl.
        destruct v as [|d v]; simpl; [discriminate|].
        intros [= -> ->]. rewrite str_eqb_refl in E. discriminate.
    + rewrite app_nil_r, update_falsy by reflexivity. exact IH.
Qed.

(** C8.  After any run of recorded turns, the stored history of a user is
    the last ten of that user's turns in the order they were recorded; after
    fifteen turns these are the turns 6 to 15, the oldest five being gone;
    and no stored history is ever longer than ten. *)
Theorem history_keeps_last_ten (u : str) (calls : list (option str * turn)) :
  u <> [] ->
  let h := record ∅ calls in
  _get_user_context h (Some u) = last_n 10 (turns_of u calls)
  /\ (List.length (turns_of u calls) = 15%nat ->
      _get_user_context h (Some u) = drop 5 (turns_of u calls))
  /\ (forall v, (List.length (_get_user_context h v) <= 10)%nat).
Proof.
  intros Hu h. split; [|split].
  - apply record_last_ten, Hu.
  - intros H15. unfold h. rewrite record_last_ten by exact Hu.
    unfold last_n. rewrite H15. reflexivity.
  - intros v. destruct (truthy_id v) as [w|] eqn:E.
    + assert (w <> [] /\ v = Some w) as [Hw ->].
      { destruct v as [[|c v]|]; simpl in E; try discriminate.
        injection E as <-. split; [discriminate | reflexivity]. }
      unfold h. rewrite record_last_ten by exact Hw.
      rewrite length_last_n. lia.
    + unfold _get_user_context. rewrite E. simpl. lia.
Qed.

(** *** The rule-based fallback *)

Lemma Qlt_bool_iff (a b : Q) : Qlt_bool a b = true <-> Qlt a b.
Proof.
  unfold Qlt_bool. rewrite negb_true_iff. split.
  - intros H. apply Qnot_le_lt. intros Hle.
    apply Qle_bool_iff in Hle. congruence.
  - intros H. destruct (Qle_bool b a) eqn:E; [|reflexivity].
    apply Qle_bool_iff in E. exfalso. exact (Qlt_not_le _ _ H E).
Qed.

Lemma Qlt_bool_false (a b : Q) : Qlt_bool a b = false -> Qle b a.
Proof.
  unfold Qlt_bool. rewrite negb_false_iff. apply Qle_bool_iff.
Qed.

(** [max] returns the first of the items whose key is greatest: every item
    before it has a smaller key, no item after it has a greater one. *)
Lemma max_from_first {A} (key : A -> Q) (xs : list A) (b : A) :
  exists before after,
    b :: xs = before ++ max_from key b xs :: after
    /\ Forall (fun x => Qlt (key x) (key (max_from key b xs))) before
    /\ Forall (fun x => Qle (key x) (key (max_from key b xs))) after.
Proof.
  revert b. induction xs as [|x xs IH]; intros b; simpl.
  - exists [], []. repeat split; constructor.
  - destruct (Qlt_bool (key b) (key x)) eqn:E.
    + apply Qlt_bool_iff in E.
      destruct (IH x) as (before & after & Heq & Hb & Ha).
      set (m := max_from key x xs) in *.
      exists (b :: before), after. split; [simpl; f_equal; exact Heq|].
      split; [|exact Ha]. constructor; [|exact Hb].
      destruct before as [|y before]; simpl in Heq.
      * injection Heq as Hx _. rewrite <- Hx. exact E.
      * injection Heq as Hx _. subst y.
        apply Forall_cons_1 in Hb as [Hx _].
        eapply Qlt_trans; eassumption.
    + apply Qlt_bool_false in E.
      destruct (IH b) as (before & after & Heq & Hb & Ha).
      set (m := max_from key b xs) in *.
      destruct before as [|y before]; simpl in Heq.
      * injection Heq as Hm Hxs.
        exists [], (x :: after). split; [simpl; rewrite <- Hm, Hxs; reflexivity|].
        split; [constructor|]. constructor; [rewrite <- Hm; exact E | exact Ha].
      * injection Heq as Hy Hxs. subst y.
        apply Forall_cons_1 in Hb as [Hbm Hb].
        exists (b :: x :: before), after.
        split; [simpl; rewrite Hxs; reflexivity|].
        split; [|exact Ha].
        constructor; [exact Hbm|]. constructor; [|exact Hb].
        eapply Qle_lt_trans; eassumption.
Qed.

Section Fallback.
Context {L : StrLower}.

Lemma add_if_nonneg (cond : bool) (w score : Q) :
  Qle 0 w -> Qle 0 score -> Qle 0 (add_if cond w score).
Proof.
  intros Hw Hs. unfold add_if. destruct cond; [|exact Hs].
  replace 0%Q with (0 + 0)%Q by reflexivity. apply Qplus_le_compat; assumption.
Qed.

(** The dictionary of scores, key by key in the order of the source. *)
Lemma scores_eq (message : str) :
  scores message =
  [ (SmartRecommendation, recommendation_score message);
    (PriceTracker, price_score message);
    (ProductReview, review_score message);
    (Finance, finance_score message);
    (Gmail, gmail_score message) ].
Proof. reflexivity. Qed.

Lemma keys_scores (message : str) :
  keys (scores message)
  = [SmartRecommendation; PriceTracker; ProductReview; Finance; Gmail].
Proof. reflexivity. Qed.

Lemma scores_nonneg (message : str) :
  Forall (fun v => Qle 0 v) (values (scores message)).
Proof.
  rewrite scores_eq. unfold values. simpl.
  unfold recommendation_score, price_score, review_score, finance_score,
    gmail_score.
  repeat constructor; repeat apply add_if_nonneg; discriminate.
Qed.

Lemma max_from_in {A} (key : A -> Q) (xs : list A) (b : A) :
  In (max_from key b xs) (b :: xs).
Proof.
  destruct (max_from_first key xs b) as (before & after & Heq & _).
  rewrite Heq. apply in_or_app. right. left. reflexivity.
Qed.

Lemma max_from_upper {A} (key : A -> Q) (xs : list A) (b x : A) :
  In x (b :: xs) -> Qle (key x) (key (max_from key b xs)).
Proof.
  destruct (max_from_first key xs b) as (before & after & Heq & Hb & Ha).
  rewrite Heq. intros Hin. apply in_app_or in Hin.
  rewrite List.Forall_forall in Hb, Ha.
  destruct Hin as [Hin | [<- | Hin]].
  - apply Qlt_le_weak, Hb, Hin.
  - apply Qle_refl.
  - apply Ha, Hin.
Qed.

(** The two branches of [_advanced_fallback_analysis]; it never raises. *)
Lemma fallback_unfold (message : str) (context : list turn) :
  exists analysis,
    _advanced_fallback_analysis message context =
    Returned
      (if Qeq_bool (top_score message) 0
       then (SmartRecommendation, 0.3%Q)
       else (first_best message,
             py_min (score_of (scores message) (first_best message)) 0.9),
       analysis).
Proof.
  unfold _advanced_fallback_analysis. cbv zeta.
  change (py_max (fun v => v) (values (scores message)))
    with (Some (top_score message)).
  change (py_max (score_of (scores message)) (keys (scores message)))
    with (Some (first_best message)).
  cbn [bind].
  destruct (Qeq_bool (top_score message) 0); cbn [bind];
    eexists; reflexivity.
Qed.

Lemma top_score_zero_iff (message : str) :
  Qeq (top_score message) 0
  <-> Forall (fun v => Qeq v 0) (values (scores message)).
Proof.
  pose proof (scores_nonneg message) as Hnn.
  rewrite scores_eq in *. unfold values in *. cbn [List.map snd] in *.
  split.
  - intros Htop. rewrite List.Forall_forall in *. intros v Hv.
    apply Qle_antisym; [|apply Hnn, Hv].
    rewrite <- Htop.
    exact (max_from_upper (fun v => v) _ _ v Hv).
  - intros Hall. rewrite List.Forall_forall in Hall. apply Hall.
    apply (max_from_in (fun v => v)).
Qed.

(** C1.  When every handler's keyword score is 0, the fallback classifier
    answers SmartRecommendation with confidence 0.3, and so does
    [analyze_intent] whenever it runs the fallback (here: no API key). *)
Theorem fallback_default (message : str) (context : list turn) :
  Forall (fun v => Qeq v 0) (values (scores message)) ->
  exists analysis,
    _advanced_fallback_analysis message context
    = Returned (SmartRecommendation, 0.3%Q, analysis)
    /\ forall reply now h user_id,
         fst (analyze_intent [] reply now h message user_id)
         = Returned (JStr SmartRecommendation, JNum 0.3, analysis).
Proof.
  intros Hall. apply top_score_zero_iff in Hall. apply Qeq_bool_iff in Hall.
  destruct (fallback_unfold message context) as (analysis & Hf).
  rewrite Hall in Hf. exists analysis. split; [exact Hf|].
  intros reply now h user_id. unfold analyze_intent. cbn [BaseAgent.falsy fst].
  destruct (fallback_unfold message
              match truthy_id user_id with
              | Some _ => _get_user_context h user_id
              | None => []
              end) as (analysis' & Hf').
  unfold _advanced_fallback_analysis in Hf, Hf'. rewrite Hall in Hf'.
  unfold _advanced_fallback_analysis. rewrite Hf. reflexivity.
Qed.

(** C9.  The fallback classifier is a function of the message alone: two
    runs on the same message give the same scores and the same answer,
    whatever the context, the stored history, the clock or the user; it
    always returns; and when some score is not 0 the winner is the first
    handler, in the order the scores are filed, whose score is greatest. *)
Theorem fallback_deterministic_first_wins (message : str) (context : list turn) :
  (forall message' context',
     message' = message ->
     scores message' = scores message
     /\ _advanced_fallback_analysis message' context'
        = _advanced_fallback_analysis message context)
  /\ (forall reply reply' now now' h h' user_id user_id',
        fst (analyze_intent [] reply now h message user_id)
        = fst (analyze_intent [] reply' now' h' message user_id'))
  /\ exists best confidence analysis,
       _advanced_fallback_analysis message context
       = Returned (best, confidence, analysis)
       /\ (Exists (fun v => ~ Qeq v 0) (values (scores message)) ->
           exists before after,
             [SmartRecommendation; PriceTracker; ProductReview; Finance; Gmail]
             = before ++ best :: after
             /\ Forall (fun k => Qlt (score_of (scores message) k)
                                     (score_of (scores message) best)) before
             /\ Forall (fun k => Qle (score_of (scores message) k)
                                     (score_of (scores message) best)) after).
Proof.
  split; [|split].
  - intros message' context' ->. split; reflexivity.
  - intros. reflexivity.
  - destruct (fallback_unfold message context) as (analysis & Hf).
    destruct (Qeq_bool (top_score message) 0) eqn:Etop.
    + exists SmartRecommendation, 0.3%Q, analysis. split; [exact Hf|].
      intros Hex. exfalso.
      apply Qeq_bool_iff, top_score_zero_iff in Etop.
      apply List.Exists_exists in Hex as (v & Hv & Hnz).
      rewrite List.Forall_forall in Etop. exact (Hnz (Etop v Hv)).
    + eexists _, _, analysis. split; [exact Hf|]. intros _.
      exact (max_from_first (score_of (scores message))
               [PriceTracker; ProductReview; Finance; Gmail] SmartRecommendation).
Qed.

(** *** Recording the turn *)

(** On the path of the external classifier the turn is recorded. *)
Lemma external_path_records (api_key : str) (fields : list (str * json))
    (now : str) (h : history) (message u : str) :
  api_key <> [] -> fields <> [] -> u <> [] ->
  _get_user_context
    (snd (analyze_intent api_key (Some (JObj fields)) now h message (Some u)))
    (Some u)
  = last_n 10
      (_get_user_context h (Some u)
       ++ [{| timestamp := now; message := message;
              agent := get_default (py "agent") (JStr SmartRecommendation) fields |}]).
Proof.
  intros Hk Hf Hu. unfold analyze_intent.
  destruct api_key as [|k ks]; [congruence|]. cbn [BaseAgent.falsy].
  destruct fields as [|f fs]; [congruence|]. cbn [truthy].
  destruct u as [|c u]; [congruence|]. cbn [truthy_id snd].
  apply update_same. discriminate.
Qed.

(** C2 (what the code does).  A call that takes the rule-based fallback,
    because no API key is set or because the external classifier gave no
    reply, leaves the conversation history as it was: no turn is recorded
    for the message. *)
Theorem fallback_path_records_no_turn (api_key : str) (reply : option json)
    (now : str) (h : history) (message : str) (user_id : option str) :
  snd (analyze_intent [] reply now h message user_id) = h
  /\ snd (analyze_intent api_key None now h message user_id) = h
  /\ _get_user_context (snd (analyze_intent [] reply now ∅ message user_id))
       user_id = [].
Proof.
  split; [|split].
  - reflexivity.
  - unfold analyze_intent. destruct (BaseAgent.falsy api_key); reflexivity.
  - unfold analyze_intent. cbn [BaseAgent.falsy snd].
    unfold _get_user_context. destruct (truthy_id user_id); [|reflexivity].
    rewrite lookup_empty. reflexivity.
Qed.

End Fallback.

End AIIntentAnalyzerProofs.

(** ** agents/multi_platform_search.py *)

Module MultiPlatformSearchProofs.
Import MultiPlatformSearch.

(** *** The sort by price *)







(** *** Collecting the futures *)


(** The orders in which three futures can complete. *)
Lemma completion_orders (completed : list future) :
  Permutation completed all_futures ->
  In completed
    [ [F_pchome; F_momo; F_shopee]; [F_pchome; F_shopee; F_momo];
      [F_momo; F_pchome; F_shopee]; [F_momo; F_shopee; F_pchome];
      [F_shopee; F_pchome; F_momo]; [F_shopee; F_momo; F_pchome] ].
Proof.
  intros Hp.
  assert (Hnd : List.NoDup completed).
  { eapply Permutation_NoDup; [symmetry; exact Hp|].
    unfold all_futures. repeat constructor; simpl; intuition discriminate. }
  pose proof (Permutation_length Hp) as Hlen.
  destruct completed as [|a [|b [|c [|d l]]]]; try discriminate Hlen.
  apply List.NoDup_cons_iff in Hnd as [Ha Hnd].
  apply List.NoDup_cons_iff in Hnd as [Hb _].
  simpl in Ha, Hb.
  destruct a, b, c; simpl; try tauto; exfalso; tauto.
Qed.





(** The module as it stands: its PChome worker turns a failed request into
    an empty list and a record on its log, so no worker raises at all and
    the dictionary holds what PChome found. *)
Lemma search_pchome_failure (e : Exception) (keyword : str) (limit : nat) :
  search_pchome (Raised e) keyword limit
  = ([], [(ERROR, py "PChome 搜尋失敗: " ++ exn_message e)]).
Proof. reflexivity. Qed.

Lemma module_workers_return (reply : outcome response) (keyword : str)
    (limit : nat) (f : future) :
  exists r, module_workers reply keyword limit f = Returned r.
Proof. destruct f; eexists; reflexivity. Qed.

End MultiPlatformSearchProofs.

(** ** agents/price_tracker_agent_improved.py: the accessory filter *)

Module FilterProofs.
Import PChome PriceTrackerAgent.

Section Filter.
Context {L : StrLower}.

Lemma filter_nil_iff {A} (f : A -> bool) (l : list A) :
  List.filter (fun x => negb (f x)) l = [] <-> forallb f l = true.
Proof.
  induction l as [|x l IH]; simpl; [tauto|].
  destruct (f x); simpl; [exact IH | split; discriminate].
Qed.

Lemma take_nonempty {A} (n : nat) (l : list A) :
  l <> [] -> take (S n) l <> [].
Proof. destruct l; [congruence | discriminate]. Qed.

Lemma Forall_take {A} (P : A -> Prop) (n : nat) (l : list A) :
  Forall P l -> Forall P (take n l).
Proof.
  revert n; induction l as [|x l IH]; intros [|n] H; simpl;
    try constructor.
  - exact (Forall_inv H).
  - apply IH. exact (Forall_inv_tail H).
Qed.

Lemma is_accessory_false (p : prod) :
  is_accessory p = false ->
  Forall (fun ex => str_in ex (str_lower (default empty_str (name p))) = false)
         exclude_keywords.
Proof.
  unfold is_accessory, any_in. intros H.
  apply List.Forall_forall. intros ex Hex.
  destruct (str_in ex _) eqn:E; [|reflexivity].
  assert (existsb (fun w => str_in w (str_lower (default empty_str (name p))))
                  exclude_keywords = true)
    by (apply existsb_exists; eauto).
  congruence.
Qed.

(** C5.  For a non-empty list of candidates: when the exclusion filter
    would drop every one of them, the result is the first ten candidates
    as they came, not the empty list; otherwise it is the first ten of the
    candidates that pass the filter, none of which has an exclusion keyword
    in its (lower-cased) name. *)
Theorem filter_products_safety (products : list prod) (query : str) :
  products <> [] ->
  _filter_products products query <> []
  /\ (forallb is_accessory products = true ->
      _filter_products products query = take 10 products)
  /\ (forallb is_accessory products = false ->
      _filter_products products query
      = take 10 (List.filter (fun p => negb (is_accessory p)) products)
      /\ Forall (fun p =>
                   Forall (fun ex =>
                             str_in ex (str_lower (default empty_str (name p)))
                             = false) exclude_keywords)
                (_filter_products products query)).
Proof.
  intros Hne. unfold _filter_products.
  destruct (List.filter (fun p => negb (is_accessory p)) products)
    as [|p0 kept] eqn:Ef.
  - assert (Hall : forallb is_accessory products = true)
      by (apply filter_nil_iff, Ef).
    split; [apply take_nonempty, Hne|]. split; [reflexivity|].
    intros H. congruence.
  - assert (Hall : forallb is_accessory products = false).
    { destruct (forallb is_accessory products) eqn:E; [|reflexivity].
      apply filter_nil_iff in E. congruence. }
    split; [discriminate|]. split; [intros H; congruence|].
    intros _. split; [reflexivity|].
    apply Forall_take. rewrite <- Ef. apply List.Forall_forall.
    intros p Hp. apply List.filter_In in Hp as [_ Hp].
    apply is_accessory_false. apply negb_true_iff. exact Hp.
Qed.

End Filter.

End FilterProofs.

(** ** The matcher and the words it accepts *)

Module ReProofs.
Import Re.

Lemma startswith_app (l s : str) :
  startswith l s = true -> s = l ++ drop (List.length l) s.
Proof.
  revert s; induction l as [|x l IH]; intros s H; simpl in *.
  - rewrite drop_0. reflexivity.
  - destruct s as [|y s]; [discriminate|].
    apply andb_true_iff in H as [Hxy Hl]. apply N.eqb_eq in Hxy. subst y.
    simpl. f_equal. apply IH, Hl.
Qed.

Lemma star_sound {R} (p : char -> bool) (s : str) (k : str -> option R) (x : R) :
  star p s k = Some x ->
  exists w s', s = w ++ s' /\ forallb p w = true /\ k s' = Some x.
Proof.
  induction s as [|c s IH]; simpl; intros H.
  - exists [], []. repeat split; auto.
  - destruct (p c) eqn:Hc.
    + destruct (star p s k) as [y|] eqn:Hs.
      * injection H as ->. destruct (IH eq_refl) as (w & s' & -> & Hw & Hk).
        exists (c :: w), s'. simpl. rewrite Hc, Hw. repeat split; auto.
      * exists [], (c :: s). repeat split; auto.
    + exists [], (c :: s). repeat split; auto.
Qed.

(** Whatever the matcher finds is a word of the pattern, at the head of the
    text. *)
Lemma run_sound {R} (r : regex) :
  forall (s : str) (g : option str) (k : str -> option str -> option R) (x : R),
    run r s g k = Some x ->
    exists w s' g', s = w ++ s' /\ matches r w g g' /\ k s' g' = Some x.
Proof.
  induction r as [l | p | r1 IH1 r2 IH2 | r1 IH1 r2 IH2 | r1 IH1 | p | r1 IH1];
    intros s g k x H; simpl in H.
  - destruct (startswith l s) eqn:Hl; [|discriminate].
    exists l, (drop (List.length l) s), g.
    split; [apply startswith_app, Hl|]. split; [constructor | exact H].
  - destruct s as [|c s]; [discriminate|].
    destruct (p c) eqn:Hc; [|discriminate].
    exists [c], s, g. split; [reflexivity|]. split; [constructor; exact Hc | exact H].
  - apply IH1 in H as (w1 & s1 & g1 & -> & M1 & H).
    apply IH2 in H as (w2 & s2 & g2 & -> & M2 & H).
    exists (w1 ++ w2), s2, g2. rewrite app_assoc.
    split; [reflexivity|]. split; [econstructor; eassumption | exact H].
  - destruct (run r1 s g k) as [y|] eqn:E1.
    + injection H as ->. apply IH1 in E1 as (w & s' & g' & -> & M & H).
      exists w, s', g'. split; [reflexivity|]. split; [apply M_AltL, M | exact H].
    + apply IH2 in H as (w & s' & g' & -> & M & H).
      exists w, s', g'. split; [reflexivity|]. split; [apply M_AltR, M | exact H].
  - destruct (run r1 s g k) as [y|] eqn:E1.
    + injection H as ->. apply IH1 in E1 as (w & s' & g' & -> & M & H).
      exists w, s', g'. split; [reflexivity|]. split; [apply M_OptSome, M | exact H].
    + exists [], s, g. split; [reflexivity|]. split; [apply M_OptNone | exact H].
  - apply star_sound in H as (w & s' & -> & Hw & H).
    exists w, s', g. split; [reflexivity|]. split; [constructor; exact Hw | exact H].
  - apply IH1 in H as (w & s' & g' & -> & M & H).
    exists w, s', (Some w). split; [reflexivity|].
    split; [econstructor; exact M|].
    rewrite length_app in H.
    replace (List.length w + List.length s' - List.length s')%nat
      with (List.length w) in H by lia.
    rewrite take_app_length in H. exact H.
Qed.

Lemma match_at_sound (r : regex) (s rest : str) (g : option str) :
  match_at r s = Some (rest, g) ->
  exists w, s = w ++ rest /\ matches r w None g.
Proof.
  unfold match_at. intros H.
  apply run_sound in H as (w & s' & g' & -> & M & H).
  injection H as -> ->. exists w. auto.
Qed.

(** What [re.search] finds is a word of the pattern inside the text. *)
Lemma search_sound (r : regex) (s rest : str) (g : option str) :
  search r s = Some (rest, g) ->
  exists pre w, s = pre ++ w ++ rest /\ matches r w None g.
Proof.
  induction s as [|c s IH]; simpl; intros H.
  - destruct (match_at r []) as [m|] eqn:E; [|discriminate].
    injection H as ->. apply match_at_sound in E as (w & Hw & M).
    exists [], w. auto.
  - destruct (match_at r (c :: s)) as [m|] eqn:E.
    + injection H as ->. apply match_at_sound in E as (w & Hw & M).
      exists [], w. auto.
    + destruct (IH H) as (pre & w & -> & M).
      exists (c :: pre), w. auto.
Qed.

End ReProofs.

(** ** agents/price_tracker_agent_improved.py: the target price *)

Module TargetPriceProofs.
Import FloatFacts.
Import Re ReProofs PriceTrackerAgent.

Ltac inv_matches :=
  repeat match goal with
         | H : matches (Seq _ _) _ _ _ |- _ => inversion H; subst; clear H
         | H : matches (Lit _) _ _ _ |- _ => inversion H; subst; clear H
         | H : matches (Cls _) _ _ _ |- _ => inversion H; subst; clear H
         | H : matches (Star _) _ _ _ |- _ => inversion H; subst; clear H
         | H : matches (Opt _) _ _ _ |- _ => inversion H; subst; clear H
         | H : matches (Group _) _ _ _ |- _ => inversion H; subst; clear H
         end.

Lemma matches_seq_inv (r1 r2 : regex) (w : str) (g g' : option str) :
  matches (Seq r1 r2) w g g' ->
  exists w1 w2 g1, w = w1 ++ w2 /\ matches r1 w1 g g1 /\ matches r2 w2 g1 g'.
Proof. intros H. inversion H; subst. eauto 7. Qed.

(** A pattern without a group leaves group 1 as it was. *)
Lemma matches_no_group (r : regex) (w : str) (g g' : option str) :
  matches r w g g' -> no_group r = true -> g' = g.
Proof.
  induction 1; simpl; intros Hn; try reflexivity;
    try (apply andb_true_iff in Hn as [Hn1 Hn2]); auto; try discriminate.
  rewrite (IHmatches2 Hn2). auto.
Qed.

Lemma matches_plus_group (p : char -> bool) (w : str) (g g' : option str) :
  matches (Group (Plus p)) w g g' ->
  g' = Some w /\ w <> [] /\ forallb p w = true.
Proof.
  unfold Plus. intros H. inv_matches.
  split; [reflexivity|]. split; [discriminate|].
  simpl. rewrite andb_true_iff. auto.
Qed.

(** A word of [pre (\d+)] for a group-free [pre]. *)
Lemma captures_before_group (pre : regex) :
  no_group pre = true -> captures_digits (Seq pre (Group (Plus is_digit))).
Proof.
  intros Hn w g H.
  apply matches_seq_inv in H as (w1 & w2 & g1 & -> & M1 & M2).
  apply matches_plus_group in M2 as (-> & Hne & Hd).
  exists w2, w1, []. rewrite app_nil_r. repeat split; auto.
Qed.

(** Re-associating a sequence does not change its words. *)
Lemma matches_seq_assoc (r1 r2 r3 : regex) (w : str) (g g' : option str) :
  matches (Seq r1 (Seq r2 r3)) w g g' -> matches (Seq (Seq r1 r2) r3) w g g'.
Proof.
  intros H.
  apply matches_seq_inv in H as (w1 & w23 & g1 & -> & M1 & M23).
  apply matches_seq_inv in M23 as (w2 & w3 & g2 & -> & M2 & M3).
  rewrite app_assoc. repeat econstructor; eassumption.
Qed.

Lemma captures_lit_sep_number (l : str) : captures_digits (Seq (Lit l) sep_number).
Proof.
  intros w g H. unfold sep_number in H.
  do 3 apply matches_seq_assoc in H.
  revert H. apply captures_before_group. reflexivity.
Qed.

Lemma patterns_capture_digits : Forall captures_digits patterns.
Proof.
  unfold patterns. repeat constructor; try apply captures_lit_sep_number.
  - intros w g H.
    apply matches_seq_inv in H as (w1 & w2 & g1 & -> & M1 & M2).
    apply matches_no_group in M2 as ->; [|reflexivity].
    unfold AtLeast4 in M1. inv_matches.
    eexists _, [], w2. split; [reflexivity|]. split; [|reflexivity].
    split; [discriminate|].
    simpl. repeat (rewrite andb_true_iff; split; auto).
  - intros w g H. do 2 apply matches_seq_assoc in H.
    revert H. apply captures_before_group. reflexivity.
  - intros w g H. apply matches_seq_assoc in H.
    revert H. apply captures_before_group. reflexivity.
Qed.

Lemma digits_value_total (ds : str) (acc : N) :
  forallb is_digit ds = true -> exists v, digits_value acc ds = Some v.
Proof.
  revert acc; induction ds as [|d ds IH]; intros acc H; simpl in *.
  - eauto.
  - apply andb_true_iff in H as [Hd Hds]. unfold is_digit in Hd.
    destruct (digit_value d); [|discriminate]. apply IH, Hds.
Qed.

(** [float] of a captured run of digits never raises. *)
Lemma float_of_digit_run (ds : str) :
  digit_run ds -> exists v, parse_number ds = Some v
                            /\ float_of_group (Some ds) = Returned (float_of_N v).
Proof.
  intros [Hne Hd]. destruct (digits_value_total ds 0 Hd) as (v & Hv).
  exists v. unfold float_of_group, parse_number.
  destruct ds; [congruence|]. rewrite Hv. auto.
Qed.

(** The loop over the patterns: it returns, what it returns is at least
    100 and is the float of a run of digits of the message, and it returns
    nothing exactly when every pattern either finds nothing or finds a
    number below 100. *)
Lemma first_price_spec (ps : list regex) (message : str) :
  Forall captures_digits ps ->
  exists r,
    first_price ps message = Returned r
    /\ (forall price, r = Some price ->
          float_ge price 100
          /\ exists ds n, numeric_span ds message /\ parse_number ds = Some n
                          /\ price = float_of_N n)
    /\ (r = None <->
        forall pattern rest g price,
          In pattern ps -> search pattern message = Some (rest, g) ->
          float_of_group g = Returned price -> float_lt price 100).
Proof.
  induction 1 as [|pattern ps Hcap Hps IH]; simpl.
  - exists None. split; [reflexivity|]. split; [discriminate|].
    split; [intros _ ? ? ? ? [] | reflexivity].
  - destruct IH as (r0 & Hr0 & Hfloor & Hnone).
    destruct (search pattern message) as [[rest g]|] eqn:Es.
    + destruct (search_sound _ _ _ _ Es) as (pre & w & Hmsg & M).
      destruct (Hcap w g M) as (ds & a & b & -> & Hd & ->).
      destruct (float_of_digit_run ds Hd) as (v & Hparse & Hfloat).
      rewrite Hfloat. cbn [bind].
      destruct (float_geb (float_of_N v) 100) eqn:Hge.
      * exists (Some (float_of_N v)). split; [reflexivity|]. split.
        -- intros price [= <-]. split; [apply float_geb_ge, Hge|].
           exists ds, v. split; [|split; [exact Hparse | reflexivity]].
           split; [exact Hd|].
           exists (pre ++ a), (b ++ rest). rewrite Hmsg, <- !app_assoc.
           reflexivity.
        -- split; [discriminate|]. intros Hall. exfalso.
           specialize (Hall pattern rest (Some ds) _ (or_introl eq_refl) Es Hfloat).
           apply float_geb_lt in Hall. congruence.
      * exists r0. split; [exact Hr0|]. split; [exact Hfloor|].
        rewrite Hnone. split.
        -- intros Hall p' rest' g' price' [<- | Hin] Hs Hf.
           ++ rewrite Es in Hs. injection Hs as <- <-.
              rewrite Hfloat in Hf. injection Hf as <-.
              apply float_geb_lt, Hge.
           ++ eapply Hall; eassumption.
        -- intros Hall p' rest' g' price' Hin. apply Hall. right. exact Hin.
    + exists r0. split; [exact Hr0|]. split; [exact Hfloor|].
      rewrite Hnone. split.
      * intros Hall p' rest' g' price' [<- | Hin] Hs Hf.
        -- rewrite Es in Hs. discriminate.
        -- eapply Hall; eassumption.
      * intros Hall p' rest' g' price' Hin. apply Hall. right. exact Hin.
Qed.

(** C4.  [_extract_target_price] never raises and never returns a price
    below 100: a number that a pattern finds and that is below 100 is
    passed over, and a message in which no pattern finds a number of at
    least 100 (in particular one with no run of digits worth 100 or more)
    gives [None]. *)
Theorem target_price_floor (message : str) :
  exists r,
    _extract_target_price message = Returned r
    /\ (forall price, r = Some price -> float_ge price 100)
    /\ ((forall pattern rest g price,
           In pattern patterns -> search pattern message = Some (rest, g) ->
           float_of_group g = Returned price -> float_lt price 100) ->
        r = None)
    /\ ((forall ds price,
           numeric_span ds message -> parse_number ds = Some price ->
           (price < 100)%N) ->
        r = None).
Proof.
  destruct (first_price_spec patterns message patterns_capture_digits)
    as (r & Hr & Hfloor & Hnone).
  exists r. split; [exact Hr|]. split; [intros p Hp; apply Hfloor, Hp|].
  split; [apply Hnone|].
  intros Hspans. destruct r as [price|]; [|reflexivity].
  destruct (Hfloor price eq_refl) as (Hge & ds & n & Hspan & Hparse & ->).
  specialize (Hspans ds n Hspan Hparse).
  apply float_of_N_ge in Hge. lia.
Qed.

End TargetPriceProofs.

(** ** Facts on characters and decimal numerals *)

Module CharFacts.

Lemma ascii_digit_range (c : char) :
  is_ascii_digit c = true <-> (48 <= c <= 57)%N.
Proof. unfold is_ascii_digit. rewrite andb_true_iff, !N.leb_le. reflexivity. Qed.

Lemma ascii_alnum_range (c : char) :
  is_ascii_alnum c = true ->
  (48 <= c <= 57 \/ 65 <= c <= 90 \/ 97 <= c <= 122)%N.
Proof.
  unfold is_ascii_alnum. rewrite !orb_true_iff, !andb_true_iff, !N.leb_le. tauto.
Qed.

Lemma ascii_digit_alnum (c : char) :
  is_ascii_digit c = true -> is_ascii_alnum c = true.
Proof.
  unfold is_ascii_digit, is_ascii_alnum. intros ->. reflexivity.
Qed.

Lemma digit_value_ascii (c : char) :
  is_ascii_digit c = true -> digit_value c = Some (c - 48)%N.
Proof.
  intros H. unfold digit_value, decimal_zeros. cbn [digit_in].
  unfold is_ascii_digit in H. change (0x30 + 9)%N with 0x39%N. rewrite H.
  reflexivity.
Qed.

Lemma is_digit_ascii (c : char) : is_ascii_digit c = true -> is_digit c = true.
Proof. intros H. unfold is_digit. rewrite digit_value_ascii by exact H. reflexivity. Qed.

(** White space lies below the digits or above the letters. *)
Lemma is_space_range (c : char) :
  is_space c = true -> (c <= 0x20 \/ 0x85 <= c)%N.
Proof.
  unfold is_space.
  rewrite !orb_true_iff, !andb_true_iff, !N.leb_le, !N.eqb_eq. lia.
Qed.

Lemma between_not_space (c : char) : (0x20 < c < 0x85)%N -> is_space c = false.
Proof.
  intros H. destruct (is_space c) eqn:E; [|reflexivity].
  apply is_space_range in E. lia.
Qed.

Lemma alnum_not_space (c : char) : is_ascii_alnum c = true -> is_space c = false.
Proof. intros H. apply ascii_alnum_range in H. apply between_not_space. lia. Qed.

Lemma char_eqb_neq (a b : char) : a <> b -> char_eqb a b = false.
Proof. intros H. apply N.eqb_neq, H. Qed.

End CharFacts.

Module DecimalFacts.
Import CharFacts.

Lemma decimal_aux_app (fuel : nat) (n : N) (acc : str) :
  decimal_aux fuel n acc = decimal_aux fuel n [] ++ acc.
Proof.
  revert n acc; induction fuel as [|fuel IH]; intros n acc; simpl.
  - reflexivity.
  - destruct (n <? 10)%N; [reflexivity|].
    rewrite (IH _ (_ :: acc)), (IH _ [_]), <- app_assoc. reflexivity.
Qed.

Lemma digits_value_app (a : N) (xs ys : str) :
  digits_value a (xs ++ ys)
  = match digits_value a xs with
    | Some v => digits_value v ys
    | None => None
    end.
Proof.
  revert a; induction xs as [|x xs IH]; intros a; simpl; [reflexivity|].
  destruct (digit_value x); [apply IH | reflexivity].
Qed.

Lemma last_digit (n : N) : is_ascii_digit (48 + n mod 10)%N = true.
Proof.
  apply ascii_digit_range.
  pose proof (N.mod_lt n 10 ltac:(discriminate)) as H.
  set (m := (n mod 10)%N) in *. clearbody m. lia.
Qed.

Lemma decimal_aux_digits (fuel : nat) (n : N) :
  forallb is_ascii_digit (decimal_aux fuel n []) = true.
Proof.
  revert n; induction fuel as [|fuel IH]; intros n; simpl.
  - rewrite last_digit. reflexivity.
  - destruct (n <? 10)%N; [simpl; rewrite last_digit; reflexivity|].
    rewrite decimal_aux_app, forallb_app, IH. simpl. rewrite last_digit. reflexivity.
Qed.

Lemma decimal_aux_value (fuel : nat) (n : N) :
  (n < 2 ^ N.of_nat (S fuel))%N ->
  digits_value 0 (decimal_aux fuel n []) = Some n.
Proof.
  revert n; induction fuel as [|fuel IH]; intros n Hn.
  - change (2 ^ N.of_nat 1)%N with 2%N in Hn.
    cbn [decimal_aux digits_value]. rewrite digit_value_ascii by apply last_digit.
    f_equal. rewrite N.mod_small by lia. lia.
  - cbn [decimal_aux]. destruct (N.ltb_spec n 10) as [Hlt|Hge].
    + cbn [digits_value]. rewrite digit_value_ascii by apply last_digit.
      f_equal. rewrite N.mod_small by lia. lia.
    + rewrite decimal_aux_app, digits_value_app.
      rewrite IH.
      * cbn [digits_value]. rewrite digit_value_ascii by apply last_digit.
        f_equal. pose proof (N.div_mod n 10 ltac:(discriminate)) as H.
        set (q := (n / 10)%N) in *. set (m := (n mod 10)%N) in *.
        clearbody q m. lia.
      * rewrite Nat2N.inj_succ, N.pow_succ_r' in Hn.
        apply N.Div0.div_lt_upper_bound. lia.
Qed.

Lemma decimal_nonempty (n : N) : decimal n <> [].
Proof.
  unfold decimal. destruct (N.to_nat (N.log2 n)); simpl.
  - discriminate.
  - destruct (n <? 10)%N; [discriminate|].
    rewrite decimal_aux_app. intros H. apply app_eq_nil in H as [_ H].
    discriminate.
Qed.

Lemma decimal_digits (n : N) : forallb is_ascii_digit (decimal n) = true.
Proof. apply decimal_aux_digits. Qed.

(** Reading back the numeral of [n] gives [n]. *)
Lemma parse_decimal (n : N) : parse_number (decimal n) = Some n.
Proof.
  unfold parse_number. pose proof (decimal_nonempty n) as Hne.
  destruct (decimal n) eqn:E; [congruence|]. rewrite <- E.
  apply decimal_aux_value.
  rewrite Nat2N.inj_succ, N2Nat.id.
  destruct (N.eq_dec n 0%N) as [->|Hpos]; [reflexivity|].
  apply N.log2_spec. lia.
Qed.

End DecimalFacts.

(** ** agents/price_tracker_agent_improved.py: the round trip *)

Module RoundTripProofs.
Import FloatFacts.
Import Re PriceTrackerAgent CharFacts DecimalFacts.

#[local] Arguments char_eqb : simpl never.
#[local] Arguments is_space : simpl never.
#[local] Arguments is_digit : simpl never.
#[local] Arguments is_colon : simpl never.
#[local] Arguments is_punctuation : simpl never.

Lemma rejects_lit_seq (x : char) (l : str) (r : regex) (c : char) :
  c <> x -> rejects (Seq (Lit (x :: l)) r) c.
Proof.
  intros Hne t. unfold match_at. cbn [run startswith].
  rewrite char_eqb_neq by congruence. reflexivity.
Qed.

Lemma rejects_lit (x : char) (l : str) (c : char) :
  c <> x -> rejects (Lit (x :: l)) c.
Proof.
  intros Hne t. unfold match_at. cbn [run startswith].
  rewrite char_eqb_neq by congruence. reflexivity.
Qed.

Lemma rejects_cls (p : char -> bool) (c : char) :
  p c = false -> rejects (Cls p) c.
Proof. intros Hp t. unfold match_at. cbn [run]. rewrite Hp. reflexivity. Qed.

Lemma rejects_plus (p : char -> bool) (c : char) :
  p c = false -> rejects (Plus p) c.
Proof. intros Hp t. unfold match_at, Plus. cbn [run]. rewrite Hp. reflexivity. Qed.

(** [re.search] passes over a prefix in which no match can start. *)
Lemma search_prefix (r : regex) (pre s : str) :
  Forall (rejects r) pre -> search r (pre ++ s) = search r s.
Proof.
  induction 1 as [|c pre Hc Hpre IH]; [reflexivity|].
  cbn [app search]. rewrite (Hc (pre ++ s)). exact IH.
Qed.

(** A greedy repetition that meets the end of the text takes it all. *)
Lemma star_to_end {R} (p : char -> bool) (w : str) (k : str -> option R) (x : R) :
  forallb p w = true -> k [] = Some x -> star p w k = Some x.
Proof.
  intros Hw Hk. induction w as [|c w IH]; [exact Hk|].
  cbn [forallb] in Hw. apply andb_true_iff in Hw as [Hc Hw].
  cbn [star]. rewrite Hc, (IH Hw). reflexivity.
Qed.

(** It takes nothing from a text that starts outside the class. *)
Lemma star_stop {R} (p : char -> bool) (c : char) (s : str) (k : str -> option R) :
  p c = false -> star p (c :: s) k = k (c :: s).
Proof. intros Hc. cbn [star]. rewrite Hc. reflexivity. Qed.

(** [(\d+)] on a text that is one run of digits. *)
Lemma run_digits_to_end {R} (ds : str) (g : option str)
    (k : str -> option str -> option R) (x : R) :
  ds <> [] -> forallb is_digit ds = true -> k [] (Some ds) = Some x ->
  run (Group (Plus is_digit)) ds g k = Some x.
Proof.
  intros Hne Hd Hk. destruct ds as [|d ds]; [congruence|].
  cbn [forallb] in Hd. apply andb_true_iff in Hd as [Hd Hds].
  unfold Plus. cbn [run]. rewrite Hd.
  apply star_to_end; [exact Hds|].
  cbn [List.length]. rewrite Nat.sub_0_r.
  change (S (List.length ds)) with (List.length (d :: ds)).
  rewrite firstn_all. exact Hk.
Qed.

(** The equations of [run], one per construct. *)
Lemma run_Seq {R} (r1 r2 : regex) (s : str) (g : option str)
    (k : str -> option str -> option R) :
  run (Seq r1 r2) s g k = run r1 s g (fun s' g' => run r2 s' g' k).
Proof. reflexivity. Qed.

Lemma run_Star {R} (p : char -> bool) (s : str) (g : option str)
    (k : str -> option str -> option R) :
  run (Star p) s g k = star p s (fun s' => k s' g).
Proof. reflexivity. Qed.

Lemma run_Lit {R} (l s : str) (g : option str)
    (k : str -> option str -> option R) :
  run (Lit l) (l ++ s) g k = k s g.
Proof.
  cbn [run].
  assert (Hs : startswith l (l ++ s) = true).
  { induction l as [|c l IH]; [reflexivity|].
    cbn [app startswith]. unfold char_eqb. rewrite N.eqb_refl. exact IH. }
  rewrite Hs, drop_app_length. reflexivity.
Qed.

Lemma run_Lit_no {R} (x : char) (l : str) (c : char) (s : str) (g : option str)
    (k : str -> option str -> option R) :
  c <> x -> run (Lit (x :: l)) (c :: s) g k = None.
Proof.
  intros Hne. cbn [run startswith]. rewrite char_eqb_neq by congruence.
  reflexivity.
Qed.

Lemma run_Cls_no {R} (p : char -> bool) (c : char) (s : str) (g : option str)
    (k : str -> option str -> option R) :
  p c = false -> run (Cls p) (c :: s) g k = None.
Proof. intros Hp. cbn [run]. rewrite Hp. reflexivity. Qed.

Lemma run_Opt_skip {R} (r : regex) (s : str) (g : option str)
    (k : str -> option str -> option R) :
  run r s g k = None -> run (Opt r) s g k = k s g.
Proof. intros H. cbn [run]. rewrite H. reflexivity. Qed.

Lemma run_Alt_skip {R} (r1 r2 : regex) (s : str) (g : option str)
    (k : str -> option str -> option R) :
  run r1 s g k = None -> run (Alt r1 r2) s g k = run r2 s g k.
Proof. intros H. cbn [run]. rewrite H. reflexivity. Qed.

Lemma run_Alt_take {R} (r1 r2 : regex) (s : str) (g : option str)
    (k : str -> option str -> option R) (x : R) :
  run r1 s g k = Some x -> run (Alt r1 r2) s g k = Some x.
Proof. intros H. cbn [run]. rewrite H. reflexivity. Qed.

Lemma run_Group {R} (r : regex) (s : str) (g : option str)
    (k : str -> option str -> option R) :
  run (Group r) s g k
  = run r s g (fun s' _ => k s' (Some (take (List.length s - List.length s') s))).
Proof. reflexivity. Qed.

Lemma star_take {R} (p : char -> bool) (c : char) (s : str)
    (k : str -> option R) (x : R) :
  p c = true -> star p s k = Some x -> star p (c :: s) k = Some x.
Proof. intros Hc Hs. cbn [star]. rewrite Hc, Hs. reflexivity. Qed.

Lemma star_give_back {R} (p : char -> bool) (c : char) (s : str)
    (k : str -> option R) :
  star p s k = None -> star p (c :: s) k = k (c :: s).
Proof. intros Hs. cbn [star]. rewrite Hs. destruct (p c); reflexivity. Qed.

Lemma digits_are_digits (ds : str) :
  forallb is_ascii_digit ds = true -> forallb is_digit ds = true.
Proof.
  intros Hd. apply forallb_forall. intros c Hc. apply is_digit_ascii.
  rewrite forallb_forall in Hd. apply Hd, Hc.
Qed.

Lemma ascii_digit_not_colon (d : char) :
  is_ascii_digit d = true -> is_colon d = false.
Proof.
  intros Hd. apply ascii_digit_range in Hd. unfold is_colon, char_eqb.
  rewrite !orb_false_iff, !N.eqb_neq. lia.
Qed.

(** The separator and the number: [\s*[::：]?\s*(\d+)] on one blank and
    a run of ASCII digits that ends the text. *)
Lemma run_sep_number {R} (ds : str) (g : option str)
    (k : str -> option str -> option R) (x : R) :
  ds <> [] -> forallb is_ascii_digit ds = true -> k [] (Some ds) = Some x ->
  run sep_number (0x20%N :: ds) g k = Some x.
Proof.
  intros Hne Hd Hk.
  pose proof (digits_are_digits ds Hd) as Hdig.
  destruct ds as [|d ds'] eqn:Eds; [congruence|]. rewrite <- Eds in *.
  assert (Hd0 : is_ascii_digit d = true).
  { rewrite Eds in Hd. cbn [forallb] in Hd. apply andb_true_iff in Hd. tauto. }
  assert (Hsp : is_space d = false)
    by (apply alnum_not_space, ascii_digit_alnum, Hd0).
  pose proof (ascii_digit_not_colon d Hd0) as Hcol.
  unfold sep_number. rewrite run_Seq, run_Star.
  apply star_take; [reflexivity|].
  rewrite Eds, star_stop by exact Hsp.
  rewrite run_Seq, run_Opt_skip by (apply run_Cls_no, Hcol).
  rewrite run_Seq, run_Star, star_stop by exact Hsp.
  rewrite <- Eds. apply run_digits_to_end; assumption.
Qed.

(** The first pattern finds the number of the constructed message. *)
Lemma search_target_price (pre ds : str) :
  Forall (fun c => c <> 0x76EE%N) pre ->
  ds <> [] -> forallb is_ascii_digit ds = true ->
  search (Seq (Lit s_target_price) sep_number)
    (pre ++ s_target_price ++ 0x20%N :: ds)
  = Some ([], Some ds).
Proof.
  intros Hpre Hne Hd. rewrite search_prefix.
  - assert (Hm : match_at (Seq (Lit s_target_price) sep_number)
                   (s_target_price ++ 0x20%N :: ds) = Some ([], Some ds)).
    { unfold match_at. rewrite run_Seq, run_Lit.
      apply run_sep_number; auto. }
    destruct (s_target_price ++ 0x20%N :: ds); cbn [search]; rewrite Hm;
      reflexivity.
  - eapply Forall_impl; [exact Hpre|]. intros c Hc.
    apply rejects_lit_seq. exact Hc.
Qed.

(** *** Substitution *)

Lemma sub_from_nomatch (r : regex) (repl : str) (c : char) (s : str) :
  match_at r (c :: s) = None ->
  sub_from r repl 0 (c :: s) = c :: sub_from r repl 0 s.
Proof. intros H. cbn [sub_from]. rewrite H. reflexivity. Qed.

Lemma sub_from_skip (r : regex) (repl : str) (w s : str) :
  sub_from r repl (List.length w) (w ++ s) = sub_from r repl 0 s.
Proof.
  induction w as [|c w IH]; [reflexivity|].
  cbn [List.length app sub_from]. exact IH.
Qed.

(** A match of the non-empty word [c :: w] at the head is replaced. *)
Lemma sub_from_match (r : regex) (repl : str) (c : char) (w rest : str)
    (g : option str) :
  match_at r (c :: w ++ rest) = Some (rest, g) ->
  sub_from r repl 0 (c :: w ++ rest) = repl ++ sub_from r repl 0 rest.
Proof.
  intros H. cbn [sub_from]. rewrite H.
  cbn [List.length]. rewrite length_app.
  replace (S (List.length w + List.length rest) - List.length rest)%nat
    with (S (List.length w)) by lia.
  rewrite sub_from_skip. reflexivity.
Qed.

Lemma sub_from_match_all (r : regex) (repl : str) (c : char) (w : str)
    (g : option str) :
  match_at r (c :: w) = Some ([], g) ->
  sub_from r repl 0 (c :: w) = repl.
Proof.
  intros H. rewrite <- (app_nil_r w) in H |- *.
  rewrite (sub_from_match _ _ _ _ _ _ H). apply app_nil_r.
Qed.

(** Substitution passes over a prefix in which no match can start. *)
Lemma sub_from_prefix (r : regex) (repl : str) (pre s : str) :
  Forall (rejects r) pre ->
  sub_from r repl 0 (pre ++ s) = pre ++ sub_from r repl 0 s.
Proof.
  induction 1 as [|c pre Hc Hpre IH]; [reflexivity|].
  cbn [app]. rewrite sub_from_nomatch by apply Hc. rewrite IH. reflexivity.
Qed.

Lemma sub_untouched (r : regex) (repl : str) (s : str) :
  Forall (rejects r) s -> sub r repl s = s.
Proof.
  intros H. unfold sub. rewrite <- (app_nil_r s) at 1.
  rewrite sub_from_prefix by exact H. apply app_nil_r.
Qed.

(** [replace] leaves a text without the first character of [old]. *)
Lemma replace_absent (x : char) (l new s : str) :
  Forall (fun c => c <> x) s -> replace (x :: l) new s = s.
Proof.
  intros H. apply sub_untouched.
  eapply Forall_impl; [exact H|]. intros c Hc. apply rejects_lit, Hc.
Qed.

(** It replaces an occurrence at the head. *)
Lemma replace_head (x : char) (l new s : str) :
  Forall (fun c => c <> x) s ->
  replace (x :: l) new ((x :: l) ++ s) = new ++ s.
Proof.
  intros H. unfold replace, sub. cbn [app].
  rewrite (sub_from_match _ _ x l s None).
  - f_equal. apply (replace_absent x l new s H).
  - unfold match_at. change (x :: l ++ s) with ((x :: l) ++ s).
    rewrite run_Lit. reflexivity.
Qed.

Lemma run_plus_to_end {R} (p : char -> bool) (ds : str) (g : option str)
    (k : str -> option str -> option R) (x : R) :
  ds <> [] -> forallb p ds = true -> k [] g = Some x ->
  run (Plus p) ds g k = Some x.
Proof.
  intros Hne Hd Hk. destruct ds as [|d ds]; [congruence|].
  cbn [forallb] in Hd. apply andb_true_iff in Hd as [Hd Hds].
  unfold Plus. cbn [run]. rewrite Hd. apply star_to_end; assumption.
Qed.

(** *** The price pattern on the constructed message *)

Lemma alnum_above (c : char) : is_ascii_alnum c = true -> (48 <= c <= 122)%N.
Proof. intros H. apply ascii_alnum_range in H. lia. Qed.

(** The pattern needs one of its five first characters. *)
Lemma price_pattern_rejects (c : char) :
  c <> 0x76EE%N -> c <> 0x50F9%N -> c <> 0x5143%N -> c <> 0x24%N ->
  c <> 0x4E%N ->
  rejects price_pattern c.
Proof.
  intros H1 H2 H3 H4 H5 t. unfold match_at, price_pattern.
  unfold s_target_price, s_price, s_yuan, s_dollar, s_NT.
  rewrite run_Seq, run_Group.
  rewrite !run_Alt_skip by (apply run_Lit_no; assumption).
  rewrite run_Seq. apply run_Lit_no. assumption.
Qed.

Lemma price_pattern_rejects_alnum (c : char) :
  is_ascii_alnum c = true -> c <> 0x4E%N -> rejects price_pattern c.
Proof.
  intros Ha Hn. apply alnum_above in Ha.
  apply price_pattern_rejects; lia.
Qed.

(** Inside the product, before the blank and the words for the target
    price, the pattern matches nowhere. *)
Lemma price_pattern_product (c : char) (p tl : str) :
  forallb is_ascii_alnum (c :: p) = true ->
  has_nt_digit (c :: p) = false ->
  match_at price_pattern (c :: p ++ 0x20%N :: 0x76EE%N :: tl) = None.
Proof.
  intros Ha Hnt.
  cbn [forallb] in Ha. apply andb_true_iff in Ha as [Hc Hp].
  destruct (N.eq_dec c 0x4E%N) as [->|Hne];
    [|apply price_pattern_rejects_alnum; assumption].
  unfold match_at, price_pattern.
  unfold s_target_price, s_price, s_yuan, s_dollar, s_NT.
  rewrite run_Seq, run_Group.
  rewrite !run_Alt_skip by (apply run_Lit_no; discriminate).
  rewrite run_Seq.
  destruct p as [|c2 p]; [reflexivity|].
  cbn [forallb] in Hp. apply andb_true_iff in Hp as [Hc2 Hp].
  destruct (N.eq_dec c2 0x54%N) as [->|Hne2].
  2:{ cbn [app run startswith]. change (char_eqb 78%N 78%N) with true.
      rewrite (char_eqb_neq 84%N c2) by congruence. reflexivity. }
  change (78%N :: (84%N :: p) ++ 32%N :: 30446%N :: tl)
    with ([78%N; 84%N] ++ (p ++ 32%N :: 30446%N :: tl)).
  rewrite run_Lit.
  destruct p as [|c3 p].
  - cbn [app]. rewrite run_Opt_skip by (apply run_Lit_no; discriminate).
    rewrite run_Seq, run_Star.
    rewrite star_give_back.
    + unfold Plus. rewrite run_Seq. apply run_Cls_no. reflexivity.
    + rewrite star_stop by reflexivity.
      unfold Plus. rewrite run_Seq. apply run_Cls_no. reflexivity.
  - cbn [forallb] in Hp. apply andb_true_iff in Hp as [Hc3 Hp].
    assert (Hd3 : is_digit c3 = false).
    { cbn [has_nt_digit] in Hnt. apply orb_false_iff in Hnt as [Hnt _].
      change (char_eqb 78%N 78%N) with true in Hnt.
      change (char_eqb 84%N 84%N) with true in Hnt.
      exact Hnt. }
    pose proof (alnum_above c3 Hc3) as Hr3.
    cbn [app]. rewrite run_Opt_skip by (apply run_Lit_no; lia).
    rewrite run_Seq, run_Star, star_stop by (apply alnum_not_space, Hc3).
    unfold Plus. rewrite run_Seq. apply run_Cls_no, Hd3.
Qed.

Lemma has_nt_digit_tail (c : char) (p : str) :
  has_nt_digit (c :: p) = false -> has_nt_digit p = false.
Proof. cbn [has_nt_digit]. intros H. apply orb_false_iff in H. tauto. Qed.

Lemma sub_price_product (repl p tl : str) :
  forallb is_ascii_alnum p = true ->
  has_nt_digit p = false ->
  sub_from price_pattern repl 0 (p ++ 0x20%N :: 0x76EE%N :: tl)
  = p ++ sub_from price_pattern repl 0 (0x20%N :: 0x76EE%N :: tl).
Proof.
  induction p as [|c p IH]; intros Ha Hnt; [reflexivity|].
  cbn [app]. rewrite sub_from_nomatch by (apply price_pattern_product; assumption).
  rewrite IH; [reflexivity | | eapply has_nt_digit_tail, Hnt].
  cbn [forallb] in Ha. apply andb_true_iff in Ha. tauto.
Qed.

(** At the words for the target price the pattern takes the rest of the
    message. *)
Lemma price_pattern_target (ds : str) :
  ds <> [] -> forallb is_ascii_digit ds = true ->
  exists g,
    match_at price_pattern (s_target_price ++ 0x20%N :: ds) = Some ([], g).
Proof.
  intros Hne Hd. pose proof (digits_are_digits ds Hd) as Hdig.
  eexists. unfold match_at, price_pattern.
  rewrite run_Seq, run_Group. apply run_Alt_take. rewrite run_Lit.
  rewrite run_Seq, run_Star. apply star_take; [reflexivity|].
  destruct ds as [|d ds'] eqn:Eds; [congruence|].
  rewrite star_stop.
  - rewrite <- Eds in *. apply run_plus_to_end; [assumption..|reflexivity].
  - apply alnum_not_space, ascii_digit_alnum.
    cbn [forallb] in Hd. apply andb_true_iff in Hd. tauto.
Qed.

(** The price is cut out of the constructed message, and nothing else. *)
Lemma sub_price_message (p ds : str) :
  forallb is_ascii_alnum p = true -> has_nt_digit p = false ->
  ds <> [] -> forallb is_ascii_digit ds = true ->
  sub price_pattern empty_str
    ([0x8FFD; 0x8E64; 0x20]%N ++ p ++ 0x20%N :: s_target_price ++ 0x20%N :: ds)
  = [0x8FFD; 0x8E64; 0x20]%N ++ p ++ [0x20%N].
Proof.
  intros Ha Hnt Hne Hd. unfold sub.
  rewrite sub_from_prefix
    by (repeat constructor; apply price_pattern_rejects; discriminate).
  f_equal.
  change (s_target_price ++ 32%N :: ds)
    with (0x76EE%N :: ([0x6A19; 0x50F9; 0x683C]%N ++ 32%N :: ds)).
  rewrite sub_price_product by assumption. f_equal.
  rewrite sub_from_nomatch by (apply price_pattern_rejects; discriminate).
  f_equal.
  destruct (price_pattern_target ds Hne Hd) as (g & Hm).
  change (s_target_price ++ 32%N :: ds)
    with (0x76EE%N :: ([0x6A19; 0x50F9; 0x683C]%N ++ 32%N :: ds)) in Hm.
  exact (sub_from_match_all _ _ _ _ _ Hm).
Qed.

(** *** The remaining steps of [_extract_product_name] *)

(** The text left once the price is cut out: blanks and ASCII letters and
    digits. *)
Lemma plain_text (p : str) :
  forallb is_ascii_alnum p = true ->
  Forall (fun c => (0x20 <= c < 0x80)%N /\ (c = 0x20%N \/ is_ascii_alnum c = true))
         (0x20%N :: 0x20%N :: p ++ [0x20%N]).
Proof.
  intros Ha.
  assert (Hp : Forall (fun c => (0x20 <= c < 0x80)%N
                                /\ (c = 0x20%N \/ is_ascii_alnum c = true)) p).
  { apply List.Forall_forall. intros c Hc.
    rewrite forallb_forall in Ha. specialize (Ha c Hc).
    pose proof (alnum_above c Ha). split; [lia | right; exact Ha]. }
  repeat constructor; try lia.
  apply Forall_app. split; [exact Hp|]. repeat constructor; lia.
Qed.

Lemma alnum_not_punctuation (c : char) :
  is_ascii_alnum c = true -> is_punctuation c = false.
Proof.
  intros Ha. apply ascii_alnum_range in Ha.
  unfold is_punctuation, punctuation, char_eqb. cbn [existsb].
  rewrite !orb_false_iff, !N.eqb_neq. lia.
Qed.

Lemma keywords_removed (p : str) :
  forallb is_ascii_alnum p = true ->
  fold_left (fun clean kw => replace kw space clean) remove_keywords
    ([0x8FFD; 0x8E64; 0x20]%N ++ p ++ [0x20%N])
  = 0x20%N :: 0x20%N :: p ++ [0x20%N].
Proof.
  intros Ha. pose proof (plain_text p Ha) as Hplain.
  assert (Habs : forall x, (0x80 <= x)%N ->
                   Forall (fun c => c <> x) (0x20%N :: 0x20%N :: p ++ [0x20%N])).
  { intros x Hx. eapply Forall_impl; [exact Hplain|].
    cbv beta. intros c [Hc _]. lia. }
  unfold remove_keywords. cbn [fold_left].
  change ([0x8FFD; 0x8E64; 0x20]%N ++ p ++ [0x20%N])
    with ([0x8FFD; 0x8E64]%N ++ (0x20%N :: p ++ [0x20%N])).
  rewrite replace_head.
  - change (space ++ 32%N :: p ++ [32%N]) with (32%N :: 32%N :: p ++ [32%N]).
    repeat rewrite (replace_absent _ _ _ (32%N :: 32%N :: p ++ [32%N]))
      by (apply Habs; lia).
    reflexivity.
  - specialize (Habs 0x8FFD%N ltac:(lia)). exact (Forall_inv_tail Habs).
Qed.

Lemma punctuation_absent (p : str) :
  forallb is_ascii_alnum p = true ->
  sub (Cls is_punctuation) space (0x20%N :: 0x20%N :: p ++ [0x20%N])
  = 0x20%N :: 0x20%N :: p ++ [0x20%N].
Proof.
  intros Ha. apply sub_untouched.
  eapply Forall_impl; [exact (plain_text p Ha)|].
  cbv beta. intros c [_ [-> | Hc]]; apply rejects_cls;
    [reflexivity | apply alnum_not_punctuation, Hc].
Qed.

Lemma blanks_collapsed (c : char) (p : str) :
  forallb is_ascii_alnum (c :: p) = true ->
  sub (Plus is_space) space (0x20%N :: 0x20%N :: (c :: p) ++ [0x20%N])
  = 0x20%N :: (c :: p) ++ [0x20%N].
Proof.
  intros Ha.
  assert (Hns : Forall (fun c => is_space c = false) (c :: p)).
  { apply List.Forall_forall. intros d Hd. apply alnum_not_space.
    rewrite forallb_forall in Ha. apply Ha, Hd. }
  unfold sub.
  change (32%N :: 32%N :: (c :: p) ++ [32%N])
    with (32%N :: [32%N] ++ ((c :: p) ++ [32%N])).
  rewrite (sub_from_match _ _ _ _ _ None).
  - change (space ++ ?x) with (32%N :: x). f_equal.
    rewrite sub_from_prefix
      by (eapply Forall_impl; [exact Hns|]; intros d Hd; apply rejects_plus, Hd).
    f_equal.
  - unfold match_at, Plus. rewrite run_Seq. cbn [run].
    change (is_space 32%N) with true. cbv iota.
    cbn [app]. apply star_take; [reflexivity|].
    apply star_stop. exact (Forall_inv Hns).
Qed.

Lemma lstrip_nonspace (s : str) :
  Forall (fun c => is_space c = false) s -> lstrip s = s.
Proof. intros [|c s' Hc _]; [reflexivity|]. cbn [lstrip]. rewrite Hc. reflexivity. Qed.

Lemma strip_nonspace (s : str) :
  Forall (fun c => is_space c = false) s -> strip s = s.
Proof.
  intros H. unfold strip, rstrip. rewrite (lstrip_nonspace s H).
  rewrite lstrip_nonspace; [apply rev_involutive|].
  apply List.Forall_forall. intros c Hc. apply in_rev in Hc.
  rewrite List.Forall_forall in H. apply H, Hc.
Qed.

Lemma strip_padded (s : str) :
  Forall (fun c => is_space c = false) s ->
  strip (0x20%N :: s ++ [0x20%N]) = s.
Proof.
  intros H. destruct s as [|c0 s0] eqn:Es; [reflexivity|]. rewrite <- Es in *.
  unfold strip, rstrip. cbn [lstrip].
  change (is_space 32%N) with true. cbv iota.
  assert (Hl : lstrip (s ++ [0x20%N]) = s ++ [0x20%N]).
  { rewrite Es in *. cbn [app lstrip]. rewrite (Forall_inv H). reflexivity. }
  rewrite Hl, rev_app_distr. cbn [rev app lstrip].
  change (is_space 32%N) with true. cbv iota.
  rewrite lstrip_nonspace; [apply rev_involutive|].
  apply List.Forall_forall. intros c Hc. apply in_rev in Hc.
  rewrite List.Forall_forall in H. apply H, Hc.
Qed.

Lemma alnum_nonspace (p : str) :
  forallb is_ascii_alnum p = true -> Forall (fun c => is_space c = false) p.
Proof.
  intros Ha. apply List.Forall_forall. intros c Hc. apply alnum_not_space.
  rewrite forallb_forall in Ha. apply Ha, Hc.
Qed.

(** What [_extract_product_name] leaves of the constructed message before
    its test on the length: the product. *)
Lemma product_name_clean (p ds : str) :
  forallb is_ascii_alnum p = true -> has_nt_digit p = false ->
  ds <> [] -> forallb is_ascii_digit ds = true ->
  _extract_product_name
    ([0x8FFD; 0x8E64; 0x20]%N ++ p ++ 0x20%N :: s_target_price ++ 0x20%N :: ds)
  = if (2 <? List.length p)%nat then Some p else None.
Proof.
  intros Ha Hnt Hne Hd. unfold _extract_product_name. cbv zeta.
  rewrite sub_price_message by assumption.
  rewrite keywords_removed, punctuation_absent by assumption.
  destruct p as [|c p].
  - reflexivity.
  - rewrite blanks_collapsed by assumption.
    rewrite strip_padded by (apply alnum_nonspace, Ha). reflexivity.
Qed.

Lemma short_has_no_nt_digit (p : str) :
  (List.length p <= 2)%nat -> has_nt_digit p = false.
Proof.
  destruct p as [|a [|b [|c p]]]; cbn [List.length has_nt_digit]; intros H;
    try lia; rewrite ?andb_false_r; reflexivity.
Qed.

(** The constructed message, character by character. *)
Lemma message_eq (product : str) (n : N) :
  py "追蹤 " ++ product ++ py " 目標價格 " ++ decimal n
  = [0x8FFD; 0x8E64; 0x20]%N ++ product
    ++ 0x20%N :: s_target_price ++ 0x20%N :: decimal n.
Proof. reflexivity. Qed.

(** C3 (amended).  For a product of ASCII letters and digits and a number
    [n] of at least 100, the message "追蹤 {product} 目標價格 {n}" (the
    source's words for "track" and "target price") gives as target price
    the float nearest to [n], which is [n] itself up to 2^53; it gives the
    product as the product name when the product is longer than two
    characters and holds no "NT" directly followed by a digit, and no
    product name at all when the product has at most two characters. *)
Theorem extract_round_trip (product : str) (n : N) :
  forallb is_ascii_alnum product = true ->
  (100 <= n)%N ->
  let message := py "追蹤 " ++ product ++ py " 目標價格 " ++ decimal n in
  _extract_target_price message = Returned (Some (float_of_N n))
  /\ ((n <= 2 ^ 53)%N ->
      _extract_target_price message = Returned (Some (Num n)))
  /\ ((2 < List.length product)%nat -> has_nt_digit product = false ->
      _extract_product_name message = Some (strip product)
      /\ strip product = product)
  /\ ((List.length product <= 2)%nat -> _extract_product_name message = None).
Proof.
  intros Ha Hn message. unfold message. rewrite message_eq.
  pose proof (decimal_nonempty n) as Hne.
  pose proof (decimal_digits n) as Hd.
  assert (Hprice : _extract_target_price
                     ([0x8FFD; 0x8E64; 0x20]%N ++ product
                      ++ 0x20%N :: s_target_price ++ 0x20%N :: decimal n)
                   = Returned (Some (float_of_N n))); [|split; [exact Hprice|split; [|split]]].
  - unfold _extract_target_price, patterns. cbn [first_price].
    replace ([0x8FFD; 0x8E64; 0x20]%N ++ product
             ++ 0x20%N :: s_target_price ++ 0x20%N :: decimal n)
      with (([0x8FFD; 0x8E64; 0x20]%N ++ product ++ [0x20%N])
            ++ s_target_price ++ 0x20%N :: decimal n)
      by (rewrite <- !app_assoc; reflexivity).
    rewrite search_target_price; [|  | exact Hne | exact Hd].
    + unfold float_of_group. rewrite parse_decimal. cbn [bind].
      rewrite (proj2 (float_geb_ge _ _) (proj2 (float_of_N_ge n) Hn)).
      reflexivity.
    + repeat constructor; try discriminate.
      apply Forall_app. split; [|repeat constructor; discriminate].
      apply List.Forall_forall. intros c Hc.
      rewrite forallb_forall in Ha. specialize (Ha c Hc).
      apply alnum_above in Ha. lia.
  - intros Hexact. rewrite Hprice, (float_of_exact n Hexact). reflexivity.
  - intros Hlen Hnt.
    rewrite strip_nonspace by (apply alnum_nonspace, Ha).
    split; [|reflexivity].
    rewrite product_name_clean by assumption.
    destruct (Nat.ltb_spec 2 (List.length product)); [reflexivity | lia].
  - intros Hlen.
    rewrite product_name_clean
      by (try apply short_has_no_nt_digit; assumption).
    destruct (Nat.ltb_spec 2 (List.length product)); [lia | reflexivity].
Qed.

(** C3 as stated fails on a product of two characters: the name that is
    left is not longer than two characters and is dropped.  It fails on a
    price above 2^53 that is no float: the target price is the float next
    to it.  And it fails on a product in which "NT" is followed by a digit:
    the price pattern cuts that part out of the name. *)
Lemma extract_round_trip_fails :
  (let product := py "TV" in
   let n := 100%N in
   let message := py "追蹤 " ++ product ++ py " 目標價格 " ++ decimal n in
   forallb is_ascii_alnum product = true
   /\ (100 <= n)%N
   /\ _extract_target_price message = Returned (Some (Num n))
   /\ _extract_product_name message = None
   /\ _extract_product_name message <> Some (strip product))
  /\ (let product := py "iPhone15Pro" in
      let n := 9007199254740993%N in
      let message := py "追蹤 " ++ product ++ py " 目標價格 " ++ decimal n in
      forallb is_ascii_alnum product = true
      /\ (100 <= n)%N
      /\ _extract_product_name message = Some (strip product)
      /\ _extract_target_price message
         = Returned (Some (Num 9007199254740992))
      /\ _extract_target_price message <> Returned (Some (Num n)))
  /\ (let product := py "PRINT5X" in
      let n := 35000%N in
      let message := py "追蹤 " ++ product ++ py " 目標價格 " ++ decimal n in
      forallb is_ascii_alnum product = true
      /\ (100 <= n)%N
      /\ _extract_target_price message = Returned (Some (Num n))
      /\ _extract_product_name message = Some (py "PRIX")
      /\ _extract_product_name message <> Some (strip product)).
Proof.
  cbv zeta. split; [|split].
  - split; [reflexivity|]. split; [discriminate|].
    split; [vm_compute; reflexivity|].
    split; [vm_compute; reflexivity|]. vm_compute. discriminate.
  - split; [reflexivity|]. split; [discriminate|].
    split; [vm_compute; reflexivity|].
    split; [vm_compute; reflexivity|]. vm_compute. discriminate.
  - split; [reflexivity|]. split; [discriminate|].
    split; [vm_compute; reflexivity|].
    split; [vm_compute; reflexivity|]. vm_compute. discriminate.
Qed.

End RoundTripProofs.

(** ** The theorems at concrete inputs *)

Module Instances.
Import Samples.
Import AIIntentAnalyzer AIIntentAnalyzerProofs.

(** A greeting scores 0 for every handler. *)
Lemma fallback_default_witness :
  let message := py "hello" in
  Forall (fun v => Qeq v 0) (values (scores (L := ascii_lower) message))
  /\ exists analysis,
       _advanced_fallback_analysis (L := ascii_lower) message []
       = Returned (SmartRecommendation, 0.3%Q, analysis)
       /\ forall reply now h user_id,
            fst (analyze_intent (L := ascii_lower) [] reply now h message user_id)
            = Returned (JStr SmartRecommendation, JNum 0.3, analysis).
Proof.
  assert (H : Forall (fun v => Qeq v 0)
                (values (scores (L := ascii_lower) (py "hello"))))
    by (vm_compute; repeat constructor).
  split; [exact H|].
  exact (fallback_default (L := ascii_lower) (py "hello") [] H).
Defined.

Lemma history_keeps_last_ten_witness :
  py "U1" <> []
  /\ let h := record ∅ sample_calls in
     _get_user_context h (Some (py "U1"))
     = last_n 10 (turns_of (py "U1") sample_calls)
     /\ (List.length (turns_of (py "U1") sample_calls) = 15%nat ->
         _get_user_context h (Some (py "U1"))
         = drop 5 (turns_of (py "U1") sample_calls))
     /\ (forall v, (List.length (_get_user_context h v) <= 10)%nat).
Proof.
  assert (H : py "U1" <> []) by discriminate.
  split; [exact H|].
  exact (history_keeps_last_ten (py "U1") sample_calls H).
Defined.

Lemma sample_calls_fifteen :
  List.length (turns_of (py "U1") sample_calls) = 15%nat
  /\ drop 5 (turns_of (py "U1") sample_calls)
     = List.map sample_turn [6; 7; 8; 9; 10; 11; 12; 13; 14; 15]%N.
Proof. split; reflexivity. Qed.

Import PChome PriceTrackerAgent FilterProofs.

Lemma filter_products_safety_witness :
  let products := [phone_case; phone] in
  let query := py "iPhone 15" in
  products <> []
  /\ _filter_products (L := ascii_lower) products query <> []
  /\ (forallb (is_accessory (L := ascii_lower)) products = true ->
      _filter_products (L := ascii_lower) products query = take 10 products)
  /\ (forallb (is_accessory (L := ascii_lower)) products = false ->
      _filter_products (L := ascii_lower) products query
      = take 10 (List.filter (fun p => negb (is_accessory (L := ascii_lower) p))
                   products)
      /\ Forall (fun p =>
                   Forall (fun ex =>
                             str_in ex (str_lower (StrLower := ascii_lower)
                                          (default empty_str (name p)))
                             = false) exclude_keywords)
                (_filter_products (L := ascii_lower) products query)).
Proof.
  assert (H : [phone_case; phone] <> []) by discriminate.
  split; [exact H|].
  exact (filter_products_safety (L := ascii_lower) [phone_case; phone]
           (py "iPhone 15") H).
Defined.

(** Accessories only: the unfiltered list comes back; a phone among them:
    the accessory goes. *)
Example filter_products_all_accessories :
  _filter_products (L := ascii_lower) [phone_case; phone_case] (py "iPhone")
  = [phone_case; phone_case].
Proof. reflexivity. Qed.

Example filter_products_mixed :
  _filter_products (L := ascii_lower) [phone_case; phone] (py "iPhone") = [phone].
Proof. reflexivity. Qed.

Import MultiPlatformSearch MultiPlatformSearchProofs.


Example sample_ranking :
  List.map price
    (sorted_products (fst (search_all_platforms sample_workers
                             [F_shopee; F_pchome; F_momo])))
  = [14200; 14900; 15800]%Z.
Proof. reflexivity. Qed.

Import RoundTripProofs.

Lemma extract_round_trip_witness :
  let product := py "iPhone15Pro" in
  let n := 35000%N in
  forallb is_ascii_alnum product = true
  /\ (100 <= n)%N
  /\ let message := py "追蹤 " ++ product ++ py " 目標價格 " ++ decimal n in
     _extract_target_price message = Returned (Some (float_of_N n))
     /\ ((n <= 2 ^ 53)%N ->
         _extract_target_price message = Returned (Some (Num n)))
     /\ ((2 < List.length product)%nat -> has_nt_digit product = false ->
         _extract_product_name message = Some (strip product)
         /\ strip product = product)
     /\ ((List.length product <= 2)%nat -> _extract_product_name message = None).
Proof.
  assert (Ha : forallb is_ascii_alnum (py "iPhone15Pro") = true) by reflexivity.
  assert (Hn : (100 <= 35000)%N) by lia.
  split; [exact Ha|]. split; [exact Hn|].
  exact (extract_round_trip (py "iPhone15Pro") 35000%N Ha Hn).
Defined.

(** The example of the help text, run through the model. *)
Example extract_help_example :
  let message := py "追蹤 iPhone 15 Pro 目標價格 35000" in
  _extract_product_name message = Some (py "iPhone 15 Pro")
  /\ _extract_target_price message = Returned (Some (Num 35000)).
Proof. split; vm_compute; reflexivity. Qed.

(** A product that reads like a price is cut out with the price. *)
Example extract_nt_product :
  _extract_product_name (py "追蹤 PRINT5X 目標價格 35000") = Some (py "PRIX").
Proof. vm_compute. reflexivity. Qed.

(** The fallback on a message about spending, and on a tie. *)
Example fallback_finance :
  exists analysis,
    _advanced_fallback_analysis (L := ascii_lower) (py "這個月花了多少") []
    = Returned (Finance, 0.9%Q, analysis).
Proof. eexists. vm_compute. reflexivity. Qed.

Example fallback_tie :
  let message := py "推薦手機嗎 價格 通知" in
  List.map snd (scores (L := ascii_lower) message)
  = [1.000; 1.00; 0; 0; 0]%Q
  /\ exists confidence analysis,
       _advanced_fallback_analysis (L := ascii_lower) message []
       = Returned (SmartRecommendation, confidence, analysis).
Proof. split; [vm_compute; reflexivity|]. eexists _, _. vm_compute. reflexivity. Qed.

(** No API key: the answer comes from the fallback and the history stays
    empty. *)
Example fallback_leaves_history_empty :
  let out := analyze_intent (L := ascii_lower) [] None (py "2026-01-01T00:00:00")
               ∅ (py "這個月花了多少") (Some (py "U1")) in
  (exists analysis, fst out = Returned (JStr Finance, JNum 0.9, analysis))
  /\ snd out = ∅
  /\ _get_user_context (snd out) (Some (py "U1")) = [].
Proof.
  split; [eexists; vm_compute; reflexivity|]. split; reflexivity.
Qed.

End Instances.

(** ** agents/ai_intent_analyzer.py: further properties *)

Module AIIntentAnalyzerMore.
Import AIIntentAnalyzer AIIntentAnalyzerProofs.

Section Fallback.
Context {L : StrLower}.

(** A score is 0 or at least 0.2, the smallest weight of the tables. *)
Lemma add_if_step (cond : bool) (w score : Q) :
  Qle 0.2 w -> Qeq score 0 \/ Qle 0.2 score ->
  Qeq (add_if cond w score) 0 \/ Qle 0.2 (add_if cond w score).
Proof.
  intros Hw Hs. unfold add_if. destruct cond; [right | exact Hs].
  assert (H0 : Qle 0 score).
  { destruct Hs as [Hs | Hs]; [rewrite Hs; apply Qle_refl|].
    eapply Qle_trans; [|exact Hs]. discriminate. }
  rewrite <- (Qplus_0_l 0.2). apply Qplus_le_compat; assumption.
Qed.

Lemma scores_step (message : str) :
  Forall (fun v => Qeq v 0 \/ Qle 0.2 v) (values (scores message)).
Proof.
  rewrite scores_eq. unfold values. cbn [List.map snd].
  unfold recommendation_score, price_score, review_score, finance_score,
    gmail_score. cbv zeta.
  repeat (apply List.Forall_cons;
          [repeat (apply add_if_step; [discriminate|]); left; reflexivity|]).
  apply List.Forall_nil.
Qed.

(** The score filed under each key of the dictionary is one of its values. *)
Lemma score_of_in_values (message k : str) :
  In k (keys (scores message)) ->
  In (score_of (scores message) k) (values (scores message)).
Proof.
  rewrite scores_eq. unfold keys, values. cbn [List.map fst snd].
  intros [<- | [<- | [<- | [<- | [<- | []]]]]]; cbn; tauto.
Qed.

Lemma first_best_in_keys (message : str) :
  In (first_best message) (keys (scores message)).
Proof. exact (max_from_in (score_of (scores message)) _ SmartRecommendation). Qed.

(** The winner's score is the greatest score. *)
Lemma first_best_top (message : str) (v : Q) :
  In v (values (scores message)) ->
  Qle v (score_of (scores message) (first_best message)).
Proof.
  intros Hv. rewrite scores_eq in Hv. unfold values in Hv.
  cbn [List.map snd] in Hv.
  assert (Hk : exists k, In k (keys (scores message))
                         /\ score_of (scores message) k = v).
  { rewrite keys_scores.
    destruct Hv as [<- | [<- | [<- | [<- | [<- | []]]]]];
      [exists SmartRecommendation | exists PriceTracker | exists ProductReview
       | exists Finance | exists Gmail]; split; try reflexivity; cbn; tauto. }
  destruct Hk as (k & Hk & <-).
  exact (max_from_upper (score_of (scores message)) _ SmartRecommendation k Hk).
Qed.

(** X1.  The fallback classifier always answers with one of its five
    handler labels and with a confidence between 0.2 and 0.9. *)
Theorem fallback_confidence_range (message : str) (context : list turn) :
  exists best confidence analysis,
    _advanced_fallback_analysis message context
    = Returned (best, confidence, analysis)
    /\ In best [SmartRecommendation; PriceTracker; ProductReview; Finance; Gmail]
    /\ Qle 0.2 confidence /\ Qle confidence 0.9.
Proof.
  destruct (fallback_unfold message context) as (analysis & Hf).
  destruct (Qeq_bool (top_score message) 0) eqn:Etop.
  - exists SmartRecommendation, 0.3%Q, analysis.
    split; [exact Hf|]. split; [left; reflexivity|]. split; discriminate.
  - eexists _, _, analysis. split; [exact Hf|].
    split; [exact (first_best_in_keys message)|].
    set (s := score_of (scores message) (first_best message)).
    assert (Hs : Qle 0.2 s).
    { pose proof (scores_step message) as Hstep.
      rewrite List.Forall_forall in Hstep.
      destruct (Hstep s (score_of_in_values message _ (first_best_in_keys message)))
        as [Hz | Hge]; [|exact Hge].
      exfalso.
      assert (Htop : Qle (top_score message) s).
      { apply first_best_top. rewrite scores_eq. unfold values.
        cbn [List.map snd]. apply (max_from_in (fun v => v)). }
      assert (Hnn : Qle 0 (top_score message)).
      { pose proof (scores_nonneg message) as Hnn.
        rewrite List.Forall_forall in Hnn. apply Hnn.
        rewrite scores_eq. unfold values. cbn [List.map snd].
        apply (max_from_in (fun v => v)). }
      assert (Hz' : Qeq (top_score message) 0).
      { apply Qle_antisym; [|exact Hnn]. rewrite <- Hz. exact Htop. }
      apply Qeq_bool_iff in Hz'. congruence. }
    unfold py_min. destruct (Qlt_bool 0.9 s) eqn:E.
    + split; [discriminate | apply Qle_refl].
    + split; [exact Hs | apply Qlt_bool_false, E].
Qed.

(** X2.  A reply of the external classifier that is missing, empty or not
    a JSON object is treated like a missing API key: the answer is the
    fallback's, and nothing is recorded. *)
Theorem classifier_failure_is_fallback (api_key : str) (reply : option json)
    (now : str) (h : history) (message : str) (user_id : option str) :
  (forall f fs, reply <> Some (JObj (f :: fs))) ->
  analyze_intent api_key reply now h message user_id
  = analyze_intent [] None now h message user_id
  /\ snd (analyze_intent api_key reply now h message user_id) = h
  /\ exists label confidence analysis,
       fst (analyze_intent api_key reply now h message user_id)
       = Returned (JStr label, JNum confidence, analysis).
Proof.
  intros Hbad.
  assert (Heq : analyze_intent api_key reply now h message user_id
                = analyze_intent [] None now h message user_id).
  { unfold analyze_intent. cbn [BaseAgent.falsy].
    destruct (BaseAgent.falsy api_key); [reflexivity|].
    destruct reply as [[| b | q | t | l | fs]|]; try reflexivity;
      cbn [truthy];
      try (destruct (negb _); reflexivity);
      try (destruct b; reflexivity);
      try (destruct l; reflexivity).
    destruct fs as [|f fs]; [reflexivity|].
    exfalso. exact (Hbad f fs eq_refl). }
  rewrite Heq. split; [reflexivity|]. split; [reflexivity|].
  unfold analyze_intent. cbn [BaseAgent.falsy fst].
  destruct (fallback_unfold message
              match truthy_id user_id with
              | Some _ => _get_user_context h user_id
              | None => []
              end) as (analysis & Hf).
  rewrite Hf. cbn [of_fallback bind].
  destruct (Qeq_bool (top_score message) 0); eexists _, _, _; reflexivity.
Qed.

End Fallback.

Section Calls.
Context {L : StrLower}.
Import AIIntentAnalyzerRuns.

Lemma In_drop {A} (n : nat) (l : list A) (x : A) : In x (drop n l) -> In x l.
Proof.
  revert n; induction l as [|y l IH]; intros [|n] H; cbn in *; try tauto.
  right. eauto.
Qed.

Lemma truthy_id_some (v : option str) (u : str) :
  truthy_id v = Some u -> v = Some u /\ u <> [].
Proof.
  destruct v as [[|c w]|]; cbn; try discriminate.
  intros [= <-]. split; [reflexivity | discriminate].
Qed.

(** What one call does to the history: nothing, or one recorded turn. *)
Lemma analyze_intent_history (api_key : str) (c : call) (h : history) :
  snd (analyze_intent api_key (call_reply c) (call_now c) h (call_message c)
         (call_user c)) = h
  \/ exists fields u,
       api_key <> [] /\ call_reply c = Some (JObj fields) /\ fields <> []
       /\ truthy_id (call_user c) = Some u
       /\ snd (analyze_intent api_key (call_reply c) (call_now c) h
                 (call_message c) (call_user c))
          = _update_conversation_history h (call_now c) (call_user c)
              (call_message c) (agent (recorded_turn c fields)).
Proof.
  unfold analyze_intent.
  destruct api_key as [|k ks]; [left; reflexivity|]. cbn [BaseAgent.falsy].
  destruct (call_reply c) as [[| b | q | t | l | fs]|]; try (left; reflexivity);
    cbn [truthy];
    try (destruct (negb _); left; reflexivity);
    try (destruct b; left; reflexivity);
    try (destruct l; left; reflexivity).
  destruct fs as [|f fs]; [left; reflexivity|].
  destruct (truthy_id (call_user c)) as [u|] eqn:Eu; [|left; reflexivity].
  right. exists (f :: fs), u. repeat split; discriminate.
Qed.

(** X3.  After any run of [analyze_intent] calls on an analyzer that starts
    with an empty history, no user's history is longer than ten turns, and
    every stored turn is the message of a call of that user which the
    external classifier answered with a non-empty JSON object. *)
Theorem serve_history_invariant (api_key : str) (calls : list call)
    (v : option str) :
  let stored := _get_user_context (serve api_key ∅ calls) v in
  (List.length stored <= 10)%nat
  /\ Forall (fun t =>
               exists c fields,
                 In c calls /\ truthy_id (call_user c) = truthy_id v
                 /\ api_key <> [] /\ call_reply c = Some (JObj fields)
                 /\ fields <> [] /\ t = recorded_turn c fields)
            stored.
Proof.
  cbv zeta. induction calls as [|c calls IH] using rev_ind.
  - unfold serve, _get_user_context. cbn [fold_left].
    destruct (truthy_id v); [rewrite lookup_empty|]; split; cbn; auto with arith.
  - unfold serve in *. rewrite fold_left_app. cbn [fold_left].
    set (h := fold_left _ calls ∅) in *.
    destruct IH as [IHlen IHall].
    assert (IHall' : Forall (fun t =>
               exists c0 fields,
                 In c0 (calls ++ [c]) /\ truthy_id (call_user c0) = truthy_id v
                 /\ api_key <> [] /\ call_reply c0 = Some (JObj fields)
                 /\ fields <> [] /\ t = recorded_turn c0 fields)
            (_get_user_context h v)).
    { eapply List.Forall_impl; [|exact IHall]. cbv beta.
      intros t (c0 & fields & Hin & Hrest). exists c0, fields.
      split; [apply in_or_app; left; exact Hin | exact Hrest]. }
    destruct (analyze_intent_history api_key c h)
      as [-> | (fields & u & Hk & Hr & Hf & Hu & ->)]; [split; assumption|].
    destruct (decide (truthy_id v = Some u)) as [Hv | Hv].
    + destruct (truthy_id_some _ _ Hv) as [-> Hne].
      destruct (truthy_id_some _ _ Hu) as [Hcu _]. rewrite Hcu.
      rewrite update_same by exact Hne.
      split; [rewrite length_last_n; lia|].
      apply List.Forall_forall. intros t Ht. apply In_drop in Ht.
      apply in_app_or in Ht as [Ht | [<- | []]].
      * rewrite List.Forall_forall in IHall'. apply IHall', Ht.
      * exists c, fields. split; [apply in_or_app; right; left; reflexivity|].
        rewrite Hu, Hv. repeat split; auto.
    + rewrite update_other by (rewrite Hu; exact Hv).
      split; assumption.
Qed.

End Calls.

Section Keywords.
Context {L : StrLower}.

Lemma NoDup_take {A} (n : nat) (l : list A) : List.NoDup l -> List.NoDup (take n l).
Proof.
  revert n; induction l as [|x l IH]; intros [|n] H; cbn; try constructor.
  - intros Hin. apply List.NoDup_cons_iff in H as [Hx _]. apply Hx.
    clear -Hin. revert n Hin. induction l as [|y l IHl]; intros [|n] Hin;
      cbn in *; try tauto.
    destruct Hin as [-> | Hin]; [left; reflexivity | right; eauto].
  - apply IH. apply List.NoDup_cons_iff in H. tauto.
Qed.

Lemma In_take {A} (n : nat) (l : list A) (x : A) : In x (take n l) -> In x l.
Proof.
  revert n; induction l as [|y l IH]; intros [|n] H; cbn in *; try tauto.
  destruct H as [-> | H]; [left; reflexivity | right; eauto].
Qed.

(** X4.  [_extract_keywords] returns at most five keywords, without
    repetition, each of which occurs in the lower-cased message. *)
Theorem extract_keywords_spec (message : str) :
  (List.length (_extract_keywords message) <= 5)%nat
  /\ List.NoDup (_extract_keywords message)
  /\ Forall (fun k => str_in k (str_lower message) = true)
            (_extract_keywords message).
Proof.
  unfold _extract_keywords. cbv zeta.
  rewrite <- List.filter_app.
  set (vocabulary := kw _ ++ kw _).
  split; [rewrite length_take; lia|]. split.
  - apply NoDup_take, List.NoDup_filter.
    unfold vocabulary. vm_compute.
    repeat (apply List.NoDup_cons; [cbn; intuition discriminate|]).
    apply List.NoDup_nil.
  - apply List.Forall_forall. intros k Hk.
    apply In_take, List.filter_In in Hk. tauto.
Qed.

End Keywords.

End AIIntentAnalyzerMore.

(** ** agents/multi_platform_search.py: further properties *)

Module MultiPlatformSearchMore.
Import MultiPlatformSearch MultiPlatformSearchProofs.

Lemma startswith_self_app (l s : str) : startswith l (l ++ s) = true.
Proof.
  induction l as [|c l IH]; [reflexivity|].
  cbn [app startswith]. unfold char_eqb. rewrite N.eqb_refl. exact IH.
Qed.

(** X5.  [search_pchome] returns at most [limit] candidates, all of the
    platform "PChome 24h" with a product address of that shop; it returns
    candidates only for a reply of status 200 whose body decodes, one per
    listing in the order of the reply, and a request or a decoding that
    raises gives the empty list and one error record. *)
Theorem search_pchome_results (reply : outcome response) (keyword : str)
    (limit : nat) :
  let results := fst (search_pchome reply keyword limit) in
  let lg := snd (search_pchome reply keyword limit) in
  (List.length results <= limit)%nat
  /\ Forall (fun c => platform c = py "PChome 24h"
                      /\ startswith (py "https://24h.pchome.com.tw/prod/") (url c) = true)
         results
  /\ (results <> [] ->
      exists r data,
        reply = Returned r /\ status_code r = 200%Z
        /\ prods r = Returned (Some data)
        /\ results = List.map of_prod (take limit data))
  /\ (forall e,
        reply = Raised e
        \/ (exists r, reply = Returned r /\ status_code r = 200%Z
                      /\ prods r = Raised e) ->
        results = []
        /\ lg = [(ERROR, py "PChome 搜尋失敗: " ++ exn_message e)]).
Proof.
  cbv zeta. unfold search_pchome.
  destruct reply as [r|e0]; cbn [bind].
  - destruct (Z.eqb_spec (status_code r) 200) as [Hs|Hs].
    + destruct (prods r) as [data|e1] eqn:Ep; cbn [bind fst snd].
      * split; [rewrite length_map, length_take; lia|].
        split.
        { apply List.Forall_forall. intros c Hc.
          apply in_map_iff in Hc as (p & <- & _). split; [reflexivity|].
          apply startswith_self_app. }
        split.
        { intros Hne. destruct data as [d|]; cbn [default] in *.
          - exists r, d. repeat split; auto.
          - rewrite take_nil in Hne. cbn in Hne. congruence. }
        intros e [He | (r' & [= <-] & _ & He)]; congruence.
      * split; [cbn; lia|]. split; [constructor|].
        split; [congruence|].
        intros e [He | (r' & [= <-] & _ & He)]; [discriminate|].
        rewrite Ep in He. injection He as ->. split; reflexivity.
    + cbn [fst snd]. split; [cbn; lia|]. split; [constructor|].
      split; [congruence|].
      intros e [He | (r' & [= <-] & Hs' & _)]; [discriminate | congruence].
  - cbn [fst snd]. split; [cbn; lia|]. split; [constructor|].
    split; [congruence|].
    intros e [[= <-] | (r' & He & _)]; [split; reflexivity | discriminate].
Qed.

(** X6.  As the module stands, whatever PChome replies and in whatever
    order the three workers complete, the dictionary of
    [search_all_platforms] holds the candidates of [search_pchome] under
    "pchome" and nothing under "momo" and "shopee", the loop logs no
    failure, and the ranking is that of the PChome candidates alone. *)
Theorem module_search_is_pchome (reply : outcome response) (keyword : str)
    (limit : nat) (completed : list future) :
  Permutation completed all_futures ->
  let found := fst (search_pchome reply keyword limit) in
  search_all_platforms (module_workers reply keyword limit) completed
  = ([ (py "pchome", found); (py "momo", []); (py "shopee", []) ], [])
  /\ sorted_products
       (fst (search_all_platforms (module_workers reply keyword limit) completed))
     = sort_by_price found.
Proof.
  intros Hp found. apply completion_orders in Hp.
  assert (H : search_all_platforms (module_workers reply keyword limit) completed
              = ([ (py "pchome", found); (py "momo", []); (py "shopee", []) ], [])).
  { repeat (destruct Hp as [<- | Hp]; [reflexivity|]). destruct Hp. }
  split; [exact H|]. rewrite H. unfold sorted_products, all_products, values.
  cbn [fst List.map snd concat]. rewrite !app_nil_r. reflexivity.
Qed.


End MultiPlatformSearchMore.

(** ** agents/base_agent.py: formatting and the registry *)

Module BaseAgentRestProofs.
Import BaseAgent BaseAgentRest PyStrFacts.

Lemma lstrip_suffix (s : str) : exists a, s = a ++ lstrip s.
Proof.
  induction s as [|c s [a IH]]; [exists []; reflexivity|].
  cbn [lstrip]. destruct (is_space c).
  - exists (c :: a). cbn [app]. f_equal. exact IH.
  - exists []. reflexivity.
Qed.

Lemma rstrip_prefix (s : str) : exists b, s = rstrip s ++ b.
Proof.
  unfold rstrip. destruct (lstrip_suffix (rev s)) as [a Ha].
  exists (rev a). rewrite <- rev_app_distr, <- Ha. symmetry. apply rev_involutive.
Qed.

Lemma lstrip_length (s : str) : (List.length (lstrip s) <= List.length s)%nat.
Proof.
  destruct (lstrip_suffix s) as [a Ha]. rewrite Ha at 2. rewrite length_app. lia.
Qed.

Lemma strip_length (s : str) : (List.length (strip s) <= List.length s)%nat.
Proof.
  unfold strip, rstrip. rewrite length_rev.
  etransitivity; [apply lstrip_length|]. rewrite length_rev. apply lstrip_length.
Qed.

Lemma lstrip_fixed (s : str) : lstrip (lstrip s) = lstrip s.
Proof.
  destruct (lstrip s) as [|c t] eqn:E; [reflexivity|].
  cbn [lstrip]. rewrite (lstrip_head _ _ _ E). reflexivity.
Qed.

(** The first character of a text survives [rstrip] when it is no white
    space. *)
Lemma rstrip_cons (c : char) (t : str) :
  is_space c = false -> exists t', rstrip (c :: t) = c :: t'.
Proof.
  intros Hc. unfold rstrip. cbn [rev].
  destruct (lstrip_suffix (rev t ++ [c])) as [a Ha].
  destruct (lstrip (rev t ++ [c])) as [|x l] eqn:E.
  - apply lstrip_nil_iff in E. rewrite forallb_app in E.
    cbn [forallb] in E. rewrite Hc in E.
    rewrite andb_false_r in E. discriminate.
  - assert (Hr : c :: t = rev (x :: l) ++ rev a).
    { rewrite <- rev_app_distr, <- Ha, rev_app_distr, rev_involutive.
      reflexivity. }
    destruct (rev (x :: l)) as [|y m] eqn:Er.
    + apply (f_equal (@List.length _)) in Er.
      rewrite length_rev in Er. discriminate.
    + cbn [app] in Hr. injection Hr as -> _. exists m. reflexivity.
Qed.

Lemma rstrip_fixed (s : str) : rstrip (rstrip s) = rstrip s.
Proof. unfold rstrip. rewrite rev_involutive, lstrip_fixed. reflexivity. Qed.

Lemma strip_fixed (s : str) : strip (strip s) = strip s.
Proof.
  unfold strip. generalize (lstrip_head s). destruct (lstrip s) as [|c t].
  - intros _. reflexivity.
  - intros H. specialize (H c t eq_refl).
    destruct (rstrip_cons c t H) as [t' Ht].
    rewrite Ht. cbn [lstrip]. rewrite H. rewrite <- Ht. apply rstrip_fixed.
Qed.

Lemma lstrip_app_nonspace (u : str) (c : char) (w : str) :
  is_space c = false -> lstrip (u ++ c :: w) = lstrip u ++ c :: w.
Proof.
  intros Hc. induction u as [|x u IH]; cbn [app lstrip].
  - rewrite Hc. reflexivity.
  - destruct (is_space x); [exact IH | reflexivity].
Qed.

Lemma rstrip_snoc_nonspace (u : str) (d : char) :
  is_space d = false -> rstrip (u ++ [d]) = u ++ [d].
Proof.
  intros Hd. unfold rstrip. rewrite rev_app_distr. cbn [rev app lstrip].
  rewrite Hd. cbn [rev]. rewrite rev_involutive. reflexivity.
Qed.

Lemma rstrip_app_snoc (u v : str) (d : char) :
  is_space d = false -> rstrip (u ++ v ++ [d]) = u ++ v ++ [d].
Proof. intros Hd. rewrite app_assoc. apply rstrip_snoc_nonspace, Hd. Qed.

(** X8.  [format_response] never returns more than 5000 characters (a longer
    response is cut to its first 4900 characters, followed by the truncation
    notice), and what it returns has no white space at either end. *)
Theorem format_response_bounded (response : str) :
  (List.length (format_response response) <= 5000)%nat
  /\ strip (format_response response) = format_response response
  /\ ((5000 < List.length response)%nat ->
      exists kept, format_response response = kept ++ truncation_notice
                   /\ (List.length kept <= 4902)%nat).
Proof.
  unfold format_response.
  destruct response as [|c r]; cbn [falsy].
  { split; [vm_compute; lia|]. split; [vm_compute; reflexivity|].
    cbn [List.length]. lia. }
  generalize (c :: r). clear c r. intros s.
  destruct (Nat.ltb_spec 5000 (List.length s)) as [Hlong|Hshort].
  - assert (Hn : exists mid, truncation_notice = 0x26A0%N :: mid ++ [0x65B7%N]
                              /\ List.length mid = 10%nat).
    { exists (removelast (List.tl truncation_notice)).
      split; vm_compute; reflexivity. }
    destruct Hn as (mid & Hn & Hmid). rewrite Hn.
    assert (Hk : strip (take 4900 s ++ newline ++ newline
                        ++ 0x26A0%N :: mid ++ [0x65B7%N])
                 = lstrip (take 4900 s ++ newline ++ newline)
                   ++ 0x26A0%N :: mid ++ [0x65B7%N]).
    { unfold strip.
      replace (take 4900 s ++ newline ++ newline ++ 0x26A0%N :: mid ++ [0x65B7%N])
        with ((take 4900 s ++ newline ++ newline) ++ 0x26A0%N :: mid ++ [0x65B7%N])
        by (rewrite <- !app_assoc; reflexivity).
      rewrite lstrip_app_nonspace by (vm_compute; reflexivity).
      apply (rstrip_app_snoc _ (0x26A0%N :: mid)). vm_compute. reflexivity. }
    assert (Hlen : (List.length (lstrip (take 4900 s ++ newline ++ newline))
                    <= 4902)%nat).
    { etransitivity; [apply lstrip_length|].
      rewrite !length_app, length_take. cbn [List.length newline]. lia. }
    rewrite Hk. split; [|split].
    + rewrite length_app. cbn [List.length]. rewrite length_app, Hmid.
      cbn [List.length]. lia.
    + rewrite <- Hk. apply strip_fixed.
    + intros _. eexists. split; [reflexivity | exact Hlen].
  - split; [|split].
    + etransitivity; [apply strip_length | exact Hshort].
    + apply strip_fixed.
    + lia.
Qed.

(** X9.  A response that is not empty but holds white space only (and is
    not over the length limit) is formatted to the empty text: the apology
    that replaces an empty response does not replace a blank one. *)
Theorem format_response_blank (response : str) :
  response <> [] -> forallb is_space response = true ->
  (List.length response <= 5000)%nat ->
  format_response response = [].
Proof.
  intros Hne Hsp Hlen. unfold format_response.
  destruct response as [|c r]; [congruence|]. cbn [falsy].
  destruct (Nat.ltb_spec 5000 (List.length (c :: r))) as [Hlong|_]; [lia|].
  apply strip_nil_iff. exact Hsp.
Qed.

Lemma dict_get_set_same {V} (k : str) (v : V) (d : list (str * V)) :
  dict_get k (dict_set k v d) = Some v.
Proof.
  induction d as [|[k' v'] d IH]; cbn [dict_set dict_get].
  - rewrite AIIntentAnalyzerProofs.str_eqb_refl. reflexivity.
  - destruct (str_eqb k k') eqn:E; cbn [dict_get].
    + rewrite AIIntentAnalyzerProofs.str_eqb_refl. reflexivity.
    + rewrite E. exact IH.
Qed.

Lemma dict_get_set_other {V} (k k0 : str) (v : V) (d : list (str * V)) :
  k0 <> k -> dict_get k0 (dict_set k v d) = dict_get k0 d.
Proof.
  intros Hne.
  assert (H0 : str_eqb k0 k = false).
  { destruct (str_eqb k0 k) eqn:E; [|reflexivity].
    apply AIIntentAnalyzerProofs.str_eqb_eq in E. congruence. }
  induction d as [|[k' v'] d IH]; cbn [dict_set dict_get].
  - rewrite H0. reflexivity.
  - destruct (str_eqb k k') eqn:E; cbn [dict_get].
    + apply AIIntentAnalyzerProofs.str_eqb_eq in E. subst k'.
      rewrite H0. reflexivity.
    + rewrite IH. reflexivity.
Qed.

Lemma keys_dict_set {V} (k : str) (v : V) (d : list (str * V)) :
  keys (dict_set k v d)
  = match dict_get k d with Some _ => keys d | None => keys d ++ [k] end.
Proof.
  induction d as [|[k' v'] d IH]; cbn [dict_set dict_get]; [reflexivity|].
  destruct (str_eqb k k') eqn:E.
  - apply AIIntentAnalyzerProofs.str_eqb_eq in E. subst k'. reflexivity.
  - unfold keys in *. cbn [List.map fst]. rewrite IH.
    destruct (dict_get k d); reflexivity.
Qed.

Lemma dict_get_none_keys {V} (k : str) (d : list (str * V)) :
  dict_get k d = None -> ~ In k (keys d).
Proof.
  induction d as [|[k' v'] d IH]; cbn [dict_get]; [intros _ []|].
  destruct (str_eqb k k') eqn:E; [discriminate|].
  intros H [Hk | Hk].
  - cbn [fst] in Hk. subst k'.
    rewrite AIIntentAnalyzerProofs.str_eqb_refl in E. discriminate.
  - exact (IH H Hk).
Qed.

Lemma register_all_snoc (regs : list (str * agent)) (n : str) (a : agent)
    (self : registry) :
  register_all (regs ++ [(n, a)]) self = register n a (register_all regs self).
Proof. unfold register_all. rewrite fold_left_app. reflexivity. Qed.

(** X10.  In a registry filled by any run of [register] calls, [get_agent]
    gives for a name the agent of the last call that registered it, and
    nothing for a name never registered; [list_agents] names every
    registered agent once. *)
Theorem registry_last_registration_wins (regs : list (str * agent)) (n : str) :
  get_agent n (register_all regs empty_registry) = dict_get n (rev regs)
  /\ List.NoDup (list_agents (register_all regs empty_registry))
  /\ (forall m, In m (list_agents (register_all regs empty_registry))
                <-> In m (List.map fst regs)).
Proof.
  unfold get_agent, list_agents, empty_registry.
  induction regs as [|[k a] regs IH] using rev_ind.
  - split; [reflexivity|]. split; [constructor | reflexivity].
  - destruct IH as (Hget & Hnd & Hin).
    rewrite register_all_snoc. unfold register. split; [|split].
    + rewrite rev_app_distr. cbn [rev app dict_get].
      destruct (str_eqb n k) eqn:E.
      * apply AIIntentAnalyzerProofs.str_eqb_eq in E. subst k.
        apply dict_get_set_same.
      * rewrite dict_get_set_other; [exact Hget|].
        intros ->. rewrite AIIntentAnalyzerProofs.str_eqb_refl in E.
        discriminate.
    + rewrite keys_dict_set.
      destruct (dict_get k (register_all regs [])) eqn:E; [exact Hnd|].
      apply List.NoDup_app; [exact Hnd | repeat constructor; intros [] |].
      intros x Hx [<- | []]. exact (dict_get_none_keys _ _ E Hx).
    + intros m. rewrite keys_dict_set, map_app, in_app_iff. cbn [List.map fst In].
      destruct (dict_get k (register_all regs [])) eqn:E.
      * rewrite Hin. split; [tauto|]. intros [H | [<- | []]]; [exact H|].
        apply Hin.
        assert (Hk : In k (keys (register_all regs []))).
        { clear -E. induction (register_all regs []) as [|[k' v'] d IH];
            cbn [dict_get] in E; [discriminate|].
          destruct (str_eqb k k') eqn:E'.
          - apply AIIntentAnalyzerProofs.str_eqb_eq in E'. left. symmetry. exact E'.
          - right. exact (IH E). }
        exact Hk.
      * rewrite in_app_iff, Hin. cbn [In]. tauto.
Qed.

End BaseAgentRestProofs.

(** ** agents/price_tracker_agent_improved.py: the requests *)

Module PriceTrackerRequestsProofs.
Import Re PChome PriceTrackerAgent PriceTrackerRequests.

Section Requests.
Context {L : StrLower}.

Lemma any_in_false (words : list str) (s w : str) :
  any_in words s = false -> In w words -> str_in w s = false.
Proof.
  unfold any_in. intros H Hw.
  destruct (str_in w s) eqn:E; [|reflexivity].
  assert (existsb (fun w => str_in w s) words = true)
    by (apply existsb_exists; exists w; split; assumption).
  congruence.
Qed.

(** X11.  [process_user_request] always returns a reply.  The message,
    stripped and lower-cased, is routed by its keywords in the order remove,
    list, track, query: when the handler it is routed to returns, the reply
    is the handler's; when that handler raises, the reply is the fixed
    "system error" text; a message with none of the keywords gets the help
    text, as does every message in which [can_handle] finds no price
    keyword once the white space around it is removed, and then no handler
    runs. *)
Theorem process_user_request_dispatch (self : handlers) (user_id message : str) :
  let m := str_lower (strip message) in
  let lists := any_in list_words m || (str_in s_view m && str_in s_track m) in
  let routed : option (outcome str) :=
    if any_in remove_words m
    then Some (_handle_remove_tracking self user_id message)
    else if lists then Some (_handle_list_request self user_id)
    else if any_in track_words m then Some (_handle_track self user_id message)
    else if any_in query_words m
    then Some (_handle_price_query self user_id message)
    else None in
  (exists reply, process_user_request self user_id message = Returned reply)
  /\ (can_handle (strip message) = false ->
      process_user_request self user_id message = Returned _get_help_message)
  /\ (forall e, routed = Some (Raised e) ->
        process_user_request self user_id message
        = Returned (py "❌ 系統錯誤，請稍後再試"))
  /\ (forall reply, routed = Some (Returned reply) ->
        process_user_request self user_id message = Returned reply)
  /\ (routed = None ->
      process_user_request self user_id message = Returned _get_help_message).
Proof.
  cbv zeta. unfold process_user_request, can_handle.
  set (m := str_lower (strip message)).
  split; [|split; [|split; [|split]]].
  - match goal with |- context [try_except ?b _] => destruct b as [r|e] end;
      cbn [try_except]; eexists; reflexivity.
  - intros H.
    assert (Hw : forall w, In w price_keywords -> str_in w m = false)
      by (intros w; apply any_in_false, H).
    assert (H1 : any_in remove_words m = false).
    { unfold any_in, remove_words. cbn [existsb].
      rewrite !Hw; [reflexivity | | |]; vm_compute; tauto. }
    assert (H2 : any_in list_words m = false).
    { unfold any_in, list_words. cbn [existsb].
      rewrite !Hw; [reflexivity | |]; vm_compute; tauto. }
    assert (H3 : str_in s_view m = false) by (apply Hw; vm_compute; tauto).
    assert (H4 : any_in track_words m = false).
    { unfold any_in, track_words. cbn [existsb].
      rewrite !Hw; [reflexivity | |]; vm_compute; tauto. }
    assert (H5 : any_in query_words m = false).
    { unfold any_in, query_words. cbn [existsb].
      rewrite !Hw; [reflexivity | | | | |]; vm_compute; tauto. }
    rewrite H1, H2, H3, H4, H5. reflexivity.
  - intros e.
    repeat match goal with
           | |- context [if ?c then _ else _] => destruct c
           end; intros [= ->] || discriminate; reflexivity.
  - intros reply.
    repeat match goal with
           | |- context [if ?c then _ else _] => destruct c
           end; intros [= ->] || discriminate; reflexivity.
  - repeat match goal with
           | |- context [if ?c then _ else _] => destruct c
           end; discriminate || (intros _; reflexivity).
Qed.

(** X12.  For the price tracker the [except] arm of
    [BaseAgent.process_message] is never taken: the reply of
    [process_message] is that of [process_user_request], which is the reply
    of one of the four handlers, the help text, or the "system error" text
    when the handler raised. *)
Theorem price_tracker_replies (self : handlers) (user_id message : str) :
  BaseAgent.process_message (as_agent self) user_id message
  = of_outcome (process_user_request self user_id message)
  /\ exists reply,
       BaseAgent.process_message (as_agent self) user_id message = Normal reply
       /\ process_user_request self user_id message = Returned reply
       /\ (reply = _get_help_message
           \/ reply = py "❌ 系統錯誤，請稍後再試"
           \/ _handle_remove_tracking self user_id message = Returned reply
           \/ _handle_list_request self user_id = Returned reply
           \/ _handle_track self user_id message = Returned reply
           \/ _handle_price_query self user_id message = Returned reply).
Proof.
  assert (Hr : exists reply,
             process_user_request self user_id message = Returned reply
             /\ (reply = _get_help_message
                 \/ reply = py "❌ 系統錯誤，請稍後再試"
                 \/ _handle_remove_tracking self user_id message = Returned reply
                 \/ _handle_list_request self user_id = Returned reply
                 \/ _handle_track self user_id message = Returned reply
                 \/ _handle_price_query self user_id message = Returned reply)).
  { unfold process_user_request.
    repeat match goal with
           | |- context [if ?c then _ else _] => destruct c
           end;
      match goal with
      | |- context [try_except ?b _] => destruct b as [r|e] eqn:E
      end; cbn [try_except]; eexists; (split; [reflexivity|]);
      try (injection E as <-); tauto. }
  destruct Hr as (reply & Hr & Hcases).
  assert (Heq : BaseAgent.process_message (as_agent self) user_id message
                = of_outcome (process_user_request self user_id message)).
  { unfold BaseAgent.process_message, as_agent.
    cbn [BaseAgent._process_message_internal BaseAgent.agent_name].
    rewrite Hr. reflexivity. }
  split; [exact Heq|]. exists reply. rewrite Heq, Hr.
  split; [reflexivity|]. split; [reflexivity | exact Hcases].
Qed.

End Requests.

Lemma extract_target_price_floor (message : str) (p : float) :
  _extract_target_price message = Returned (Some p) -> float_ge p 100.
Proof.
  unfold _extract_target_price. generalize patterns. intros ps.
  induction ps as [|r ps IH]; cbn [first_price]; [discriminate|].
  destruct (search r message) as [[rest g]|]; [|exact IH].
  destruct (float_of_group g) as [v|e]; cbn [bind]; [|discriminate].
  destruct (float_geb v 100) eqn:Hv; [|exact IH].
  intros [= ->]. apply FloatFacts.float_geb_ge, Hv.
Qed.

Lemma extract_product_name_long (message name : str) :
  _extract_product_name message = Some name -> (2 < List.length name)%nat.
Proof.
  unfold _extract_product_name. cbv zeta.
  match goal with |- context [(2 <? ?n)%nat] =>
    destruct (Nat.ltb_spec 2 n) as [H|H] end; [|discriminate].
  intros [= <-]. exact H.
Qed.

(** X13.  [_handle_track_request] hands a request to [_track_product_by_name]
    only with a product name of more than two characters and a target price
    of at least 100; in every other case its reply is fixed by the message,
    whatever the tracking method would do.  What the tracking method raises
    becomes the reply "tracking failed". *)
Theorem track_request_guard (user_id message : str) :
  (exists reply, forall track,
      _handle_track_request track user_id message = Returned reply)
  \/ (exists name price,
        _extract_product_name message = Some name
        /\ _extract_target_price message = Returned (Some price)
        /\ (2 < List.length name)%nat /\ float_ge price 100
        /\ forall track,
             _handle_track_request track user_id message
             = try_except (track user_id name price)
                          (fun _ => Returned (py "❌ 追蹤失敗"))).
Proof.
  unfold _handle_track_request.
  destruct (_extract_target_price message) as [[price|]|e] eqn:Ep; cbn [bind].
  - destruct (_extract_product_name message) as [name|] eqn:En.
    + pose proof (extract_product_name_long _ _ En) as Hlen.
      pose proof (extract_target_price_floor _ _ Ep) as Hp.
      destruct name as [|c name]; [cbn [List.length] in Hlen; lia|].
      cbn [no_price default from_option id].
      assert (Hz : float_falsy price = false).
      { destruct price as [v|]; [|reflexivity]. cbn [float_falsy float_ge] in *.
        apply N.eqb_neq. lia. }
      rewrite Hz.
      right. exists (c :: name), price. repeat split; auto.
    + left. eexists. intros track. reflexivity.
  - left. destruct (_extract_product_name message) as [[|c name]|];
      eexists; intros track; reflexivity.
  - left. eexists. intros track. reflexivity.
Qed.

End PriceTrackerRequestsProofs.

(** ** agents/price_tracker_agent_improved.py: the product name *)

Module ProductNameProofs.
Import Re PChome PriceTrackerAgent PriceTrackerRequests PyStrFacts.
Import BaseAgentRestProofs.

(** *** What a substitution leaves *)

Lemma in_sub_from (r : regex) (repl : str) (k : nat) (s : str) (c : char) :
  In c (sub_from r repl k s) -> In c s \/ In c repl.
Proof.
  revert k. induction s as [|x s IH]; intros k;
    [destruct k; cbn [sub_from In]; tauto|].
  cbn [sub_from]. destruct k as [|k].
  - destruct (match_at r (x :: s)) as [[rest g]|].
    + destruct (List.length (x :: s) - List.length rest)%nat.
      * intros [<- | H]; [left; left; reflexivity|].
        destruct (IH _ H); [left; right|right]; assumption.
      * rewrite in_app_iff. intros [H | H]; [right; exact H|].
        destruct (IH _ H); [left; right|right]; assumption.
    + intros [<- | H]; [left; left; reflexivity|].
      destruct (IH _ H); [left; right|right]; assumption.
  - intros H. destruct (IH _ H); [left; right|right]; assumption.
Qed.

(** A one-character class is replaced wherever it occurs. *)
Lemma in_sub_cls (p : char -> bool) (repl : str) (k : nat) (s : str) (c : char) :
  In c (sub_from (Cls p) repl k s) -> (In c s /\ p c = false) \/ In c repl.
Proof.
  revert k. induction s as [|x s IH]; intros k;
    [destruct k; cbn [sub_from In]; tauto|].
  cbn [sub_from]. destruct k as [|k].
  - unfold match_at. cbn [run]. destruct (p x) eqn:Hx.
    + cbn [List.length]. replace (S (List.length s) - List.length s)%nat with 1%nat by lia.
      rewrite in_app_iff. intros [H | H]; [right; exact H|].
      destruct (IH _ H) as [[H1 H2] | H1]; [left; split; [right|]|right]; assumption.
    + intros [<- | H]; [left; split; [left; reflexivity | exact Hx]|].
      destruct (IH _ H) as [[H1 H2] | H1]; [left; split; [right|]|right]; assumption.
  - intros H.
    destruct (IH _ H) as [[H1 H2] | H1]; [left; split; [right|]|right]; assumption.
Qed.

(** *** Occurrences of a word *)

Lemma str_in_cons (w : str) (c : char) (s : str) :
  str_in w (c :: s) = startswith w (c :: s) || str_in w s.
Proof. reflexivity. Qed.

Lemma str_in_app_r (w a s : str) : str_in w s = true -> str_in w (a ++ s) = true.
Proof.
  intros H. induction a as [|c a IH]; [exact H|].
  cbn [app]. rewrite str_in_cons, IH. apply orb_true_r.
Qed.

Lemma startswith_app_l (w s b : str) :
  startswith w s = true -> startswith w (s ++ b) = true.
Proof.
  revert s. induction w as [|x w IH]; intros s; [reflexivity|].
  destruct s as [|y s]; cbn [startswith app]; [discriminate|].
  intros H. apply andb_true_iff in H as [H1 H2].
  rewrite H1. exact (IH _ H2).
Qed.

Lemma str_in_app_l (w s b : str) : str_in w s = true -> str_in w (s ++ b) = true.
Proof.
  induction s as [|c s IH].
  - cbn [str_in app]. rewrite orb_false_r. destruct w; [|discriminate].
    intros _. destruct b; reflexivity.
  - cbn [app]. rewrite !str_in_cons. intros H.
    apply orb_true_iff in H as [H | H].
    + pose proof (startswith_app_l w (c :: s) b H) as H'.
      cbn [app] in H'. rewrite H'. reflexivity.
    + rewrite (IH H). apply orb_true_r.
Qed.

(** A word that occurs in the stripped text occurs in the text. *)
Lemma str_in_strip (w s : str) : str_in w (strip s) = true -> str_in w s = true.
Proof.
  intros H. unfold strip in H.
  destruct (rstrip_prefix (lstrip s)) as [b Hb].
  destruct (lstrip_suffix s) as [a Ha].
  rewrite Ha, Hb. apply str_in_app_r, str_in_app_l, H.
Qed.

Lemma startswith_blank (x : char) (w' s : str) :
  ~ In 0x20%N (x :: w') -> startswith (x :: w') (0x20%N :: s) = false.
Proof.
  intros H. cbn [startswith]. unfold char_eqb.
  destruct (N.eqb_spec x 0x20%N) as [->|_]; [|reflexivity].
  exfalso. apply H. left. reflexivity.
Qed.

(** Where the output of a substitution by a blank starts with a word that
    has no blank, the input starts with that word: the characters are
    copies, and no match lies between them. *)
Lemma startswith_sub_blank (r : regex) (u s : str) :
  ~ In 0x20%N u ->
  startswith u (sub_from r space 0 s) = true -> startswith u s = true.
Proof.
  revert u. induction s as [|c s IH]; intros u Hu.
  - cbn [sub_from]. tauto.
  - destruct u as [|x u]; [reflexivity|].
    cbn [sub_from].
    assert (Hkeep : startswith (x :: u) (c :: sub_from r space 0 s) = true ->
                    startswith (x :: u) (c :: s) = true).
    { cbn [startswith]. intros H. apply andb_true_iff in H as [H1 H2].
      rewrite H1. apply IH; [|exact H2].
      intros Hin. apply Hu. right. exact Hin. }
    destruct (match_at r (c :: s)) as [[rest g]|]; [|exact Hkeep].
    destruct (List.length (c :: s) - List.length rest)%nat; [exact Hkeep|].
    change (space ++ sub_from r space n s) with (0x20%N :: sub_from r space n s).
    rewrite (startswith_blank x u _ Hu). discriminate.
Qed.

(** A word without a blank that occurs in the output occurs in the input. *)
Lemma str_in_sub_blank (w : str) (r : regex) (k : nat) (s : str) :
  ~ In 0x20%N w -> w <> [] ->
  str_in w (sub_from r space k s) = true -> str_in w s = true.
Proof.
  intros w_no_blank Hne. revert k. induction s as [|c s IH]; intros k.
  - destruct k; cbn [sub_from]; tauto.
  - rewrite (str_in_cons w c s).
    assert (Hskip : forall n, str_in w (sub_from r space n s) = true ->
                     startswith w (c :: s) || str_in w s = true).
    { intros n H. rewrite (IH _ H). apply orb_true_r. }
    assert (Hkeep : str_in w (c :: sub_from r space 0 s) = true ->
                    startswith w (c :: s) || str_in w s = true).
    { rewrite str_in_cons. intros H. apply orb_true_iff in H as [H | H].
      - destruct w as [|x u] eqn:Ew; [congruence|].
        cbn [startswith] in H |- *. apply andb_true_iff in H as [H1 H2].
        rewrite H1. cbn [andb].
        rewrite (startswith_sub_blank r u s); [reflexivity | | exact H2].
        intros Hin. apply w_no_blank. right. exact Hin.
      - exact (Hskip _ H). }
    destruct k as [|k]; cbn [sub_from]; [|apply Hskip].
    destruct (match_at r (c :: s)) as [[rest g]|]; [|exact Hkeep].
    destruct (List.length (c :: s) - List.length rest)%nat; [exact Hkeep|].
    change (space ++ sub_from r space n s) with (0x20%N :: sub_from r space n s).
    rewrite str_in_cons.
    destruct w as [|x u] eqn:Ew; [congruence|].
    rewrite (startswith_blank x u _ w_no_blank). cbn [orb]. apply Hskip.
Qed.

(** [s.replace(kw, ' ')] leaves no occurrence of [kw]. *)
Lemma replace_removes (kw : str) (k : nat) (s : str) :
  ~ In 0x20%N kw -> kw <> [] ->
  str_in kw (sub_from (Lit kw) space k s) = false.
Proof.
  intros Hb Hne. revert k. induction s as [|c s IH]; intros k.
  - destruct k; cbn [sub_from str_in]; destruct kw; [congruence|reflexivity|congruence|reflexivity].
  - destruct k as [|k]; cbn [sub_from]; [|apply IH].
    assert (Hblank : forall n,
               str_in kw (space ++ sub_from (Lit kw) space n s) = false).
    { intros n.
      change (space ++ sub_from (Lit kw) space n s)
        with (0x20%N :: sub_from (Lit kw) space n s).
      rewrite str_in_cons, IH. destruct kw as [|x u]; [congruence|].
      rewrite (startswith_blank x u _ Hb). reflexivity. }
    unfold match_at. cbn [run].
    destruct (startswith kw (c :: s)) eqn:Hs.
    + destruct (List.length (c :: s)
                - List.length (drop (List.length kw) (c :: s)))%nat eqn:El;
        [|apply Hblank].
      exfalso. rewrite length_drop in El. destruct kw; [congruence|].
      cbn [List.length] in El. lia.
    + rewrite str_in_cons, IH, orb_false_r.
      destruct (startswith kw (c :: sub_from (Lit kw) space 0 s)) eqn:Ho;
        [|reflexivity].
      assert (Hin : startswith kw (c :: s) = true); [|congruence].
      apply (startswith_sub_blank (Lit kw) kw (c :: s) Hb).
      cbn [sub_from]. unfold match_at. cbn [run]. rewrite Hs. exact Ho.
Qed.

(** After the loop over the keywords none of them is left. *)
Lemma keywords_all_removed (kws : list str) (s kw : str) :
  Forall (fun w => ~ In 0x20%N w /\ w <> []) kws ->
  In kw kws ->
  str_in kw (fold_left (fun clean w => replace w space clean) kws s) = false.
Proof.
  intros Hall. revert kw.
  induction kws as [|w kws IH] using rev_ind; intros kw Hin; [destruct Hin|].
  rewrite fold_left_app. cbn [fold_left]. unfold replace at 1, sub.
  apply Forall_app in Hall as [Hkws Hw].
  apply Forall_cons_1 in Hw as [[Hwb Hwne] _].
  destruct (decide (kw = w)) as [->|Hneq].
  - apply replace_removes; assumption.
  - apply in_app_iff in Hin as [Hin | [<- | []]]; [|congruence].
    specialize (IH Hkws kw Hin).
    destruct (str_in kw (sub_from (Lit w) space 0 _)) eqn:E; [|reflexivity].
    rewrite List.Forall_forall in Hkws. destruct (Hkws kw Hin) as [Hb Hne].
    apply (str_in_sub_blank kw _ _ _ Hb Hne) in E. congruence.
Qed.

(** *** Runs of white space *)

(** *** Runs of white space *)

Lemma star_lstrip {G} (s : str) (g : G) :
  star is_space s (fun s' => Some (s', g)) = Some (lstrip s, g).
Proof.
  induction s as [|c s IH]; [reflexivity|].
  cbn [star lstrip]. destruct (is_space c); [rewrite IH|]; reflexivity.
Qed.

Lemma sub_from_passes (r : regex) (repl : str) (a s : str) :
  sub_from r repl (List.length a) (a ++ s) = sub_from r repl 0 s.
Proof.
  induction a as [|c a IH]; [reflexivity|].
  cbn [List.length app sub_from]. exact IH.
Qed.

(** [re.sub(r'\s+', ' ', s)], one step: a run of white space becomes one
    blank, any other character is copied. *)
Lemma sub_blanks_cons (c : char) (s : str) :
  sub (Plus is_space) space (c :: s)
  = if is_space c then 0x20%N :: sub (Plus is_space) space (lstrip s)
    else c :: sub (Plus is_space) space s.
Proof.
  unfold sub. cbn [sub_from]. unfold match_at, Plus. cbn [run].
  destruct (is_space c); [|reflexivity].
  rewrite star_lstrip.
  destruct (lstrip_suffix s) as [a Ha].
  pose proof (f_equal (@List.length _) Ha) as Hl. rewrite length_app in Hl.
  replace (List.length (c :: s) - List.length (lstrip s))%nat
    with (S (List.length a)) by (cbn [List.length]; lia).
  rewrite <- (sub_from_passes _ _ a (lstrip s)), <- Ha. reflexivity.
Qed.

Lemma sub_blanks_single_spaced (s : str) :
  single_spaced (sub (Plus is_space) space s) = true.
Proof.
  remember (List.length s) as n eqn:Hn.
  revert s Hn. induction n as [n IH] using lt_wf_ind. intros s Hn.
  destruct s as [|c s]; [reflexivity|].
  rewrite sub_blanks_cons. destruct (is_space c) eqn:Hc.
  - cbn [single_spaced].
    replace (is_space 0x20%N) with true by (vm_compute; reflexivity).
    replace (char_eqb 0x20%N 0x20%N) with true by (vm_compute; reflexivity).
    cbn [andb].
    rewrite (IH (List.length (lstrip s))); [| |reflexivity].
    + rewrite andb_true_r.
      destruct (lstrip s) as [|d t] eqn:E; [reflexivity|].
      pose proof (lstrip_head _ _ _ E) as Hd.
      rewrite sub_blanks_cons, Hd. cbv beta iota. rewrite Hd. reflexivity.
    + subst n. cbn [List.length]. pose proof (lstrip_length s). lia.
  - cbn [single_spaced]. rewrite Hc. cbn [andb].
    apply (IH (List.length s)); [subst n; cbn [List.length]; lia | reflexivity].
Qed.

Lemma single_spaced_app_r (a b : str) :
  single_spaced (a ++ b) = true -> single_spaced b = true.
Proof.
  induction a as [|c a IH]; [tauto|].
  cbn [app single_spaced]. intros H. apply andb_true_iff in H as [_ H].
  exact (IH H).
Qed.

Lemma single_spaced_app_l (a b : str) :
  single_spaced (a ++ b) = true -> single_spaced a = true.
Proof.
  induction a as [|c a IH]; [reflexivity|].
  cbn [app single_spaced]. intros H. apply andb_true_iff in H as [H1 H2].
  rewrite (IH H2), andb_true_r.
  destruct (is_space c); [|reflexivity].
  apply andb_true_iff in H1 as [H1 H3]. rewrite H1. cbn [andb].
  destruct a; [reflexivity | exact H3].
Qed.

Lemma single_spaced_strip (s : str) :
  single_spaced s = true -> single_spaced (strip s) = true.
Proof.
  intros H. unfold strip.
  destruct (rstrip_prefix (lstrip s)) as [b Hb].
  destruct (lstrip_suffix s) as [a Ha].
  rewrite Ha in H. apply single_spaced_app_r in H.
  rewrite Hb in H. apply single_spaced_app_l in H. exact H.
Qed.

Lemma in_strip (s : str) (c : char) : In c (strip s) -> In c s.
Proof.
  intros H. unfold strip in H.
  destruct (rstrip_prefix (lstrip s)) as [b Hb].
  destruct (lstrip_suffix s) as [a Ha].
  rewrite Ha, Hb, !in_app_iff. tauto.
Qed.

(** X14.  A product name that [_extract_product_name] returns has more than
    two characters, no white space at either end, none of the punctuation
    marks of the pattern and none of the removed keywords; its only white
    space is single blanks between other characters. *)
Theorem product_name_normal_form (message name : str) :
  _extract_product_name message = Some name ->
  (2 < List.length name)%nat
  /\ strip name = name
  /\ (forall c, In c name -> is_punctuation c = false)
  /\ (forall kw, In kw remove_keywords -> str_in kw name = false)
  /\ (forall c, In c name -> is_space c = true -> c = 0x20%N)
  /\ (forall a c d b, name = a ++ c :: d :: b ->
        is_space c = true -> is_space d = false).
Proof.
  unfold _extract_product_name. cbv zeta.
  set (c0 := sub price_pattern empty_str message).
  set (c1 := fold_left (fun clean kw => replace kw space clean) remove_keywords c0).
  set (c2 := sub (Cls is_punctuation) space c1).
  set (c3 := sub (Plus is_space) space c2).
  destruct (Nat.ltb_spec 2 (List.length (strip c3))) as [Hlen|_]; [|discriminate].
  intros [= <-].
  assert (Hss : single_spaced (strip c3) = true)
    by apply single_spaced_strip, sub_blanks_single_spaced.
  split; [exact Hlen|]. split; [apply strip_fixed|].
  split; [|split; [|split]].
  - intros c Hc. apply in_strip in Hc.
    apply in_sub_from in Hc as [Hc | [<- | []]]; [|vm_compute; reflexivity].
    apply in_sub_cls in Hc as [[_ Hc] | [<- | []]];
      [exact Hc | vm_compute; reflexivity].
  - intros kw Hkw.
    assert (Hk : ~ In 0x20%N kw /\ kw <> []).
    { revert kw Hkw. apply List.Forall_forall.
      unfold remove_keywords.
      repeat (apply List.Forall_cons;
              [split; [vm_compute; intuition discriminate | discriminate]|]).
      apply List.Forall_nil. }
    destruct Hk as [Hb Hne].
    destruct (str_in kw (strip c3)) eqn:E; [|reflexivity].
    apply str_in_strip in E.
    apply (str_in_sub_blank kw _ _ _ Hb Hne) in E.
    apply (str_in_sub_blank kw _ _ _ Hb Hne) in E.
    unfold c1 in E. rewrite keywords_all_removed in E; [discriminate | | exact Hkw].
    unfold remove_keywords.
    repeat (apply List.Forall_cons;
            [split; [vm_compute; intuition discriminate | discriminate]|]).
    apply List.Forall_nil.
  - clear Hlen. revert Hss. generalize (strip c3). intros n.
    induction n as [|x n IH]; intros Hss c Hc Hsp; [destruct Hc|].
    destruct Hc as [<- | Hc].
    + cbn [single_spaced] in Hss. rewrite Hsp in Hss.
      apply andb_true_iff in Hss as [Hss _].
      apply andb_true_iff in Hss as [Hss _].
      apply N.eqb_eq. exact Hss.
    + cbn [single_spaced] in Hss. apply andb_true_iff in Hss as [_ Hss].
      exact (IH Hss c Hc Hsp).
  - intros a c d b Hn Hsp. rewrite Hn in Hss.
    apply single_spaced_app_r in Hss. cbn [single_spaced] in Hss.
    rewrite Hsp in Hss. apply andb_true_iff in Hss as [Hss _].
    apply andb_true_iff in Hss as [_ Hss].
    apply negb_true_iff. exact Hss.
Qed.

End ProductNameProofs.

(** ** agents/price_tracker_agent_improved.py: the search *)

Module SearchProofs.
Import PChome PriceTrackerAgent PriceTrackerRequests.

Lemma min_from_in {A K} (lt : K -> K -> bool) (key : A -> K) (best : A)
    (xs : list A) :
  In (min_from lt key best xs) (best :: xs).
Proof.
  revert best. induction xs as [|x xs IH]; intros best; cbn [min_from].
  - left. reflexivity.
  - destruct (IH (if lt (key x) (key best) then x else best)) as [H | H].
    + destruct (lt (key x) (key best)); [right; left | left]; exact H.
    + right. right. exact H.
Qed.

(** [min] returns an item that no other item is below, for an order in
    which nothing is below itself and being below is kept when the bound
    grows. *)
Lemma min_from_least {A K} (lt : K -> K -> bool) (key : A -> K) (best : A)
    (xs : list A) :
  (forall a, lt a a = false) ->
  (forall a b c, lt a b = false -> lt c b = true -> lt a c = false) ->
  forall x, In x (best :: xs) -> lt (key x) (key (min_from lt key best xs)) = false.
Proof.
  intros Hirr Htr.
  assert (Hgen : forall (seen : list A) best,
             (forall y, In y seen -> lt (key y) (key best) = false) ->
             forall x, In x (seen ++ xs) ->
                       lt (key x) (key (min_from lt key best xs)) = false).
  { clear best. induction xs as [|x xs IH]; intros seen best Hseen y Hy.
    - rewrite app_nil_r in Hy. cbn [min_from]. exact (Hseen y Hy).
    - cbn [min_from]. apply (IH (seen ++ [x])).
      + intros z Hz. apply in_app_iff in Hz as [Hz | [<- | []]].
        * destruct (lt (key x) (key best)) eqn:E; [|exact (Hseen z Hz)].
          exact (Htr _ _ _ (Hseen z Hz) E).
        * destruct (lt (key x) (key best)) eqn:E; [apply Hirr | exact E].
      + rewrite <- app_assoc. exact Hy. }
  intros x Hx. apply (Hgen [best] best).
  - intros y [<- | []]. apply Hirr.
  - exact Hx.
Qed.

Lemma price_lt_irrefl (a : option Z) : price_lt a a = false.
Proof. destruct a as [z|]; [apply Z.ltb_irrefl | reflexivity]. Qed.

Lemma price_lt_bound (a b c : option Z) :
  price_lt a b = false -> price_lt c b = true -> price_lt a c = false.
Proof.
  destruct a as [x|], b as [y|], c as [z|]; cbn [price_lt];
    try discriminate; try reflexivity.
  rewrite !Z.ltb_ge, Z.ltb_lt. lia.
Qed.

Section Search.
Context {L : StrLower}.

(** What a successful search was computed from. *)
Lemma search_pchome_inv (reply : outcome MultiPlatformSearch.response)
    (query : str) (h : hit) :
  _search_pchome reply query = Some h ->
  exists response products first rest z zs,
    reply = Returned response
    /\ MultiPlatformSearch.status_code response = 200%Z
    /\ MultiPlatformSearch.prods response = Returned (Some products)
    /\ _filter_products products query = first :: rest
    /\ List.map (fun p => default 0%Z (price p))
                (List.filter has_price (first :: rest)) = z :: zs
    /\ h = {| hit_platform := py "PChome 24h";
              min_price := min_from Z.ltb (fun v => v) z zs;
              hit_url := py "https://24h.pchome.com.tw/prod/"
                         ++ default empty_str (Id (min_from price_lt price first rest));
              product_name := default empty_str (name (min_from price_lt price first rest));
              product_id := default empty_str (Id (min_from price_lt price first rest)) |}.
Proof.
  unfold _search_pchome.
  destruct reply as [response|e]; cbn [bind]; [|discriminate].
  destruct (Z.eqb_spec (MultiPlatformSearch.status_code response) 200) as [Hs|_];
    [|discriminate].
  destruct (MultiPlatformSearch.prods response) as [[products|]|e] eqn:Hp;
    cbn [bind default from_option id]; [| discriminate | discriminate].
  destruct products as [|p0 ps]; [discriminate|].
  destruct (_filter_products (p0 :: ps) query) as [|first rest] eqn:Hf;
    cbv beta iota zeta; [discriminate|].
  destruct (List.map (fun p => default 0%Z (price p))
                     (List.filter has_price (first :: rest)))
    as [|z zs] eqn:Hz; cbv beta iota zeta; [discriminate|].
  intros [= <-].
  exists response, (p0 :: ps), first, rest, z, zs.
  repeat split; auto.
Qed.

Lemma priced_in (ps : list prod) (z : Z) :
  In z (List.map (fun p => default 0%Z (price p)) (List.filter has_price ps))
  <-> exists p, In p ps /\ price p = Some z /\ z <> 0%Z.
Proof.
  rewrite in_map_iff. split.
  - intros (p & Hz & Hp). apply List.filter_In in Hp as [Hp Hh].
    exists p. unfold has_price in Hh. destruct (price p) as [v|]; [|discriminate].
    cbn [default from_option id] in Hz. subst v. split; [exact Hp|]. split; [reflexivity|].
    apply negb_true_iff, Z.eqb_neq in Hh. exact Hh.
  - intros (p & Hp & Hz & Hne). exists p. rewrite Hz. split; [reflexivity|].
    apply List.filter_In. split; [exact Hp|]. unfold has_price. rewrite Hz.
    apply negb_true_iff, Z.eqb_neq. exact Hne.
Qed.

(** X15.  When [_search_pchome] reports a price, the shop answered with
    status 200 and [min_price] is the least price other than 0 among the
    listings that [_filter_products] keeps; the product it names is one of
    those listings that no other is cheaper than, a missing price counting
    as the highest, and the address is the shop's product page of that
    listing. *)
Theorem search_pchome_min_price (reply : outcome MultiPlatformSearch.response)
    (query : str) (h : hit) :
  _search_pchome reply query = Some h ->
  exists response products,
    reply = Returned response
    /\ MultiPlatformSearch.status_code response = 200%Z
    /\ MultiPlatformSearch.prods response = Returned (Some products)
    /\ (exists p, In p (_filter_products products query)
                  /\ price p = Some (min_price h))
    /\ min_price h <> 0%Z
    /\ (forall p z, In p (_filter_products products query) ->
          price p = Some z -> z <> 0%Z -> (min_price h <= z)%Z)
    /\ exists cheapest,
         In cheapest (_filter_products products query)
         /\ (forall p, In p (_filter_products products query) ->
               price_lt (price p) (price cheapest) = false)
         /\ product_name h = default empty_str (name cheapest)
         /\ product_id h = default empty_str (Id cheapest)
         /\ hit_url h = py "https://24h.pchome.com.tw/prod/" ++ product_id h
         /\ hit_platform h = py "PChome 24h".
Proof.
  intros H.
  destruct (search_pchome_inv _ _ _ H)
    as (response & products & first & rest & z & zs & Hr & Hs & Hp & Hf & Hz & ->).
  exists response, products. rewrite Hf. cbn [min_price product_name product_id
    hit_url hit_platform].
  split; [exact Hr|]. split; [exact Hs|]. split; [exact Hp|].
  pose proof (min_from_in Z.ltb (fun v => v) z zs) as Hin.
  rewrite <- Hz in Hin. apply priced_in in Hin as (p & Hin & Hprice & Hne).
  split; [exists p; split; assumption|]. split; [exact Hne|]. split.
  - intros q v Hq Hv Hv0.
    assert (Hv' : In v (z :: zs)).
    { rewrite <- Hz. apply priced_in. exists q. repeat split; assumption. }
    pose proof (min_from_least Z.ltb (fun v => v) z zs Z.ltb_irrefl) as Hl.
    apply Z.ltb_ge. apply Hl; [|exact Hv'].
    intros a b c. rewrite !Z.ltb_ge, Z.ltb_lt. lia.
  - exists (min_from price_lt price first rest).
    split; [apply min_from_in|]. split; [|repeat split].
    intros q Hq.
    apply (min_from_least price_lt price first rest price_lt_irrefl price_lt_bound).
    exact Hq.
Qed.

(** X16.  When the kept listings hold one with price 0 and none with a
    negative price, the product that [_search_pchome] names is a listing
    with price 0, while the [min_price] it reports is above 0: the reply
    joins the name of one listing with the price of another. *)
Theorem search_pchome_zero_price (reply : outcome MultiPlatformSearch.response)
    (query : str) (h : hit) (response : MultiPlatformSearch.response)
    (products : list prod) :
  _search_pchome reply query = Some h ->
  reply = Returned response ->
  MultiPlatformSearch.prods response = Returned (Some products) ->
  (exists p, In p (_filter_products products query) /\ price p = Some 0%Z) ->
  (forall p z, In p (_filter_products products query) ->
     price p = Some z -> (0 <= z)%Z) ->
  (0 < min_price h)%Z
  /\ exists named, In named (_filter_products products query)
       /\ price named = Some 0%Z
       /\ product_name h = default empty_str (name named)
       /\ product_id h = default empty_str (Id named).
Proof.
  intros H Hreply Hprods (p0 & Hp0 & Hzero) Hnonneg.
  destruct (search_pchome_inv _ _ _ H)
    as (response' & products' & first & rest & z & zs & Hr & Hs & Hp & Hf & Hz & ->).
  rewrite Hreply in Hr. injection Hr as <-.
  rewrite Hprods in Hp. injection Hp as <-.
  rewrite Hf in *. cbn [min_price product_name product_id].
  split.
  - pose proof (min_from_in Z.ltb (fun v => v) z zs) as Hin.
    rewrite <- Hz in Hin. apply priced_in in Hin as (p & Hin & Hprice & Hne).
    specialize (Hnonneg p _ Hin Hprice). lia.
  - exists (min_from price_lt price first rest).
    pose proof (min_from_in price_lt price first rest) as Hin.
    split; [exact Hin|]. split; [|split; reflexivity].
    pose proof (min_from_least price_lt price first rest price_lt_irrefl
                  price_lt_bound p0 Hp0) as Hle.
    rewrite Hzero in Hle.
    destruct (price (min_from price_lt price first rest)) as [v|] eqn:Ev;
      cbn [price_lt] in Hle; [|discriminate].
    apply Z.ltb_ge in Hle. specialize (Hnonneg _ _ Hin Ev).
    f_equal. lia.
Qed.

End Search.

End SearchProofs.

(** ** app.py *)

Module AppProofs.
Import App.

Lemma dict_get_in {V} (k : str) (v : V) (d : list (str * V)) :
  dict_get k d = Some v -> In (k, v) d.
Proof.
  induction d as [|[k' v'] d IH]; cbn [dict_get]; [discriminate|].
  destruct (str_eqb k k') eqn:E.
  - apply AIIntentAnalyzerProofs.str_eqb_eq in E. subst k'.
    intros [= ->]. left. reflexivity.
  - intros H. right. exact (IH H).
Qed.

Lemma dict_get_absent {V} (k : str) (d : list (str * V)) :
  ~ In k (keys d) -> dict_get k d = None.
Proof.
  induction d as [|[k' v'] d IH]; cbn [dict_get]; [reflexivity|].
  intros H. destruct (str_eqb k k') eqn:E.
  - apply AIIntentAnalyzerProofs.str_eqb_eq in E. subst k'.
    exfalso. apply H. left. reflexivity.
  - apply IH. intros Hin. apply H. right. exact Hin.
Qed.

(** Every list of the table opens with the light bulb. *)
Lemma suggestions_open (k : str) (lines : list str) :
  In (k, lines) suggestions ->
  exists rest more, lines = (light_bulb ++ rest) :: more.
Proof.
  intros H.
  assert (Hall : Forall (fun kv : str * list str =>
                   exists rest more, snd kv = (light_bulb ++ rest) :: more)
                 suggestions).
  { unfold suggestions.
    repeat (apply List.Forall_cons;
            [cbn [snd];
             match goal with |- exists rest more, ?l = _ =>
               exists (drop 1 (List.hd [] l)), (List.tl l) end;
             vm_compute; reflexivity|]).
    apply List.Forall_nil. }
  rewrite List.Forall_forall in Hall. exact (Hall _ H).
Qed.

Lemma str_in_self_app (w b : str) : str_in w (w ++ b) = true.
Proof.
  destruct (w ++ b) as [|c t] eqn:E.
  - destruct w; [reflexivity | discriminate].
  - rewrite <- E. destruct w as [|x w]; [rewrite E; reflexivity|].
    cbn [app] in *. cbn [str_in].
    pose proof (MultiPlatformSearchMore.startswith_self_app (x :: w) b) as H.
    cbn [app] in H. rewrite H. reflexivity.
Qed.

(** X17.  [_add_intelligent_suggestions] only appends to the response; for
    an agent of its table the result holds the light bulb, for any other
    agent the response is unchanged; adding suggestions to its own result
    changes nothing, so they are never added twice. *)
Theorem suggestions_added_once (agent_name response : str) :
  (exists tail, _add_intelligent_suggestions agent_name response = response ++ tail)
  /\ (In agent_name (keys suggestions) ->
      str_in light_bulb (_add_intelligent_suggestions agent_name response) = true)
  /\ (~ In agent_name (keys suggestions) ->
      _add_intelligent_suggestions agent_name response = response)
  /\ _add_intelligent_suggestions agent_name
       (_add_intelligent_suggestions agent_name response)
     = _add_intelligent_suggestions agent_name response.
Proof.
  assert (Hadd : forall lines,
             dict_get agent_name suggestions = Some lines ->
             str_in light_bulb (response ++ newline ++ newline ++ join newline lines)
             = true).
  { intros lines Hl. apply dict_get_in, suggestions_open in Hl as (rest & more & ->).
    apply ProductNameProofs.str_in_app_r, ProductNameProofs.str_in_app_r,
          ProductNameProofs.str_in_app_r.
    destruct more as [|m more]; cbn [join]; rewrite <- ?app_assoc;
      apply str_in_self_app. }
  unfold _add_intelligent_suggestions.
  destruct (str_in light_bulb response) eqn:Hb.
  - split; [exists []; symmetry; apply app_nil_r|].
    split; [intros _; exact Hb|]. split; [reflexivity|].
    rewrite Hb. reflexivity.
  - destruct (dict_get agent_name suggestions) as [lines|] eqn:Hd.
    + split; [eexists; reflexivity|].
      split; [intros _; exact (Hadd lines eq_refl)|].
      split; [|rewrite (Hadd lines eq_refl); reflexivity].
      intros Hn. rewrite (dict_get_absent _ _ Hn) in Hd. discriminate.
    + split; [exists []; symmetry; apply app_nil_r|].
      split; [|split; [reflexivity | rewrite Hb; reflexivity]].
      intros Hin. exfalso.
      apply BaseAgentRestProofs.dict_get_none_keys in Hd. exact (Hd Hin).
Qed.

(** Slices of width [M] taken at the multiples of [M]. *)
Lemma slices_concat (M : nat) (s : str) (n : nat) :
  concat (List.map (fun k => take M (drop (k * M) s)) (seq 0 n)) = take (n * M) s.
Proof.
  induction n as [|n IH]; [reflexivity|].
  rewrite seq_S, map_app, concat_app, IH. cbn [List.map concat plus].
  rewrite app_nil_r, take_take_drop. f_equal. lia.
Qed.

Lemma range_count_covers (n M : nat) : (0 < M)%nat -> (n <= range_count n M * M)%nat.
Proof.
  intros HM. unfold range_count.
  pose proof (Nat.div_mod_eq (n + M - 1) M) as Hd.
  pose proof (Nat.mod_upper_bound (n + M - 1) M) as Hr.
  set (q := ((n + M - 1) / M)%nat) in *.
  set (r := ((n + M - 1) mod M)%nat) in *. clearbody q r.
  nia.
Qed.

(** X18.  The texts that [handle_message] sends are never empty as a list
    and none is longer than 4900 characters; put together in the order they
    are sent they are the whole response, with the night reminder after it
    exactly when the hour is 22 or later, or before 5. *)
Theorem outgoing_texts (response : str) (hour : nat) :
  outgoing response hour <> []
  /\ Forall (fun t => (List.length t <= 4900)%nat) (outgoing response hour)
  /\ concat (outgoing response hour)
     = response ++ (if ((22 <=? hour) || (hour <? 5))%nat
                    then newline ++ newline ++ py "🌙 夜深了，記得早點休息喔！"
                    else []).
Proof.
  unfold outgoing.
  set (full := if ((22 <=? hour) || (hour <? 5))%nat
               then response ++ newline ++ newline ++ py "🌙 夜深了，記得早點休息喔！"
               else response).
  assert (Hfull : full = response ++ (if ((22 <=? hour) || (hour <? 5))%nat
                    then newline ++ newline ++ py "🌙 夜深了，記得早點休息喔！"
                    else [])).
  { unfold full. destruct ((22 <=? hour) || (hour <? 5))%nat;
      [reflexivity | symmetry; apply app_nil_r]. }
  rewrite <- Hfull. clearbody full. clear Hfull.
  assert (HM : (0 < MAX_LENGTH)%nat) by (unfold MAX_LENGTH; lia).
  change 4900%nat with MAX_LENGTH.
  destruct (Nat.ltb_spec MAX_LENGTH (List.length full)) as [Hlong|Hshort].
  - unfold parts. split; [|split].
    + pose proof (range_count_covers (List.length full) MAX_LENGTH HM) as Hc.
      destruct (range_count (List.length full) MAX_LENGTH) as [|n];
        [cbn [Nat.mul] in Hc; lia | discriminate].
    + apply List.Forall_forall. intros t Ht. apply in_map_iff in Ht as (k & <- & _).
      rewrite length_take. lia.
    + rewrite slices_concat. apply take_ge.
      apply range_count_covers, HM.
  - split; [discriminate|].
    split; [apply List.Forall_cons; [exact Hshort | apply List.Forall_nil]|].
    cbn [concat]. apply app_nil_r.
Qed.

End AppProofs.

(** ** agents/multi_platform_search.py: the price as it is shown *)

Module PriceTextProofs.
Import MultiPlatformSearch PriceText DecimalFacts CharFacts.

Lemma group3_step (a b c d : char) (more : str) :
  group3 (a :: b :: c :: d :: more) = a :: b :: c :: 0x2C%N :: group3 (d :: more).
Proof. reflexivity. Qed.

Lemma group3_short (l : str) : (List.length l <= 3)%nat -> group3 l = l.
Proof.
  destruct l as [|a [|b [|c [|d more]]]]; try reflexivity.
  cbn [List.length]. lia.
Qed.

(** Grouping adds separators and nothing else, one after every third
    character that has a character after it. *)
Lemma group3_spec (l : str) :
  List.filter not_comma (group3 l) = List.filter not_comma l
  /\ List.length (group3 l) = (List.length l + (List.length l - 1) / 3)%nat.
Proof.
  remember (List.length l) as n eqn:Hn. revert l Hn.
  induction n as [n IH] using lt_wf_ind. intros l Hn.
  destruct l as [|a [|b [|c [|d more]]]]; try (subst n; split; reflexivity).
  rewrite group3_step.
  destruct (IH (List.length (d :: more))
              ltac:(subst n; cbn [List.length]; lia) (d :: more) eq_refl)
    as [IHf IHl].
  split.
  - cbn [List.filter]. replace (not_comma 0x2C%N) with false by reflexivity.
    cbn [List.filter] in IHf. rewrite IHf. reflexivity.
  - subst n. cbn [List.length] in *. rewrite IHl.
    set (m := List.length more). clearbody m.
    replace (S (S (S (S m))) - 1)%nat with (1 * 3 + (S m - 1))%nat by lia.
    rewrite Nat.div_add_l by discriminate. lia.
Qed.

Lemma filter_rev {A} (f : A -> bool) (l : list A) :
  List.filter f (rev l) = rev (List.filter f l).
Proof.
  induction l as [|x l IH]; [reflexivity|].
  cbn [rev List.filter]. rewrite List.filter_app, IH. cbn [List.filter].
  destruct (f x); [reflexivity | apply app_nil_r].
Qed.

Lemma digits_not_comma (ds : str) :
  forallb is_ascii_digit ds = true -> List.filter not_comma ds = ds.
Proof.
  induction ds as [|d ds IH]; [reflexivity|].
  cbn [forallb List.filter]. intros H. apply andb_true_iff in H as [Hd Hds].
  rewrite (IH Hds).
  replace (not_comma d) with true; [reflexivity|].
  symmetry. unfold not_comma, char_eqb. apply negb_true_iff, N.eqb_neq.
  intros ->. vm_compute in Hd. discriminate.
Qed.

(** X19.  The price that [format_multi_platform_response] shows with
    thousands separators reads back as the price: without the commas it is
    the sign and the decimal numeral of the amount, and for a price that is
    not negative the text has one comma for every full group of three
    digits after the first digit. *)
Theorem format_commas_round_trip (z : Z) :
  List.filter not_comma (format_commas z)
  = (if (z <? 0)%Z then py "-" else []) ++ decimal (Z.abs_N z)
  /\ ((0 <= z)%Z ->
      parse_number (List.filter not_comma (format_commas z)) = Some (Z.to_N z)
      /\ List.length (format_commas z)
         = (List.length (decimal (Z.to_N z))
            + (List.length (decimal (Z.to_N z)) - 1) / 3)%nat).
Proof.
  assert (Hbody : List.filter not_comma (rev (group3 (rev (decimal (Z.abs_N z)))))
                  = decimal (Z.abs_N z)).
  { rewrite filter_rev, (proj1 (group3_spec _)), <- filter_rev, rev_involutive.
    apply digits_not_comma, decimal_digits. }
  unfold format_commas. split.
  - rewrite List.filter_app, Hbody. f_equal.
    destruct (z <? 0)%Z; reflexivity.
  - intros Hz. destruct (Z.ltb_spec z 0) as [Hneg|_]; [lia|].
    cbn [app]. rewrite Hbody.
    replace (Z.abs_N z) with (Z.to_N z) by lia.
    split; [apply parse_decimal|].
    rewrite length_rev, (proj2 (group3_spec _)), length_rev. reflexivity.
Qed.

End PriceTextProofs.

(** ** The further theorems at sample inputs *)

Module MoreInstances.
Import Samples MoreSamples.

Import AIIntentAnalyzer.

Lemma classifier_failure_is_fallback_witness :
  let reply : option json := Some (JObj []) in
  let api_key := py "sk-test" in
  let now := py "2026-01-01T09:00:00" in
  let message := py "iPhone 15 多少錢" in
  let user_id := Some (py "U1") in
  (forall f fs, reply <> Some (JObj (f :: fs)))
  /\ (analyze_intent (L := ascii_lower) api_key reply now ∅ message user_id
      = analyze_intent (L := ascii_lower) [] None now ∅ message user_id
      /\ snd (analyze_intent (L := ascii_lower) api_key reply now ∅ message user_id)
         = ∅
      /\ exists label confidence analysis,
           fst (analyze_intent (L := ascii_lower) api_key reply now ∅ message user_id)
           = Returned (JStr label, JNum confidence, analysis)).
Proof.
  assert (H : forall f fs, Some (JObj []) <> Some (JObj (f :: fs)))
    by (intros f fs; discriminate).
  split; [exact H|].
  exact (AIIntentAnalyzerMore.classifier_failure_is_fallback (L := ascii_lower)
           (py "sk-test") (Some (JObj [])) (py "2026-01-01T09:00:00") ∅
           (py "iPhone 15 多少錢") (Some (py "U1")) H).
Defined.

Import MultiPlatformSearch MultiPlatformSearchProofs.

Lemma module_search_is_pchome_witness :
  let reply := shop_reply [phone; phone_case] in
  let keyword := py "iPhone 15" in
  let completed := [F_momo; F_pchome; F_shopee] in
  Permutation completed all_futures
  /\ (let found := fst (search_pchome reply keyword 5) in
      search_all_platforms (module_workers reply keyword 5) completed
      = ([ (py "pchome", found); (py "momo", []); (py "shopee", []) ], [])
      /\ sorted_products
           (fst (search_all_platforms (module_workers reply keyword 5) completed))
         = sort_by_price found).
Proof.
  assert (Hp : Permutation [F_momo; F_pchome; F_shopee] all_futures)
    by (unfold all_futures; apply perm_swap).
  split; [exact Hp|].
  exact (MultiPlatformSearchMore.module_search_is_pchome
           (shop_reply [phone; phone_case]) (py "iPhone 15") 5
           [F_momo; F_pchome; F_shopee] Hp).
Defined.

Import BaseAgentRest.

Lemma format_response_blank_witness :
  let response := py "  " ++ newline in
  response <> []
  /\ forallb is_space response = true
  /\ (List.length response <= 5000)%nat
  /\ format_response response = [].
Proof.
  assert (H1 : py "  " ++ newline <> []) by (vm_compute; discriminate).
  assert (H2 : forallb is_space (py "  " ++ newline) = true)
    by (vm_compute; reflexivity).
  assert (H3 : (List.length (py "  " ++ newline) <= 5000)%nat)
    by (apply Nat.leb_le; vm_compute; reflexivity).
  split; [exact H1|]. split; [exact H2|]. split; [exact H3|].
  exact (BaseAgentRestProofs.format_response_blank (py "  " ++ newline) H1 H2 H3).
Defined.

Import PChome PriceTrackerAgent PriceTrackerRequests.

Lemma product_name_normal_form_witness :
  let name := py "iPhone 15 Pro" in
  _extract_product_name track_message = Some name
  /\ ((2 < List.length name)%nat
      /\ strip name = name
      /\ (forall c, In c name -> is_punctuation c = false)
      /\ (forall kw, In kw remove_keywords -> str_in kw name = false)
      /\ (forall c, In c name -> is_space c = true -> c = 0x20%N)
      /\ (forall a c d b, name = a ++ c :: d :: b ->
            is_space c = true -> is_space d = false)).
Proof.
  assert (H : _extract_product_name track_message = Some (py "iPhone 15 Pro"))
    by (vm_compute; reflexivity).
  split; [exact H|].
  exact (ProductNameProofs.product_name_normal_form track_message
           (py "iPhone 15 Pro") H).
Defined.

Lemma search_pchome_min_price_witness :
  let reply := shop_reply [phone_case; phone] in
  let query := py "iPhone 15" in
  _search_pchome (L := ascii_lower) reply query = Some phone_hit
  /\ exists response products,
       reply = Returned response
       /\ MultiPlatformSearch.status_code response = 200%Z
       /\ MultiPlatformSearch.prods response = Returned (Some products)
       /\ (exists p, In p (_filter_products (L := ascii_lower) products query)
                     /\ price p = Some (min_price phone_hit))
       /\ min_price phone_hit <> 0%Z
       /\ (forall p z, In p (_filter_products (L := ascii_lower) products query) ->
             price p = Some z -> z <> 0%Z -> (min_price phone_hit <= z)%Z)
       /\ exists cheapest,
            In cheapest (_filter_products (L := ascii_lower) products query)
            /\ (forall p, In p (_filter_products (L := ascii_lower) products query) ->
                  price_lt (price p) (price cheapest) = false)
            /\ product_name phone_hit = default empty_str (name cheapest)
            /\ product_id phone_hit = default empty_str (Id cheapest)
            /\ hit_url phone_hit
               = py "https://24h.pchome.com.tw/prod/" ++ product_id phone_hit
            /\ hit_platform phone_hit = py "PChome 24h".
Proof.
  assert (H : _search_pchome (L := ascii_lower) (shop_reply [phone_case; phone])
                (py "iPhone 15") = Some phone_hit)
    by (vm_compute; reflexivity).
  split; [exact H|].
  exact (SearchProofs.search_pchome_min_price (L := ascii_lower)
           (shop_reply [phone_case; phone]) (py "iPhone 15") phone_hit H).
Defined.

Lemma search_pchome_zero_price_witness :
  let products := [phone; gift] in
  let response := {| MultiPlatformSearch.status_code := 200;
                     MultiPlatformSearch.prods := Returned (Some products) |} in
  let query := py "iPhone 15" in
  _search_pchome (L := ascii_lower) (Returned response) query = Some gift_hit
  /\ (exists p, In p (_filter_products (L := ascii_lower) products query)
                /\ price p = Some 0%Z)
  /\ (forall p z, In p (_filter_products (L := ascii_lower) products query) ->
        price p = Some z -> (0 <= z)%Z)
  /\ ((0 < min_price gift_hit)%Z
      /\ exists named, In named (_filter_products (L := ascii_lower) products query)
           /\ price named = Some 0%Z
           /\ product_name gift_hit = default empty_str (name named)
           /\ product_id gift_hit = default empty_str (Id named)).
Proof.
  set (products := [phone; gift]).
  set (response := {| MultiPlatformSearch.status_code := 200;
                      MultiPlatformSearch.prods := Returned (Some products) |}).
  assert (Hf : _filter_products (L := ascii_lower) products (py "iPhone 15")
               = [phone; gift]) by (vm_compute; reflexivity).
  assert (H1 : _search_pchome (L := ascii_lower) (Returned response)
                 (py "iPhone 15") = Some gift_hit)
    by (vm_compute; reflexivity).
  assert (H2 : exists p, In p (_filter_products (L := ascii_lower) products
                                 (py "iPhone 15"))
                         /\ price p = Some 0%Z).
  { exists gift. rewrite Hf. split; [right; left; reflexivity | reflexivity]. }
  assert (H3 : forall p z, In p (_filter_products (L := ascii_lower) products
                                   (py "iPhone 15")) ->
                           price p = Some z -> (0 <= z)%Z).
  { intros p z Hp. rewrite Hf in Hp.
    destruct Hp as [<- | [<- | []]]; cbn [price phone gift];
      intros [= <-]; lia. }
  cbv zeta. split; [exact H1|]. split; [exact H2|]. split; [exact H3|].
  exact (SearchProofs.search_pchome_zero_price (L := ascii_lower)
           (Returned response) (py "iPhone 15") gift_hit response products
           H1 eq_refl eq_refl H2 H3).
Defined.

End MoreInstances.
